(** * MedDocReader: the extraction / confidence / review pipeline

    A shallow embedding of [app/models], [app/database/repositories] and
    [app/services], followed by the properties of the pipeline.

    Conventions of the embedding.
    - A Python [str] is a [string]; one [ascii] stands for one code point, so
      the texts of the model are those whose code points lie below 256.  The
      character classes below ([\d], [\s], [\w], [str.strip], [str.lower])
      are the Python ones restricted to that range.
    - A Python [float] holding a confidence is the rational it denotes (type
      [Q]); the literals [0.8], [0.75], [0.5] are the decimals themselves.
      Rounding, infinities and NaN are outside the model.
    - Code that talks to the store runs in the monad [M]: it threads the
      state of the database and either returns a value or raises.
    - The store is PostgreSQL behind psycopg2 with the schema of
      [app/database]: the foreign keys of [patients] and [processing_logs],
      the [DATE] column of [patients] and the driver's adaptation of the
      parameters are part of the model.
    - Wall-clock durations ([processing_time]) and logging calls are left
      out. *)

From Stdlib Require Import List String Ascii Bool ZArith NArith QArith Lia Lqa.
Import ListNotations.

Open Scope string_scope.

(** ** Python text primitives *)

Module Py.

Definition code (c : ascii) : N := N_of_ascii c.

Definition between (lo hi : N) (c : ascii) : bool :=
  (N.leb lo (code c) && N.leb (code c) hi)%bool.

Definition is_char (a c : ascii) : bool := Ascii.eqb a c.

(** [\d] and [str.isdecimal] below code point 256: the ten ASCII digits. *)
Definition isdecimal (c : ascii) : bool := between 48 57 c.

Definition isupper_ascii (c : ascii) : bool := between 65 90 c.
Definition islower_ascii (c : ascii) : bool := between 97 122 c.

(** [\s] and [str.isspace] below code point 256: TAB..CR, FS..US, SPACE,
    NEL and NBSP. *)
Definition isspace (c : ascii) : bool :=
  (between 9 13 c || between 28 31 c || N.eqb (code c) 32
   || N.eqb (code c) 133 || N.eqb (code c) 160)%bool.

(** [\w] below code point 256: letters, the characters that are decimal,
    digit or numeric, and the underscore. *)
Definition isword (c : ascii) : bool :=
  (isdecimal c || isupper_ascii c || islower_ascii c || N.eqb (code c) 95
   || N.eqb (code c) 170 || between 178 179 c || N.eqb (code c) 181
   || between 185 186 c || between 188 190 c
   || between 192 214 c || between 216 246 c || between 248 255 c)%bool.

(** [str.lower] on one code point below 256. *)
Definition lower_char (c : ascii) : ascii :=
  if (isupper_ascii c || between 192 214 c || between 216 222 c)%bool
  then ascii_of_N (code c + 32) else c.

(** [str.upper] on one ASCII code point; it is applied to the constants
    of [config.supported_formats] only. *)
Definition upper_char (c : ascii) : ascii :=
  if islower_ascii c then ascii_of_N (code c - 32) else c.

Fixpoint map_str (f : ascii -> ascii) (s : string) : string :=
  match s with
  | EmptyString => EmptyString
  | String c s' => String (f c) (map_str f s')
  end.

Definition lower : string -> string := map_str lower_char.
Definition upper : string -> string := map_str upper_char.

Fixpoint filter_str (p : ascii -> bool) (s : string) : string :=
  match s with
  | EmptyString => EmptyString
  | String c s' => if p c then String c (filter_str p s') else filter_str p s'
  end.

Fixpoint forall_str (p : ascii -> bool) (s : string) : bool :=
  match s with
  | EmptyString => true
  | String c s' => (p c && forall_str p s')%bool
  end.

(** [str.lstrip()], [str.rstrip()] and [str.strip()] without argument. *)
Fixpoint lstrip (s : string) : string :=
  match s with
  | EmptyString => EmptyString
  | String c s' => if isspace c then lstrip s' else s
  end.

Fixpoint rstrip (s : string) : string :=
  match s with
  | EmptyString => EmptyString
  | String c s' =>
      match rstrip s' with
      | EmptyString => if isspace c then EmptyString else String c EmptyString
      | t => String c t
      end
  end.

Definition strip (s : string) : string := rstrip (lstrip s).

(** [sep.join(parts)]. *)
Fixpoint join (sep : string) (parts : list string) : string :=
  match parts with
  | [] => EmptyString
  | [p] => p
  | p :: rest => p ++ sep ++ join sep rest
  end.

(** [s.endswith(suffix)]. *)
Definition endswith (s suffix : string) : bool :=
  let n := String.length s in
  let k := String.length suffix in
  (Nat.leb k n && String.eqb (substring (n - k) k s) suffix)%bool.

(** [needle in haystack]. *)
Fixpoint contains (haystack needle : string) : bool :=
  (String.prefix needle haystack
   || match haystack with
      | EmptyString => false
      | String _ h' => contains h' needle
      end)%bool.

(** Truth value of a [str] and of an [Optional[str]]. *)
Definition truthy_str (s : string) : bool :=
  match s with EmptyString => false | _ => true end.

Definition truthy_opt_str (o : option string) : bool :=
  match o with None => false | Some s => truthy_str s end.

(** Truth value of an [Optional[int]]. *)
Definition truthy_int (o : option Z) : bool :=
  match o with None => false | Some z => negb (Z.eqb z 0) end.

(** Truth value of a dict or list: non-empty. *)
Definition truthy_list {A : Type} (l : list A) : bool :=
  match l with [] => false | _ => true end.

(** [sum(xs)] on floats: starts from 0 and adds from the left. *)
Definition sum (xs : list Q) : Q := fold_left Qplus xs 0.

(** [len(xs)], as the float it becomes in a division. *)
Definition len {A : Type} (xs : list A) : Q :=
  inject_Z (Z.of_nat (List.length xs)).

(** The exceptions the pipeline meets; all of them are subclasses of
    [Exception]. *)
Inductive exn : Type :=
| Exception (msg : string)
| ValueError (msg : string)
| OSError (msg : string)
| DatabaseError (msg : string)
| UnboundLocalError (variable : string).

(** [str(e)]. *)
Definition str_exn (e : exn) : string :=
  match e with
  | Exception msg | ValueError msg | OSError msg | DatabaseError msg => msg
  | UnboundLocalError v =>
      "cannot access local variable '" ++ v
      ++ "' where it is not associated with a value"
  end.

(** A local variable of a function body: bound or not yet assigned. *)
Inductive local (A : Type) : Type :=
| Unbound
| Bound (a : A).
Arguments Unbound {A}.
Arguments Bound {A} a.

End Py.

(** ** app/models *)

Module Models.

Inductive ProcessingStatus : Type :=
| PENDING
| PROCESSING
| COMPLETED
| FAILED
| NEEDS_REVIEW.

(** [status.value] *)
Definition status_value (s : ProcessingStatus) : string :=
  match s with
  | PENDING => "pending"
  | PROCESSING => "processing"
  | COMPLETED => "completed"
  | FAILED => "failed"
  | NEEDS_REVIEW => "needs_review"
  end.

(** [ProcessingStatus(text)]: the member with that value, if any. *)
Definition status_of_value (v : string) : option ProcessingStatus :=
  if String.eqb v "pending" then Some PENDING
  else if String.eqb v "processing" then Some PROCESSING
  else if String.eqb v "completed" then Some COMPLETED
  else if String.eqb v "failed" then Some FAILED
  else if String.eqb v "needs_review" then Some NEEDS_REVIEW
  else None.

Definition status_eqb (a b : ProcessingStatus) : bool :=
  match a, b with
  | PENDING, PENDING | PROCESSING, PROCESSING | COMPLETED, COMPLETED
  | FAILED, FAILED | NEEDS_REVIEW, NEEDS_REVIEW => true
  | _, _ => false
  end.

Inductive ConfidenceLevel : Type :=
| HIGH
| MEDIUM
| LOW.

Record ExtractedField : Type := mkExtractedField {
  value : option string;
  confidence : Q;
  raw_text : option string
}.

(** [ExtractedField()] *)
Definition empty_field : ExtractedField :=
  {| value := None; confidence := 0; raw_text := None |}.

(** [ExtractedField.confidence_level] *)
Definition confidence_level (self : ExtractedField) : ConfidenceLevel :=
  if Qle_bool 0.8 (confidence self) then HIGH
  else if Qle_bool 0.5 (confidence self) then MEDIUM
  else LOW.

(** [ExtractedField.needs_review] *)
Definition needs_review (self : ExtractedField) : bool :=
  QMicromega.Qlt_bool (confidence self) 0.75.

Record PatientData : Type := mkPatientData {
  name : ExtractedField;
  date_of_birth : ExtractedField;
  insurance_id : ExtractedField;
  address : ExtractedField;
  phone : ExtractedField;
  email : ExtractedField
}.

(** [PatientData()] *)
Definition empty_patient_data : PatientData :=
  {| name := empty_field; date_of_birth := empty_field;
     insurance_id := empty_field; address := empty_field;
     phone := empty_field; email := empty_field |}.

(** The dict [fields] of [get_low_confidence_fields], in insertion order. *)
Definition fields (self : PatientData) : list (string * ExtractedField) :=
  [ ("name", name self);
    ("date_of_birth", date_of_birth self);
    ("insurance_id", insurance_id self);
    ("address", address self);
    ("phone", phone self);
    ("email", email self) ].

(** [PatientData.get_low_confidence_fields] *)
Definition get_low_confidence_fields (self : PatientData)
  : list (string * ExtractedField) :=
  filter (fun kv => needs_review (snd kv)) (fields self).

Record Document : Type := mkDocument {
  id : option Z;
  filename : string;
  file_path : string;
  file_size : Z;
  mime_type : string;
  upload_date : Z;
  processing_status : ProcessingStatus;
  extracted_text : string;
  patient_data : PatientData;
  processing_errors : list string;
  metadata : list (string * string)
}.

(** [Document.needs_review] *)
Definition document_needs_review (self : Document) : bool :=
  (status_eqb (processing_status self) NEEDS_REVIEW
   || Py.truthy_list (get_low_confidence_fields (patient_data self)))%bool.

(** [Document.is_processed] *)
Definition is_processed (self : Document) : bool :=
  (status_eqb (processing_status self) COMPLETED
   || status_eqb (processing_status self) NEEDS_REVIEW)%bool.

Record ProcessingResult : Type := mkProcessingResult {
  document_id : option Z;
  success : bool;
  extracted_data : option PatientData;
  errors : list string;
  confidence_score : Q
}.

(** [ProcessingResult.overall_confidence] *)
Definition overall_confidence (self : ProcessingResult) : Q :=
  match extracted_data self with
  | None => 0
  | Some extracted =>
      let fields :=
        [ confidence (name extracted);
          confidence (date_of_birth extracted);
          confidence (insurance_id extracted);
          confidence (address extracted);
          confidence (phone extracted);
          confidence (email extracted) ] in
      let valid_confidences :=
        filter (fun c => QMicromega.Qlt_bool 0 c) fields in
      if Py.truthy_list valid_confidences
      then Py.sum valid_confidences / Py.len valid_confidences
      else 0
  end.

End Models.

(** ** The fragment of [re] the services use

    A backtracking matcher with Python's priorities: [search] takes the
    leftmost starting position, and a greedy repetition gives characters
    back one at a time.  Every repetition of the patterns at hand is over a
    single character class, which is what [Rep] covers. *)

Module Re.

Inductive regex : Type :=
| Class (p : ascii -> bool)
    (** one character of a class, or a literal *)
| Rep (p : ascii -> bool) (lo : nat) (hi : option nat)
    (** [c{lo,hi}], greedy; [hi = None] is unbounded *)
| Cat (r1 r2 : regex)
| Group (i : nat) (r : regex)
    (** capturing group number [i] *)
| WordBoundary.

Declare Scope regex_scope.
Delimit Scope regex_scope with re.
Bind Scope regex_scope with regex.
Infix "@@" := Cat (at level 61, right associativity) : regex_scope.

Definition Opt (p : ascii -> bool) : regex := Rep p 0 (Some 1%nat).
Definition Star (p : ascii -> bool) : regex := Rep p 0 None.
Definition Plus (p : ascii -> bool) : regex := Rep p 1 None.
Definition Exactly (n : nat) (p : ascii -> bool) : regex := Rep p n (Some n).
Definition AtLeast (n : nat) (p : ascii -> bool) : regex := Rep p n None.

(** A literal word; under [re.IGNORECASE] each letter matches both
    cases. *)
Fixpoint literal (ignorecase : bool) (word : string) (next : regex) : regex :=
  match word with
  | EmptyString => next
  | String a w =>
      Cat (Class (fun c =>
                    if ignorecase
                    then Ascii.eqb (Py.lower_char c) (Py.lower_char a)
                    else Ascii.eqb c a))
          (literal ignorecase w next)
  end.

Record mstate : Type := mkState {
  prev : option ascii;          (** the character before the position *)
  rest : string;                (** the text from the position on *)
  pos : nat;                    (** characters consumed since the start *)
  caps : list (nat * (nat * nat))
                                (** the spans of the groups closed so far *)
}.

Definition advance (c : ascii) (s : string) (st : mstate) : mstate :=
  {| prev := Some c; rest := s; pos := S (pos st); caps := caps st |}.

Definition close_group (i from_ : nat) (st : mstate) : mstate :=
  {| prev := prev st; rest := rest st; pos := pos st;
     caps := (i, (from_, pos st)) :: caps st |}.

Definition hi_allows (hi : option nat) : bool :=
  match hi with Some O => false | _ => true end.

Definition hi_pred (hi : option nat) : option nat :=
  match hi with Some n => Some (Nat.pred n) | None => None end.

Fixpoint rep (p : ascii -> bool) (lo : nat) (hi : option nat)
         (s : string) (st : mstate) (k : mstate -> option mstate)
  : option mstate :=
  let stop := if Nat.eqb lo 0 then k st else None in
  if hi_allows hi then
    match s with
    | String c s' =>
        if p c then
          match rep p (Nat.pred lo) (hi_pred hi) s' (advance c s' st) k with
          | Some r => Some r
          | None => stop
          end
        else stop
    | EmptyString => stop
    end
  else stop.

Definition word_before (st : mstate) : bool :=
  match prev st with Some c => Py.isword c | None => false end.

Definition word_after (st : mstate) : bool :=
  match rest st with String c _ => Py.isword c | EmptyString => false end.

Fixpoint run (r : regex) (st : mstate) (k : mstate -> option mstate)
  : option mstate :=
  match r with
  | Class p =>
      match rest st with
      | String c s' => if p c then k (advance c s' st) else None
      | EmptyString => None
      end
  | Rep p lo hi => rep p lo hi (rest st) st k
  | Cat r1 r2 => run r1 st (fun st' => run r2 st' k)
  | Group i r1 => run r1 st (fun st' => k (close_group i (pos st) st'))
  | WordBoundary =>
      if xorb (word_before st) (word_after st) then k st else None
  end.

(** A match object: [group(0)] and the numbered groups. *)
Record match_object : Type := mkMatch {
  group0 : string;
  groups : list (nat * string)
}.

Definition group (m : match_object) (i : nat) : string :=
  match find (fun kv => Nat.eqb (fst kv) i) (groups m) with
  | Some kv => snd kv
  | None => EmptyString
  end.

Definition span_text (s : string) (span : nat * nat) : string :=
  substring (fst span) (snd span - fst span) s.

(** [pattern.match] at one position of the text, [s] being the text from
    that position on. *)
Definition match_at (r : regex) (before : option ascii) (s : string)
  : option match_object :=
  match run r {| prev := before; rest := s; pos := 0; caps := [] |} Some with
  | Some st =>
      Some {| group0 := span_text s (0%nat, pos st);
              groups := map (fun c => (fst c, span_text s (snd c))) (caps st) |}
  | None => None
  end.

Fixpoint search_from (r : regex) (before : option ascii) (s : string)
  : option match_object :=
  match match_at r before s with
  | Some m => Some m
  | None =>
      match s with
      | String c s' => search_from r (Some c) s'
      | EmptyString => None
      end
  end.

(** [re.search(pattern, text)] *)
Definition search (r : regex) (text : string) : option match_object :=
  search_from r None text.

(** Two notions for reasoning about a search: a state seen in a longer
    text, and a pattern none of whose classes accepts a character (and
    which has no word boundary). *)
Definition extend (u : string) (st : mstate) : mstate :=
  {| prev := prev st; rest := rest st ++ u; pos := pos st; caps := caps st |}.

Fixpoint rejects (r : regex) (c : ascii) : bool :=
  match r with
  | Class p => negb (p c)
  | Rep p _ _ => negb (p c)
  | Cat r1 r2 => (rejects r1 c && rejects r2 c)%bool
  | Group _ r1 => rejects r1 c
  | WordBoundary => false
  end.

End Re.

(** ** app/database: the store

    The three tables are lists of rows in insertion order.  Every call of
    [execute_query] or [execute_update] is one transaction: it either
    commits its effect or raises and leaves the tables as they were.

    A call raises for one of two reasons.  The statement itself can be
    refused: by the driver, which cannot adapt a parameter, or by the
    server, which cannot read a value as a [DATE] or finds a foreign key
    broken; these refusals are written out with the statements.  Or the
    call fails for a reason the code does not decide (the connection, a
    value too long for its column): the state carries a schedule
    [db_faults], each call consumes its head, and a [Some msg] there makes
    the call raise.  The texts of the driver's and the server's messages
    are shortened. *)

Module Database.
Import Py Models.

Record DocumentRow : Type := mkDocumentRow {
  d_id : Z;
  d_filename : string;
  d_file_path : string;
  d_file_size : Z;
  d_mime_type : string;
  d_upload_date : Z;
  d_processing_status : string;
  d_extracted_text : option string;
  d_processing_errors : option (list string);
  d_metadata : option (list (string * string))
}.

(** A value of the SQL type [DATE]. *)
Record Date : Type := mkDate {
  date_year : Z;
  date_month : Z;
  date_day : Z
}.

Record PatientRow : Type := mkPatientRow {
  p_id : Z;
  p_document_id : option Z;
  p_name : option string;
  p_name_confidence : option Q;
  p_date_of_birth : option Date;
  p_dob_confidence : option Q;
  p_insurance_id : option string;
  p_insurance_confidence : option Q;
  p_address : option string;
  p_address_confidence : option Q;
  p_phone : option string;
  p_phone_confidence : option Q;
  p_email : option string;
  p_email_confidence : option Q
}.

Record LogRow : Type := mkLogRow {
  l_id : Z;
  l_document_id : option Z;
  l_status : string;
  l_message : option string;
  l_confidence_score : Q
}.

Record World : Type := mkWorld {
  documents : list DocumentRow;
  patients : list PatientRow;
  processing_logs : list LogRow;
  documents_id_seq : positive;   (** next value of the SERIAL columns *)
  patients_id_seq : positive;
  processing_logs_id_seq : positive;
  current_timestamp : Z;
  db_faults : list (option string);
  (** the server's input function of the type [DATE]: the date a text
      denotes under the session's settings, [None] for a text the server
      rejects *)
  date_in : string -> option Date
}.

Definition with_documents (ds : list DocumentRow) (n : positive) (w : World)
  : World :=
  {| documents := ds; patients := patients w;
     processing_logs := processing_logs w;
     documents_id_seq := n; patients_id_seq := patients_id_seq w;
     processing_logs_id_seq := processing_logs_id_seq w;
     current_timestamp := current_timestamp w; db_faults := db_faults w;
     date_in := date_in w |}.

Definition with_patients (ps : list PatientRow) (n : positive) (w : World)
  : World :=
  {| documents := documents w; patients := ps;
     processing_logs := processing_logs w;
     documents_id_seq := documents_id_seq w; patients_id_seq := n;
     processing_logs_id_seq := processing_logs_id_seq w;
     current_timestamp := current_timestamp w; db_faults := db_faults w;
     date_in := date_in w |}.

Definition with_logs (ls : list LogRow) (n : positive) (w : World) : World :=
  {| documents := documents w; patients := patients w;
     processing_logs := ls;
     documents_id_seq := documents_id_seq w;
     patients_id_seq := patients_id_seq w; processing_logs_id_seq := n;
     current_timestamp := current_timestamp w; db_faults := db_faults w;
     date_in := date_in w |}.

Definition with_faults (fs : list (option string)) (w : World) : World :=
  {| documents := documents w; patients := patients w;
     processing_logs := processing_logs w;
     documents_id_seq := documents_id_seq w;
     patients_id_seq := patients_id_seq w;
     processing_logs_id_seq := processing_logs_id_seq w;
     current_timestamp := current_timestamp w; db_faults := fs;
     date_in := date_in w |}.

(** *** Computations over the store *)

Inductive result (A : Type) : Type :=
| Ok (a : A)
| Raise (e : exn).
Arguments Ok {A} a.
Arguments Raise {A} e.

Definition M (A : Type) : Type := World -> World * result A.

Definition ret {A : Type} (a : A) : M A := fun w => (w, Ok a).

Definition raise {A : Type} (e : exn) : M A := fun w => (w, Raise e).

Definition bind {A B : Type} (m : M A) (f : A -> M B) : M B :=
  fun w =>
    match m w with
    | (w', Ok a) => f a w'
    | (w', Raise e) => (w', Raise e)
    end.

(** [try: m  except Exception as e: h e] *)
Definition try_except {A : Type} (m : M A) (h : exn -> M A) : M A :=
  fun w =>
    match m w with
    | (w', Ok a) => (w', Ok a)
    | (w', Raise e) => h e w'
    end.

Declare Scope monad_scope.
Delimit Scope monad_scope with monad.
Notation "x <- m ;; k" := (bind m (fun x => k))
  (at level 90, m at level 80, right associativity) : monad_scope.
Notation "m ;;; k" := (bind m (fun _ => k))
  (at level 90, right associativity) : monad_scope.
Open Scope monad_scope.

(** The schedule after its head has been consumed. *)
Definition pop_fault (w : World) : World := with_faults (tl (db_faults w)) w.

(** [db_manager.execute_query] / [db_manager.execute_update]: run the
    statement [stmt] in a transaction of its own.  An exhausted schedule
    means no fault. *)
Definition execute {A : Type} (stmt : World -> World * A) : M A :=
  fun w =>
    match hd None (db_faults w) with
    | Some msg => (pop_fault w, Raise (DatabaseError msg))
    | None => let (w', a) := stmt (pop_fault w) in (w', Ok a)
    end.

(** The same for a statement that can be refused: [stmt] gives the store
    its transaction leaves behind and either the result or the error. *)
Definition execute_checked {A : Type} (stmt : World -> World * result A)
  : M A :=
  fun w =>
    match hd None (db_faults w) with
    | Some msg => (pop_fault w, Raise (DatabaseError msg))
    | None => stmt (pop_fault w)
    end.

(** The driver's [ProgrammingError] for a parameter that is a [dict]. *)
Definition cannot_adapt_dict : exn :=
  DatabaseError "can't adapt type 'dict'".

(** The server's errors for a text it cannot read as a [DATE] and for a
    broken foreign key. *)
Definition invalid_date : exn :=
  DatabaseError "invalid input syntax for type date".

Definition foreign_key_violation : exn :=
  DatabaseError "violates foreign key constraint".

(** A text given for a [DATE] column, as the server reads it; NULL stays
    NULL, and the outer [None] is the server's refusal. *)
Definition read_date (w : World) (param : option string)
  : option (option Date) :=
  match param with
  | None => Some None
  | Some text =>
      match date_in w text with
      | Some d => Some (Some d)
      | None => None
      end
  end.

(** [document_id INTEGER REFERENCES documents(id)]: NULL, or the id of a
    row of [documents]. *)
Definition references_document (w : World) (document_id : option Z) : bool :=
  match document_id with
  | None => true
  | Some k => existsb (fun d => Z.eqb (d_id d) k) (documents w)
  end.

(** [WHERE column = %s] against a parameter that may be NULL. *)
Definition sql_eq (column : Z) (param : option Z) : bool :=
  match param with Some v => Z.eqb column v | None => false end.

Definition sql_eq_opt (column param : option Z) : bool :=
  match column with Some c => sql_eq c param | None => false end.

(** [column < 0.75] with NULL counting as not true. *)
Definition sql_lt (column : option Q) (bound : Q) : bool :=
  match column with Some c => QMicromega.Qlt_bool c bound | None => false end.

End Database.

(** ** app/database/repositories *)

Module Repositories.
Import Py Models Database.

(** [ORDER BY d.upload_date DESC]: a stable insertion sort of the
    selected rows. *)
Fixpoint insert_desc {A : Type} (key : A -> Z) (x : A) (l : list A) : list A :=
  match l with
  | [] => [x]
  | y :: l' =>
      if Z.ltb (key y) (key x) then x :: l else y :: insert_desc key x l'
  end.

Definition order_by_desc {A : Type} (key : A -> Z) (l : list A) : list A :=
  fold_right (insert_desc key) [] l.

(** [mapM] of a fallible conversion over the fetched rows. *)
Fixpoint convert_rows {A B : Type} (f : A -> result B) (rows : list A)
  : result (list B) :=
  match rows with
  | [] => Ok []
  | r :: rows' =>
      match f r with
      | Raise e => Raise e
      | Ok b =>
          match convert_rows f rows' with
          | Raise e => Raise e
          | Ok bs => Ok (b :: bs)
          end
      end
  end.

Definition lift {A : Type} (r : result A) : M A := fun w => (w, r).

Module DocumentRepository.

(** [create]: the parameters of the INSERT include [document.metadata], a
    [dict], which the driver cannot adapt (no adapter is registered and
    the value is not wrapped in [Json]).  Once the connection is there,
    [cursor.execute] raises before anything is sent: no row is inserted
    and the sequence of [documents.id] does not move. *)
Definition create (document : Document) : M (option Z) :=
  execute_checked (fun w => (w, Raise cannot_adapt_dict)).

Definition _row_to_document (row : DocumentRow) : result Document :=
  match status_of_value (d_processing_status row) with
  | None =>
      Raise (ValueError ("'" ++ d_processing_status row
                         ++ "' is not a valid ProcessingStatus"))
  | Some status =>
      Ok {| id := Some (d_id row);
            filename := d_filename row;
            file_path := d_file_path row;
            file_size := d_file_size row;
            mime_type := d_mime_type row;
            upload_date := d_upload_date row;
            processing_status := status;
            extracted_text :=
              match d_extracted_text row with
              | Some t => if truthy_str t then t else EmptyString
              | None => EmptyString
              end;
            patient_data := empty_patient_data;
            processing_errors :=
              match d_processing_errors row with
              | Some es => es
              | None => []
              end;
            metadata :=
              match d_metadata row with
              | Some md => md
              | None => []
              end |}
  end.

(** [SELECT * FROM documents WHERE id = %s] *)
Definition select_by_id (document_id : option Z) (w : World)
  : World * list DocumentRow :=
  (w, filter (fun d => sql_eq (d_id d) document_id) (documents w)).

Definition get_by_id (document_id : option Z) : M (option Document) :=
  result <- execute (select_by_id document_id) ;;
  match result with
  | [] => ret None
  | row :: _ => doc <- lift (_row_to_document row) ;; ret (Some doc)
  end.

(** [SELECT * FROM documents WHERE processing_status = %s
     ORDER BY upload_date DESC] *)
Definition select_by_status (status : ProcessingStatus) (w : World)
  : World * list DocumentRow :=
  (w, order_by_desc d_upload_date
        (filter (fun d => String.eqb (d_processing_status d)
                                     (status_value status))
                (documents w))).

Definition get_by_status (status : ProcessingStatus) : M (list Document) :=
  results <- execute (select_by_status status) ;;
  lift (convert_rows _row_to_document results).

(** [documents d LEFT JOIN patients p ON d.id = p.document_id]: each
    document with each of its patient rows, or once with NULLs. *)
Definition left_join (w : World) : list (DocumentRow * option PatientRow) :=
  flat_map
    (fun d =>
       match filter (fun p => sql_eq_opt (p_document_id p) (Some (d_id d)))
                    (patients w) with
       | [] => [(d, None)]
       | ps => map (fun p => (d, Some p)) ps
       end)
    (documents w).

(** The [WHERE] clause of [get_needing_review]. *)
Definition needing_review_where (dp : DocumentRow * option PatientRow)
  : bool :=
  (String.eqb (d_processing_status (fst dp)) "needs_review"
   || match snd dp with
      | None => false
      | Some p =>
          sql_lt (p_name_confidence p) 0.75
          || sql_lt (p_dob_confidence p) 0.75
          || sql_lt (p_insurance_confidence p) 0.75
      end)%bool.

Definition select_needing_review (w : World) : World * list DocumentRow :=
  (w, map fst
        (order_by_desc (fun dp => d_upload_date (fst dp))
                       (filter needing_review_where (left_join w)))).

Definition get_needing_review : M (list Document) :=
  results <- execute select_needing_review ;;
  lift (convert_rows _row_to_document results).

(** [UPDATE documents SET processing_status = %s, extracted_text = %s,
     processing_errors = %s WHERE id = %s] *)
Definition updated_row (document_id : option Z) (status : ProcessingStatus)
           (extracted_text : option string) (errors : option (list string))
           (d : DocumentRow) : DocumentRow :=
  if sql_eq (d_id d) document_id then
    {| d_id := d_id d; d_filename := d_filename d;
       d_file_path := d_file_path d; d_file_size := d_file_size d;
       d_mime_type := d_mime_type d; d_upload_date := d_upload_date d;
       d_processing_status := status_value status;
       d_extracted_text := extracted_text;
       d_processing_errors := errors;
       d_metadata := d_metadata d |}
  else d.

Definition update_document (document_id : option Z)
           (status : ProcessingStatus) (extracted_text : option string)
           (errors : option (list string)) (w : World) : World * Z :=
  (with_documents
     (map (updated_row document_id status extracted_text errors)
          (documents w))
     (documents_id_seq w) w,
   Z.of_nat (List.length
               (filter (fun d => sql_eq (d_id d) document_id) (documents w)))).

Definition update_status (document_id : option Z)
           (status : ProcessingStatus) (extracted_text : option string)
           (errors : option (list string)) : M bool :=
  affected_rows <-
    execute (update_document document_id status extracted_text errors) ;;
  ret (Z.ltb 0 affected_rows).

End DocumentRepository.

Module PatientRepository.

(** The row the server stores for the parameters of [create] and
    [update]; [dob] is the date it read from the text given for
    [date_of_birth]. *)
Definition row_of (row_id : Z) (document_id : option Z)
           (patient_data : PatientData) (dob : option Date) : PatientRow :=
  {| p_id := row_id;
     p_document_id := document_id;
     p_name := value (name patient_data);
     p_name_confidence := Some (confidence (name patient_data));
     p_date_of_birth := dob;
     p_dob_confidence := Some (confidence (date_of_birth patient_data));
     p_insurance_id := value (insurance_id patient_data);
     p_insurance_confidence :=
       Some (confidence (insurance_id patient_data));
     p_address := value (address patient_data);
     p_address_confidence := Some (confidence (address patient_data));
     p_phone := value (phone patient_data);
     p_phone_confidence := Some (confidence (phone patient_data));
     p_email := value (email patient_data);
     p_email_confidence := Some (confidence (email patient_data)) |}.

(** [INSERT INTO patients ... RETURNING id].  A text that is no date is
    refused when the statement is read; a [document_id] that names no
    document is refused when the row is checked, after the sequence of
    [patients.id] has moved. *)
Definition insert_patient (document_id : option Z)
           (patient_data : PatientData) (w : World)
  : World * result (list Z) :=
  match read_date w (value (date_of_birth patient_data)) with
  | None => (w, Raise invalid_date)
  | Some dob =>
      let new_id := Zpos (patients_id_seq w) in
      if references_document w document_id
      then
        (with_patients
           (patients w ++ [row_of new_id document_id patient_data dob])%list
           (Pos.succ (patients_id_seq w)) w,
         Ok [new_id])
      else
        (with_patients (patients w) (Pos.succ (patients_id_seq w)) w,
         Raise foreign_key_violation)
  end.

Definition create (document_id : option Z) (patient_data : PatientData)
  : M (option Z) :=
  result <- execute_checked (insert_patient document_id patient_data) ;;
  ret (match result with row :: _ => Some row | [] => None end).

(** [UPDATE patients SET ... WHERE document_id = %s] *)
Definition updated_patient (document_id : option Z)
           (patient_data : PatientData) (dob : option Date) (p : PatientRow)
  : PatientRow :=
  if sql_eq_opt (p_document_id p) document_id
  then row_of (p_id p) (p_document_id p) patient_data dob
  else p.

Definition update_patient (document_id : option Z)
           (patient_data : PatientData) (w : World) : World * result Z :=
  match read_date w (value (date_of_birth patient_data)) with
  | None => (w, Raise invalid_date)
  | Some dob =>
      (with_patients
         (map (updated_patient document_id patient_data dob) (patients w))
         (patients_id_seq w) w,
       Ok (Z.of_nat
             (List.length
                (filter (fun p => sql_eq_opt (p_document_id p) document_id)
                        (patients w)))))
  end.

Definition update (document_id : option Z) (patient_data : PatientData)
  : M bool :=
  affected_rows <-
    execute_checked (update_patient document_id patient_data) ;;
  ret (Z.ltb 0 affected_rows).

End PatientRepository.

Module ProcessingLogRepository.

(** [INSERT INTO processing_logs ... RETURNING id]; a [document_id] that
    names no document is refused after the sequence of
    [processing_logs.id] has moved. *)
Definition insert_log (document_id : option Z) (status : string)
           (message : option string) (confidence_score : Q) (w : World)
  : World * result (list Z) :=
  let new_id := Zpos (processing_logs_id_seq w) in
  if references_document w document_id
  then
    (with_logs
       (processing_logs w
        ++ [ {| l_id := new_id; l_document_id := document_id;
                l_status := status; l_message := message;
                l_confidence_score := confidence_score |} ])%list
       (Pos.succ (processing_logs_id_seq w)) w,
     Ok [new_id])
  else
    (with_logs (processing_logs w) (Pos.succ (processing_logs_id_seq w)) w,
     Raise foreign_key_violation).

Definition create_log (document_id : option Z) (status : string)
           (message : option string) (confidence_score : Q)
  : M (option Z) :=
  result <-
    execute_checked
      (insert_log document_id status message confidence_score) ;;
  ret (match result with row :: _ => Some row | [] => None end).

End ProcessingLogRepository.

End Repositories.

(** ** app/config and pathlib *)

Module Config.

(** [config.supported_formats] *)
Definition supported_formats : list string :=
  [".jpg"; ".jpeg"; ".png"; ".tiff"; ".pdf"].

End Config.

Module Path.

Fixpoint has_char (a : ascii) (s : string) : bool :=
  match s with
  | EmptyString => false
  | String c s' => (Ascii.eqb c a || has_char a s')%bool
  end.

(** [Path(p).name] of a POSIX path in normal form: the text after the
    last slash. *)
Fixpoint name (p : string) : string :=
  match p with
  | EmptyString => EmptyString
  | String c p' =>
      if has_char "/" p' then name p'
      else if Ascii.eqb c "/" then p' else p
  end.

(** [s[s.rfind("."):]], when there is a dot. *)
Fixpoint from_last_dot (s : string) : option string :=
  match s with
  | EmptyString => None
  | String c s' =>
      match from_last_dot s' with
      | Some t => Some t
      | None => if Ascii.eqb c "." then Some s else None
      end
  end.

(** [Path(p).suffix]: the last dot and what follows, unless that dot
    starts or ends the name. *)
Definition suffix (p : string) : string :=
  match name p with
  | EmptyString => EmptyString
  | String _ tail =>
      match from_last_dot tail with
      | Some t => if Nat.ltb 1 (String.length t) then t else EmptyString
      | None => EmptyString
      end
  end.

(** [str(folder / entry)] *)
Definition joinpath (folder entry : string) : string :=
  folder ++ "/" ++ entry.

(** [folder.glob(pattern)] for a pattern [*tail] without further
    wildcards, on a case-sensitive flavour: the entries, in directory
    order, whose name ends with [tail]. *)
Definition glob (entries : list string) (folder pattern : string)
  : list string :=
  match pattern with
  | String "*" tail =>
      map (joinpath folder) (filter (fun n => Py.endswith n tail) entries)
  | _ => []
  end.

End Path.

(** ** app/services *)

Module Services.
Import Py Models Database Repositories Re.

(** What the services obtain from outside the repository. *)
Record Collaborators : Type := mkCollaborators {
  (** [(ent.label_, ent.text)] for the entities of [nlp(text).ents], in
      order; [None] when the spaCy pipeline raises. *)
  spacy_ents : string -> option (list (string * string));
  (** [line.content] of every line of every page of the Form Recognizer
      result for the file at a path; [None] when opening the file or the
      analysis raises. *)
  analyze_document : string -> option (list (list string));
  (** [Path(p).stat().st_size]; [None] when [stat] raises [OSError]. *)
  stat_size : string -> option Z;
  (** the working directory [Path.absolute] resolves against *)
  cwd : string;
  (** the entry names of a folder in directory order; [None] when the
      path does not exist *)
  scandir : string -> option (list string)
}.

Section WithCollaborators.

Variable env : Collaborators.

(** *** AzureFormRecognizerService *)

Definition extract_text_from_document (file_path : string)
  : option string :=
  match analyze_document env file_path with
  | Some pages => Some (join " " (List.concat pages))
  | None => None
  end.

(** *** NLPService *)

(** [re.sub] deleting every character outside [0-9\-/] *)
Definition _clean_date (date_text : string) : string :=
  filter_str (fun c => (between 48 57 c || is_char "-" c || is_char "/" c)%bool)
             date_text.

(** [\s*[#:]?\s*([A-Z0-9\-]+)] under [re.IGNORECASE].  Among the code
    points below 256 the class of the group is the ASCII letters, the
    digits [0-9] and the hyphen.  Python lets it match four more
    characters, U+0130, U+0131, U+017F and U+212A, whose case folding is
    an ASCII letter; they lie outside the texts of the model, and what is
    proved of the group is proved for texts below code point 256 only. *)
Definition insurance_tail : Re.regex :=
  (Re.Star isspace
   @@ Re.Opt (fun c => (is_char "#" c || is_char ":" c)%bool)
   @@ Re.Star isspace
   @@ Re.Group 1
        (Re.Plus (fun c => (isupper_ascii c || islower_ascii c
                            || between 48 57 c || is_char "-" c)%bool)))%re.

Definition insurance_patterns : list Re.regex :=
  [ Re.literal true "insurance" insurance_tail;
    Re.literal true "policy" insurance_tail;
    Re.literal true "member"
      (Re.Star isspace @@ Re.literal true "id" insurance_tail)%re ].

Fixpoint first_group1 (patterns : list Re.regex) (text : string)
  : option string :=
  match patterns with
  | [] => None
  | pattern :: later =>
      match Re.search pattern text with
      | Some m => Some (Re.group m 1)
      | None => first_group1 later text
      end
  end.

Definition _extract_insurance_info (text : string) : option string :=
  first_group1 insurance_patterns text.

(** [\(?(\d{3})\)?[-.\s]?(\d{3})[-.\s]?(\d{4})] *)
Definition phone_separator (c : ascii) : bool :=
  (is_char "-" c || is_char "." c || isspace c)%bool.

Definition phone_pattern : Re.regex :=
  (Re.Opt (is_char "(")
   @@ Re.Group 1 (Re.Exactly 3 isdecimal)
   @@ Re.Opt (is_char ")")
   @@ Re.Opt phone_separator
   @@ Re.Group 2 (Re.Exactly 3 isdecimal)
   @@ Re.Opt phone_separator
   @@ Re.Group 3 (Re.Exactly 4 isdecimal))%re.

Definition _extract_phone (text : string) : option string :=
  match Re.search phone_pattern text with
  | Some m =>
      Some ("(" ++ Re.group m 1 ++ ") " ++ Re.group m 2 ++ "-"
            ++ Re.group m 3)
  | None => None
  end.

(** [\b[A-Za-z0-9._%+-]+@[A-Za-z0-9.-]+\.[A-Z|a-z]{2,}\b] *)
Definition alnum_ascii (c : ascii) : bool :=
  (isupper_ascii c || islower_ascii c || between 48 57 c)%bool.

Definition email_pattern : Re.regex :=
  (Re.WordBoundary
   @@ Re.Plus (fun c => (alnum_ascii c || is_char "." c || is_char "_" c
                         || is_char "%" c || is_char "+" c
                         || is_char "-" c)%bool)
   @@ Re.Class (is_char "@")
   @@ Re.Plus (fun c => (alnum_ascii c || is_char "." c
                         || is_char "-" c)%bool)
   @@ Re.Class (is_char ".")
   @@ Re.AtLeast 2 (fun c => (isupper_ascii c || is_char "|" c
                              || islower_ascii c)%bool)
   @@ Re.WordBoundary)%re.

Definition _extract_email (text : string) : option string :=
  match Re.search email_pattern text with
  | Some m => Some (Re.group0 m)
  | None => None
  end.

Definition set_name (f : ExtractedField) (pd : PatientData) : PatientData :=
  {| name := f; date_of_birth := date_of_birth pd;
     insurance_id := insurance_id pd; address := address pd;
     phone := phone pd; email := email pd |}.

Definition set_date_of_birth (f : ExtractedField) (pd : PatientData)
  : PatientData :=
  {| name := name pd; date_of_birth := f;
     insurance_id := insurance_id pd; address := address pd;
     phone := phone pd; email := email pd |}.

Definition set_insurance_id (f : ExtractedField) (pd : PatientData)
  : PatientData :=
  {| name := name pd; date_of_birth := date_of_birth pd;
     insurance_id := f; address := address pd;
     phone := phone pd; email := email pd |}.

Definition set_phone (f : ExtractedField) (pd : PatientData) : PatientData :=
  {| name := name pd; date_of_birth := date_of_birth pd;
     insurance_id := insurance_id pd; address := address pd;
     phone := f; email := email pd |}.

Definition set_email (f : ExtractedField) (pd : PatientData) : PatientData :=
  {| name := name pd; date_of_birth := date_of_birth pd;
     insurance_id := insurance_id pd; address := address pd;
     phone := phone pd; email := f |}.

(** The body of [for ent in doc.ents]. *)
Definition visit_entity (patient_data : PatientData)
           (ent : string * string) : PatientData :=
  let (label_, text) := ent in
  if String.eqb label_ "PERSON" then
    set_name {| value := Some (strip text); confidence := 0.8;
                raw_text := Some text |} patient_data
  else if String.eqb label_ "DATE" then
    set_date_of_birth {| value := Some (_clean_date text);
                         confidence := 0.7;
                         raw_text := Some text |} patient_data
  else patient_data.

Definition extract_patient_data (text : string) : PatientData :=
  match spacy_ents env text with
  | None => empty_patient_data
  | Some ents =>
      let patient_data := fold_left visit_entity ents empty_patient_data in
      let insurance_info := _extract_insurance_info text in
      let patient_data :=
        match insurance_info with
        | Some i =>
            if truthy_str i
            then set_insurance_id {| value := Some i; confidence := 0.6;
                                     raw_text := Some i |} patient_data
            else patient_data
        | None => patient_data
        end in
      let phone := _extract_phone text in
      let patient_data :=
        match phone with
        | Some p =>
            if truthy_str p
            then set_phone {| value := Some p; confidence := 0.7;
                              raw_text := Some p |} patient_data
            else patient_data
        | None => patient_data
        end in
      let email := _extract_email text in
      match email with
      | Some e =>
          if truthy_str e
          then set_email {| value := Some e; confidence := 0.9;
                            raw_text := Some e |} patient_data
          else patient_data
      | None => patient_data
      end
  end.

(** *** DocumentProcessingService *)

(** [_get_mime_type] *)
Definition mime_types : list (string * string) :=
  [ (".pdf", "application/pdf");
    (".jpg", "image/jpeg");
    (".jpeg", "image/jpeg");
    (".png", "image/png");
    (".tiff", "image/tiff") ].

Definition _get_mime_type (extension : string) : string :=
  match find (fun kv => String.eqb (fst kv) (lower extension)) mime_types with
  | Some kv => snd kv
  | None => "application/octet-stream"
  end.

(** [Path(p).absolute()] of a path in normal form. *)
Definition absolute (p : string) : string :=
  match p with
  | String "/" _ => p
  | _ => Path.joinpath (cwd env) p
  end.

Definition _create_document_from_file (file_path : string) : M Document :=
  fun w =>
    match stat_size env file_path with
    | None =>
        (w, Raise (OSError ("[Errno 2] No such file or directory: '"
                            ++ file_path ++ "'")))
    | Some st_size =>
        (w, Ok {| id := None;
                  filename := Path.name file_path;
                  file_path := absolute file_path;
                  file_size := st_size;
                  mime_type := _get_mime_type (Path.suffix file_path);
                  upload_date := current_timestamp w;
                  processing_status := PENDING;
                  extracted_text := EmptyString;
                  patient_data := empty_patient_data;
                  processing_errors := [];
                  metadata := [] |})
    end.

(** [_calculate_overall_confidence].  The code adds and divides floats,
    which rounds; here the sum and the quotient are exact, and nothing
    that depends on the rounding is stated of the score. *)
Definition _calculate_overall_confidence (patient_data : PatientData) : Q :=
  let fields :=
    [ confidence (name patient_data);
      confidence (date_of_birth patient_data);
      confidence (insurance_id patient_data);
      confidence (address patient_data);
      confidence (phone patient_data);
      confidence (email patient_data) ] in
  let valid_confidences := filter (fun c => QMicromega.Qlt_bool 0 c) fields in
  if truthy_list valid_confidences
  then Py.sum valid_confidences / len valid_confidences
  else 0.

(** The final status chosen at the end of the [try] block. *)
Definition final_status_of (patient_data : PatientData) : ProcessingStatus :=
  if truthy_list (get_low_confidence_fields patient_data)
  then NEEDS_REVIEW
  else COMPLETED.

Definition final_message_of (patient_data : PatientData) : string :=
  if truthy_list (get_low_confidence_fields patient_data)
  then "Document processed but needs human review for low-confidence fields"
  else "Document processed successfully".

(** The first two statements of the [try] block of [process_document]:
    they end by binding the local [document_id]. *)
Definition create_document_record (file_path : string) : M (option Z) :=
  document <- _create_document_from_file file_path ;;
  DocumentRepository.create document.

(** The rest of the [try] block, with [document_id] bound. *)
Definition process_created (file_path : string) (document_id : option Z)
  : M ProcessingResult :=
  DocumentRepository.update_status document_id PROCESSING None None ;;;
  ProcessingLogRepository.create_log
    document_id "processing" (Some "Started document processing") 0 ;;;
  let extracted_text := extract_text_from_document file_path in
  match extracted_text with
  | None => raise (Exception "No text extracted from document")
  | Some text =>
      if (negb (truthy_str text) || String.eqb (strip text) EmptyString)%bool
      then raise (Exception "No text extracted from document")
      else
        DocumentRepository.update_status
          document_id PROCESSING (Some text) None ;;;
        let patient_data := extract_patient_data text in
        PatientRepository.create document_id patient_data ;;;
        let confidence_score := _calculate_overall_confidence patient_data in
        let final_status := final_status_of patient_data in
        let message := final_message_of patient_data in
        DocumentRepository.update_status
          document_id final_status (Some text) None ;;;
        ProcessingLogRepository.create_log
          document_id (status_value final_status) (Some message)
          confidence_score ;;;
        ret {| document_id := document_id;
               success := true;
               extracted_data := Some patient_data;
               errors := [];
               confidence_score := confidence_score |}
  end.

(** The [except Exception as e] clause; it reads the local [document_id],
    which is unbound when the exception left one of the first two
    statements. *)
Definition process_except (document_id : local (option Z)) (e : exn)
  : M ProcessingResult :=
  let error_message := "Error processing document: " ++ str_exn e in
  match document_id with
  | Unbound => raise (UnboundLocalError "document_id")
  | Bound document_id =>
      (if truthy_int document_id
       then
         DocumentRepository.update_status
           document_id FAILED None (Some [error_message]) ;;;
         ProcessingLogRepository.create_log
           document_id "failed" (Some error_message) 0 ;;;
         ret tt
       else ret tt) ;;;
      ret {| document_id :=
               if truthy_int document_id then document_id else Some 0%Z;
             success := false;
             extracted_data := None;
             errors := [error_message];
             confidence_score := 0 |}
  end.

Definition process_document (file_path : string) : M ProcessingResult :=
  fun w =>
    match create_document_record file_path w with
    | (w1, Raise e) => process_except Unbound e w1
    | (w1, Ok document_id) =>
        match process_created file_path document_id w1 with
        | (w2, Ok r) => (w2, Ok r)
        | (w2, Raise e) => process_except (Bound document_id) e w2
        end
    end.

(** The files [process_batch] collects, in the order it visits them. *)
Definition supported_files (folder_path : string) (entries : list string)
  : list string :=
  flat_map
    (fun ext =>
       (Path.glob entries folder_path ("*" ++ ext)
        ++ Path.glob entries folder_path ("*" ++ upper ext))%list)
    Config.supported_formats.

(** The [for file_path in supported_files] loop. *)
Fixpoint process_files (files : list string) (results : list ProcessingResult)
  : M (list ProcessingResult) :=
  match files with
  | [] => ret results
  | file_path :: later =>
      r <- try_except
             (process_document file_path)
             (fun e => ret {| document_id := Some 0%Z;
                              success := false;
                              extracted_data := None;
                              errors := [str_exn e];
                              confidence_score := 0 |}) ;;
      process_files later (results ++ [r])%list
  end.

Definition process_batch (folder_path : string) : M (list ProcessingResult) :=
  match scandir env folder_path with
  | None =>
      raise (ValueError ("Folder path does not exist: " ++ folder_path))
  | Some entries => process_files (supported_files folder_path entries) []
  end.

Definition get_documents_needing_review : M (list Document) :=
  DocumentRepository.get_needing_review.

Definition update_patient_data (document_id : option Z)
           (patient_data : PatientData) : M bool :=
  try_except
    (success <- PatientRepository.update document_id patient_data ;;
     if (success : bool)
     then
       DocumentRepository.update_status document_id COMPLETED None None ;;;
       ProcessingLogRepository.create_log
         document_id "completed"
         (Some "Patient data updated after human review") 0 ;;;
       ret success
     else ret success)
    (fun _ => ret false).

End WithCollaborators.

End Services.

(** ** Reading the store, and the spec's own wording of two quantities *)

Module Observe.
Import Py Models Database Repositories.

(** The row [get_by_id] would convert: the first one with that id. *)
Definition find_document (w : World) (document_id : Z) : option DocumentRow :=
  find (fun d => Z.eqb (d_id d) document_id) (documents w).

Definition doc_status (w : World) (document_id : Z) : option string :=
  option_map d_processing_status (find_document w document_id).

(** Text extraction gave nothing usable: it failed, or the text is empty or
    white space only. *)
Definition no_usable_text (extracted_text : option string) : bool :=
  match extracted_text with
  | None => true
  | Some text => forall_str isspace text
  end.

(** The patient rows linked to a document. *)
Definition linked_patients (w : World) (d : DocumentRow) : list PatientRow :=
  filter (fun p => sql_eq_opt (p_document_id p) (Some (d_id d))) (patients w).

End Observe.

Module Spec.
Import Py Models Database Repositories Observe.

(** Following the spec: a field counts in the average when its confidence
    is strictly positive, and then contributes its confidence. *)
Definition counts (c : Q) : Z := if QMicromega.Qlt_bool 0 c then 1 else 0.

Definition contribution (c : Q) : Q := if QMicromega.Qlt_bool 0 c then c else 0.

Definition positive_count (pd : PatientData) : Z :=
  counts (confidence (name pd)) + counts (confidence (date_of_birth pd))
  + counts (confidence (insurance_id pd)) + counts (confidence (address pd))
  + counts (confidence (phone pd)) + counts (confidence (email pd)).

Definition positive_total (pd : PatientData) : Q :=
  contribution (confidence (name pd))
  + contribution (confidence (date_of_birth pd))
  + contribution (confidence (insurance_id pd))
  + contribution (confidence (address pd))
  + contribution (confidence (phone pd))
  + contribution (confidence (email pd)).

(** Following the spec: the mean of the positive confidences, and 0.0 when
    there is none. *)
Definition mean_of_positive (pd : PatientData) : Q :=
  if Z.eqb (positive_count pd) 0 then 0
  else positive_total pd / inject_Z (positive_count pd).

(** Following the spec: a stored confidence is below the threshold when
    it is less than 0.75; a NULL reads as 0.0. *)
Definition below_threshold (column : option Q) : bool :=
  match column with
  | Some c => QMicromega.Qlt_bool c 0.75
  | None => true
  end.

(** Following the spec: a document is eligible for review when its status
    is [needs_review] or its linked field set has one of the six fields
    below the 0.75 threshold. *)
Definition review_eligible (w : World) (d : DocumentRow) : bool :=
  (String.eqb (d_processing_status d) "needs_review"
   || existsb
        (fun p =>
           below_threshold (p_name_confidence p)
           || below_threshold (p_dob_confidence p)
           || below_threshold (p_insurance_confidence p)
           || below_threshold (p_address_confidence p)
           || below_threshold (p_phone_confidence p)
           || below_threshold (p_email_confidence p))
        (linked_patients w d))%bool.

End Spec.

(** ** Concrete collaborators and stores for the examples *)

Module Examples.
Import Py Models Database Repositories Services.

(** A server that reads the dates written [YYYY-MM-DD]. *)
Definition digit (c : ascii) : option Z :=
  if isdecimal c then Some (Z.of_N (code c) - 48)%Z else None.

Definition number (cs : list ascii) : option Z :=
  fold_left
    (fun acc c =>
       match acc, digit c with
       | Some n, Some d => Some (10 * n + d)%Z
       | _, _ => None
       end)
    cs (Some 0%Z).

Definition days_in_month (y m : Z) : Z :=
  if Z.eqb m 2
  then if ((Z.eqb (y mod 4) 0 && negb (Z.eqb (y mod 100) 0))
           || Z.eqb (y mod 400) 0)%bool
       then 29 else 28
  else if (Z.eqb m 4 || Z.eqb m 6 || Z.eqb m 9 || Z.eqb m 11)%bool
       then 30 else 31.

Definition iso_date_in (text : string) : option Date :=
  match list_ascii_of_string text with
  | [y1; y2; y3; y4; sep1; m1; m2; sep2; d1; d2] =>
      match number [y1; y2; y3; y4], number [m1; m2], number [d1; d2] with
      | Some y, Some m, Some d =>
          if (is_char "-" sep1 && is_char "-" sep2 && Z.leb 1 y
              && Z.leb 1 m && Z.leb m 12
              && Z.leb 1 d && Z.leb d (days_in_month y m))%bool
          then Some {| date_year := y; date_month := m; date_day := d |}
          else None
      | _, _, _ => None
      end
  | _ => None
  end.

Definition empty_world : World :=
  {| documents := []; patients := []; processing_logs := [];
     documents_id_seq := 1; patients_id_seq := 1;
     processing_logs_id_seq := 1; current_timestamp := 0;
     db_faults := []; date_in := iso_date_in |}.

(** A folder [in] with three scans; [blank.pdf] yields only white space and
    [missing.pdf] is not on disk. *)
Definition env : Collaborators :=
  {| spacy_ents := fun _ => Some [("PERSON", "Ann Lee ")];
     analyze_document :=
       fun p =>
         if String.eqb p "in/blank.pdf" then Some [["  "; " "]]
         else if String.eqb p "in/missing.pdf" then None
         else Some [["Patient Ann Lee"; "Call 555-123-4567"];
                    ["ann@example.org"]];
     stat_size :=
       fun p => if String.eqb p "in/missing.pdf" then None else Some 2048%Z;
     cwd := "/srv/med";
     scandir :=
       fun f =>
         if String.eqb f "in"
         then Some ["a.pdf"; "scan.Pdf"; "c.PNG"]
         else None |}.

(** The same collaborators with a spaCy pipeline that raises. *)
Definition env_nlp_down : Collaborators :=
  {| spacy_ents := fun _ => None;
     analyze_document := analyze_document env;
     stat_size := stat_size env;
     cwd := cwd env;
     scandir := scandir env |}.


(** The run of [blank.pdf], whose text is white space only. *)
Definition blank_run : World * result ProcessingResult :=
  process_document env "in/blank.pdf" empty_world.

(** A reviewed document whose phone number was entered with confidence
    0.5, as [update_patient_data] leaves it. *)
Definition reviewed_field (v : string) (c : Q) : ExtractedField :=
  {| value := Some v; confidence := c; raw_text := None |}.

Definition reviewed_data : PatientData :=
  {| name := reviewed_field "Ann Lee" 1;
     date_of_birth := reviewed_field "1990-01-02" 1;
     insurance_id := reviewed_field "AB-123" 1;
     address := reviewed_field "1 Main St" 1;
     phone := reviewed_field "(555) 123-4567" 0.5;
     email := reviewed_field "ann@example.org" 1 |}.

(** A store that holds one document awaiting review, the fields read
    from it and the two log entries of its processing. *)
Definition stored_world : World :=
  {| documents :=
       [ {| d_id := 1; d_filename := "a.pdf";
            d_file_path := "/srv/med/in/a.pdf"; d_file_size := 2048;
            d_mime_type := "application/pdf"; d_upload_date := 0;
            d_processing_status := "needs_review";
            d_extracted_text :=
              Some "Patient Ann Lee Call 555-123-4567 ann@example.org";
            d_processing_errors := None;
            d_metadata := Some [] |} ];
     patients :=
       [ {| p_id := 1; p_document_id := Some 1%Z;
            p_name := Some "Ann Lee"; p_name_confidence := Some 0.8;
            p_date_of_birth := None; p_dob_confidence := Some 0;
            p_insurance_id := None; p_insurance_confidence := Some 0;
            p_address := None; p_address_confidence := Some 0;
            p_phone := Some "555-123-4567"; p_phone_confidence := Some 0.8;
            p_email := Some "ann@example.org";
            p_email_confidence := Some 0.9 |} ];
     processing_logs :=
       [ {| l_id := 1; l_document_id := Some 1%Z; l_status := "processing";
            l_message := Some "Started document processing";
            l_confidence_score := 0 |};
         {| l_id := 2; l_document_id := Some 1%Z;
            l_status := "needs_review";
            l_message :=
              Some "Document processed but needs human review for low-confidence fields";
            l_confidence_score := 0.8 |} ];
     documents_id_seq := 2; patients_id_seq := 2;
     processing_logs_id_seq := 3; current_timestamp := 0;
     db_faults := []; date_in := iso_date_in |}.

(** The same store without the log entries. *)
Definition unlogged_world : World :=
  with_logs [] (processing_logs_id_seq stored_world) stored_world.

(** The store after the document has been reviewed with
    [reviewed_data]. *)
Definition reviewed_world : World :=
  fst (update_patient_data (Some 1%Z) reviewed_data stored_world).

End Examples.

(** ** The rest of app/database/repositories: deletion *)

Module Deletion.
Import Py Models Database Repositories.

(** [DELETE FROM patients WHERE document_id = %s] *)
Definition delete_patients (document_id : option Z) (w : World) : World * Z :=
  (with_patients
     (filter (fun p => negb (sql_eq_opt (p_document_id p) document_id))
             (patients w))
     (patients_id_seq w) w,
   Z.of_nat (List.length
               (filter (fun p => sql_eq_opt (p_document_id p) document_id)
                       (patients w)))).

(** [PatientRepository.delete_by_document_id] *)
Definition delete_by_document_id (document_id : option Z) : M bool :=
  affected_rows <- execute (delete_patients document_id) ;;
  ret (Z.ltb 0 affected_rows).

(** A row of [patients] or of [processing_logs] names the document. *)
Definition referenced (w : World) (d : DocumentRow) : bool :=
  (existsb (fun p => sql_eq_opt (p_document_id p) (Some (d_id d)))
           (patients w)
   || existsb (fun l => sql_eq_opt (l_document_id l) (Some (d_id d)))
              (processing_logs w))%bool.

(** [DELETE FROM documents WHERE id = %s]: the foreign keys have no
    [ON DELETE] action, so the server refuses to delete a document that a
    row of [patients] or of [processing_logs] still names. *)
Definition delete_document (document_id : option Z) (w : World)
  : World * result Z :=
  if existsb (referenced w)
             (filter (fun d => sql_eq (d_id d) document_id) (documents w))
  then (w, Raise foreign_key_violation)
  else
    (with_documents
       (filter (fun d => negb (sql_eq (d_id d) document_id)) (documents w))
       (documents_id_seq w) w,
     Ok (Z.of_nat
           (List.length
              (filter (fun d => sql_eq (d_id d) document_id)
                      (documents w))))).

(** [DocumentRepository.delete]: two statements, each in a transaction of
    its own. *)
Definition delete (document_id : option Z) : M bool :=
  delete_by_document_id document_id ;;;
  affected_rows <- execute_checked (delete_document document_id) ;;
  ret (Z.ltb 0 affected_rows).

End Deletion.

(** ** app/utils *)

Module Utils.
Import Py Re.

(** [re.sub(r'C+', repl, s)] for a character class [C]: every maximal run
    of characters of the class becomes one [repl].  [in_run] tells that the
    character before was of the class. *)
Fixpoint sub_runs (p : ascii -> bool) (repl : ascii) (in_run : bool)
         (s : string) : string :=
  match s with
  | EmptyString => EmptyString
  | String c s' =>
      if p c
      then if in_run then sub_runs p repl true s'
           else String repl (sub_runs p repl true s')
      else String c (sub_runs p repl false s')
  end.

(** [s.lstrip(chars)] and [s.rstrip(chars)] for a set of characters given
    as a class, and [s.strip(a)] for one character. *)
Fixpoint lstrip_by (p : ascii -> bool) (s : string) : string :=
  match s with
  | EmptyString => EmptyString
  | String c s' => if p c then lstrip_by p s' else s
  end.

Fixpoint rstrip_by (p : ascii -> bool) (s : string) : string :=
  match s with
  | EmptyString => EmptyString
  | String c s' =>
      match rstrip_by p s' with
      | EmptyString => if p c then EmptyString else String c EmptyString
      | t => String c t
      end
  end.

Definition strip_char (a : ascii) (s : string) : string :=
  rstrip_by (is_char a) (lstrip_by (is_char a) s).

(** No two neighbouring characters of a class; with [after_one] set, no
    character of the class at the start either. *)
Fixpoint no_run (p : ascii -> bool) (after_one : bool) (s : string) : bool :=
  match s with
  | EmptyString => true
  | String c s' =>
      if p c then (negb after_one && no_run p true s')%bool
      else no_run p false s'
  end.

(** [$] without [re.MULTILINE]: the end of the text, or the place before a
    line feed that ends the text. *)
Definition at_end (st : mstate) : option mstate :=
  match rest st with
  | EmptyString => Some st
  | String c EmptyString => if N.eqb (code c) 10 then Some st else None
  | _ => None
  end.

(** [bool(re.match(r, s))] for a pattern that ends with [$]. *)
Definition match_to_end (r : regex) (s : string) : bool :=
  match run r {| prev := None; rest := s; pos := 0%nat; caps := [] |} at_end with
  | Some _ => true
  | None => false
  end.

Module FileUtils.

Definition is_supported_format (file_path : string)
           (supported_formats : list string) : bool :=
  let extension := lower (Path.suffix file_path) in
  existsb (fun f => String.eqb f extension) supported_formats.

(** The class of [<], [>], [:], the double quote, [/], the backslash,
    [|], [?] and the star; the double quote and the backslash by their
    code points. *)
Definition invalid_char (c : ascii) : bool :=
  (is_char "<" c || is_char ">" c || is_char ":" c || N.eqb (code c) 34
   || is_char "/" c || N.eqb (code c) 92 || is_char "|" c || is_char "?" c
   || is_char "*" c)%bool.

Definition get_safe_filename (filename : string) : string :=
  let safe_name :=
    map_str (fun c => if invalid_char c then "_"%char else c) filename in
  let safe_name := sub_runs (is_char "_") "_" false safe_name in
  strip_char "_" safe_name.

End FileUtils.

Module TextUtils.

Definition clean_text (text : string) : string :=
  if truthy_str text
  then strip (sub_runs isspace " " false text)
  else EmptyString.

End TextUtils.

Module ValidationUtils.

(** [^[A-Za-z0-9._%+-]+@[A-Za-z0-9.-]+\.[A-Z|a-z]{2,}$] *)
Definition email_format : regex :=
  (Plus (fun c => (Services.alnum_ascii c || is_char "." c || is_char "_" c
                   || is_char "%" c || is_char "+" c
                   || is_char "-" c)%bool)
   @@ Class (is_char "@")
   @@ Plus (fun c => (Services.alnum_ascii c || is_char "." c
                      || is_char "-" c)%bool)
   @@ Class (is_char ".")
   @@ AtLeast 2%nat (fun c => (isupper_ascii c || is_char "|" c
                           || islower_ascii c)%bool))%re.

Definition is_valid_email (email : string) : bool :=
  if truthy_str email then match_to_end email_format email else false.

(** [re.sub(r'\D', '', phone)] keeps the decimal digits. *)
Definition is_valid_phone (phone : string) : bool :=
  if truthy_str phone
  then
    let digits := filter_str isdecimal phone in
    (Nat.eqb (String.length digits) 10%nat
     || Nat.eqb (String.length digits) 11%nat)%bool
  else false.

(** [^\d{1,2}/\d{1,2}/\d{2,4}$], [^\d{4}-\d{1,2}-\d{1,2}$] and
    [^\d{1,2}-\d{1,2}-\d{2,4}$].  [\d] is the class of the decimal
    digits: below code point 256 these are [0-9]; the decimal digits of
    other scripts, which Python's [\d] matches as well, lie outside the
    texts of the model. *)
Definition date_formats : list regex :=
  [ (Rep isdecimal 1%nat (Some 2%nat) @@ Class (is_char "/")
     @@ Rep isdecimal 1%nat (Some 2%nat) @@ Class (is_char "/")
     @@ Rep isdecimal 2%nat (Some 4%nat))%re;
    (Exactly 4%nat isdecimal @@ Class (is_char "-")
     @@ Rep isdecimal 1%nat (Some 2%nat) @@ Class (is_char "-")
     @@ Rep isdecimal 1%nat (Some 2%nat))%re;
    (Rep isdecimal 1%nat (Some 2%nat) @@ Class (is_char "-")
     @@ Rep isdecimal 1%nat (Some 2%nat) @@ Class (is_char "-")
     @@ Rep isdecimal 2%nat (Some 4%nat))%re ].

Definition is_valid_date (date_str : string) : bool :=
  if truthy_str date_str
  then existsb (fun pattern => match_to_end pattern date_str) date_formats
  else false.

(** [^[A-Za-z0-9\-]+$], without [re.IGNORECASE] *)
Definition insurance_id_format : regex :=
  Plus (fun c => (isupper_ascii c || islower_ascii c || between 48 57 c
                  || is_char "-" c)%bool).

Definition is_valid_insurance_id (insurance_id : string) : bool :=
  if truthy_str insurance_id
  then (match_to_end insurance_id_format insurance_id
        && Nat.leb 3%nat (String.length insurance_id))%bool
  else false.

End ValidationUtils.

Module ResponseUtils.

Record Pagination : Type := mkPagination {
  page : Z;
  per_page : Z;
  total : Z;
  pages : Z
}.

(** The [pagination] entry of [paginated_response]; [None] stands for the
    [ZeroDivisionError] of [// per_page]. *)
Definition paginated_response (page per_page total : Z) : option Pagination :=
  if Z.eqb per_page 0 then None
  else Some {| page := page; per_page := per_page; total := total;
               pages := ((total + per_page - 1) / per_page)%Z |}.

End ResponseUtils.

End Utils.

(** ** app/web/routes *)

Module Routes.
Import Py Models Database Repositories Services.

(** What a route answers: a redirect, an [HTTPException] turned into an
    error response, or the JSON body of the batch endpoint. *)
Inductive response : Type :=
| RedirectResponse (url : string) (status_code : Z)
| HTTPException (status_code : Z) (detail : string)
| BatchJson (ok : bool) (processed_count : Z) (successful_count : Z)
            (results : list (bool * list string)).

Section WithCollaborators.

Variable env : Collaborators.



(** [POST /api/process-batch] *)
Definition api_process_batch (folder_path : string)
  : World -> World * response :=
  fun w =>
    match process_batch env folder_path w with
    | (w', Ok results) =>
        (w',
         BatchJson
           true
           (Z.of_nat (List.length results))
           (Z.of_nat (List.length (filter success results)))
           (map (fun r => (success r, errors r)) results))
    | (w', Raise _) => (w', HTTPException 500 "Internal server error")
    end.

End WithCollaborators.

End Routes.

(** ** Further collaborators for the examples *)

Module MoreExamples.
Import Py Models Database Repositories Services.

(** A pipeline that finds two people and two dates in every text. *)
Definition env_two_people : Collaborators :=
  {| spacy_ents :=
       fun _ => Some [("PERSON", "Dr. Sam Hill"); ("DATE", "born 1980-01-02");
                      ("ORG", "Mercy Clinic"); ("PERSON", " Ann Lee ");
                      ("DATE", "May 3rd, 2024")];
     analyze_document := analyze_document Examples.env;
     stat_size := stat_size Examples.env;
     cwd := cwd Examples.env;
     scandir := scandir Examples.env |}.

End MoreExamples.

(** * Properties *)

Import Py Models Database Repositories Services Observe.

(** ** Confidence thresholds *)

Section Thresholds.

Open Scope Q_scope.

Lemma Qle_bool_false (a b : Q) : Qle_bool a b = false <-> b < a.
Proof.
  split; intro H.
  - apply Qnot_le_lt. intro L. apply Qle_bool_iff in L. congruence.
  - destruct (Qle_bool a b) eqn:E; [ | reflexivity ].
    apply Qle_bool_iff in E. lra.
Qed.

Lemma needs_review_iff (f : ExtractedField) :
  needs_review f = true <-> confidence f < 0.75.
Proof. unfold needs_review. apply QMicromega.Qlt_bool_iff. Qed.

(** C4. The three confidence levels partition the confidences at 0.8 and
    0.5: a field is high exactly from 0.8 up, medium exactly in [0.5, 0.8)
    and low exactly below 0.5, so that every confidence has one level and
    only one.  [needs_review] holds exactly below 0.75, a cutoff of its own:
    inside the medium band it separates fields that need review from
    fields that do not. *)
Theorem confidence_level_partition (f : ExtractedField) :
  (confidence_level f = HIGH <-> 0.8 <= confidence f)
  /\ (confidence_level f = MEDIUM <-> 0.5 <= confidence f /\ confidence f < 0.8)
  /\ (confidence_level f = LOW <-> confidence f < 0.5)
  /\ (needs_review f = true <-> confidence f < 0.75)
  /\ (exists g h : ExtractedField,
         confidence_level g = MEDIUM /\ confidence_level h = MEDIUM
         /\ needs_review g = true /\ needs_review h = false).
Proof.
  unfold confidence_level.
  destruct (Qle_bool 0.8 (confidence f)) eqn:E8;
    destruct (Qle_bool 0.5 (confidence f)) eqn:E5;
    try apply Qle_bool_iff in E8; try apply Qle_bool_iff in E5;
    try apply Qle_bool_false in E8; try apply Qle_bool_false in E5;
    (repeat split; try discriminate; try lra; try tauto;
     try apply needs_review_iff; try (apply needs_review_iff; assumption)).
  all: try (intros; exfalso; lra).
  all: try (exists {| value := None; confidence := 0.6; raw_text := None |},
              {| value := None; confidence := 0.77; raw_text := None |};
            repeat split; reflexivity).
Qed.

End Thresholds.

(** ** Overall confidence *)

Section OverallConfidence.

Open Scope Q_scope.

Lemma fold_left_Qplus_acc (l : list Q) (a : Q) :
  fold_left Qplus l a == a + fold_left Qplus l 0.
Proof.
  revert a. induction l as [ | x l IH ]; intro a; simpl.
  - ring.
  - rewrite (IH (a + x)), (IH (0 + x)). ring.
Qed.

Lemma sum_cons (x : Q) (l : list Q) : Py.sum (x :: l) == x + Py.sum l.
Proof.
  unfold Py.sum. simpl. rewrite fold_left_Qplus_acc. ring.
Qed.

Lemma sum_of_positive (cs : list Q) :
  Py.sum (filter (fun c => QMicromega.Qlt_bool 0 c) cs)
  == fold_right Qplus 0 (map Spec.contribution cs).
Proof.
  induction cs as [ | c cs IH ]; simpl.
  - reflexivity.
  - unfold Spec.contribution at 1.
    destruct (QMicromega.Qlt_bool 0 c).
    + rewrite sum_cons, IH. reflexivity.
    + rewrite IH. ring.
Qed.

Lemma count_of_positive (cs : list Q) :
  Z.of_nat (List.length (filter (fun c => QMicromega.Qlt_bool 0 c) cs))
  = fold_right Z.add 0%Z (map Spec.counts cs).
Proof.
  induction cs as [ | c cs IH ]; simpl.
  - reflexivity.
  - unfold Spec.counts at 1.
    destruct (QMicromega.Qlt_bool 0 c); simpl List.length; lia.
Qed.

Lemma six_confidences_total (pd : PatientData) :
  fold_right Qplus 0
    (map Spec.contribution
         [ confidence (name pd); confidence (date_of_birth pd);
           confidence (insurance_id pd); confidence (address pd);
           confidence (phone pd); confidence (email pd) ])
  == Spec.positive_total pd.
Proof. unfold Spec.positive_total. simpl. ring. Qed.

Lemma six_confidences_count (pd : PatientData) :
  fold_right Z.add 0%Z
    (map Spec.counts
         [ confidence (name pd); confidence (date_of_birth pd);
           confidence (insurance_id pd); confidence (address pd);
           confidence (phone pd); confidence (email pd) ])
  = Spec.positive_count pd.
Proof. unfold Spec.positive_count. simpl. lia. Qed.

(** C6. The overall confidence of a field set is the mean of those of its
    six confidences that are strictly positive: the sum of the positive
    ones divided by their number, the others entering neither; it is 0.0
    when no confidence is positive. *)
Theorem overall_confidence_is_mean_of_positive (pd : PatientData) :
  _calculate_overall_confidence pd == Spec.mean_of_positive pd
  /\ (Spec.positive_count pd = 0%Z -> _calculate_overall_confidence pd = 0).
Proof.
  unfold _calculate_overall_confidence, Spec.mean_of_positive.
  set (cs := [ confidence (name pd); confidence (date_of_birth pd);
               confidence (insurance_id pd); confidence (address pd);
               confidence (phone pd); confidence (email pd) ]).
  pose proof (count_of_positive cs) as Hn.
  pose proof (sum_of_positive cs) as Hs.
  unfold cs in Hn at 2. unfold cs in Hs at 2.
  rewrite six_confidences_count in Hn. rewrite six_confidences_total in Hs.
  unfold Py.len. rewrite Hn.
  destruct (filter (fun c => QMicromega.Qlt_bool 0 c) cs) as [ | c l ] eqn:F.
  - simpl in Hn. rewrite <- Hn. simpl. split; reflexivity.
  - simpl truthy_list. cbv iota.
    assert (Spec.positive_count pd <> 0%Z) as Hpos
        by (rewrite <- Hn; simpl List.length; lia).
    split.
    + apply Z.eqb_neq in Hpos. rewrite Hpos. rewrite Hs. reflexivity.
    + intro H0. contradiction.
Qed.

Lemma overall_confidence_examples :
  (_calculate_overall_confidence Examples.reviewed_data
   == Spec.mean_of_positive Examples.reviewed_data)
  /\ Spec.positive_count empty_patient_data = 0%Z
  /\ _calculate_overall_confidence empty_patient_data = 0.
Proof.
  split.
  - apply (proj1 (overall_confidence_is_mean_of_positive
                    Examples.reviewed_data)).
  - split; [ reflexivity | ].
    apply (proj2 (overall_confidence_is_mean_of_positive empty_patient_data)).
    reflexivity.
Defined.

End OverallConfidence.

(** ** Searching a text that continues *)

Section RegexSearch.

Import Re.

Lemma rep_ext (p : ascii -> bool) (k1 k2 : mstate -> option mstate) :
  (forall x, k1 x = k2 x) ->
  forall s lo hi st, rep p lo hi s st k1 = rep p lo hi s st k2.
Proof.
  intros E. induction s as [ | c s IH ]; intros lo hi st; simpl.
  - rewrite E. reflexivity.
  - rewrite IH, E. reflexivity.
Qed.

Lemma run_ext (r : regex) :
  forall st k1 k2, (forall x, k1 x = k2 x) -> run r st k1 = run r st k2.
Proof.
  induction r as [ p | p lo hi | r1 IH1 r2 IH2 | i r1 IH1 | ];
    intros st k1 k2 E; simpl.
  - destruct (rest st); [ reflexivity | ]. rewrite E. reflexivity.
  - apply rep_ext. exact E.
  - apply IH1. intro x. apply IH2. exact E.
  - apply IH1. intro x. apply E.
  - rewrite E. reflexivity.
Qed.

Lemma rep_none_mono (p : ascii -> bool) (k1 k2 : mstate -> option mstate) :
  (forall x, k1 x = None -> k2 x = None) ->
  forall s lo hi st,
    rep p lo hi s st k1 = None -> rep p lo hi s st k2 = None.
Proof.
  intros E. induction s as [ | c s IH ]; intros lo hi st; simpl.
  - destruct (hi_allows hi), (Nat.eqb lo 0); auto.
  - destruct (hi_allows hi); [ | destruct (Nat.eqb lo 0); auto ].
    destruct (p c).
    + destruct (rep p (Nat.pred lo) (hi_pred hi) s (advance c s st) k1)
        eqn:R1; [ discriminate | ].
      rewrite (IH _ _ _ R1). destruct (Nat.eqb lo 0); auto.
    + destruct (Nat.eqb lo 0); auto.
Qed.

Lemma run_none_mono (r : regex) :
  forall st k1 k2,
    (forall x, k1 x = None -> k2 x = None) ->
    run r st k1 = None -> run r st k2 = None.
Proof.
  induction r as [ p | p lo hi | r1 IH1 r2 IH2 | i r1 IH1 | ];
    intros st k1 k2 E; simpl.
  - destruct (rest st) as [ | c s ]; [ reflexivity | ].
    destruct (p c); auto.
  - apply rep_none_mono. exact E.
  - apply IH1. intros x. apply IH2. exact E.
  - apply IH1. intros x. apply E.
  - destruct (xorb (word_before st) (word_after st)); auto.
Qed.

Lemma rep_extend (p : ascii -> bool) (c : ascii) (u : string)
      (k : mstate -> option mstate) :
  p c = false ->
  forall s lo hi st,
    rep p lo hi (s ++ String c u) (extend (String c u) st) k
    = rep p lo hi s st (fun st' => k (extend (String c u) st')).
Proof.
  intros Hc. induction s as [ | x s IH ]; intros lo hi st; simpl.
  - rewrite Hc. destruct (hi_allows hi); reflexivity.
  - destruct (hi_allows hi); [ | reflexivity ].
    destruct (p x); [ | reflexivity ].
    change (advance x (s ++ String c u) (extend (String c u) st))
      with (extend (String c u) (advance x s st)).
    rewrite IH. reflexivity.
Qed.

Lemma run_extend (r : regex) (c : ascii) (u : string) :
  rejects r c = true ->
  forall st k,
    run r (extend (String c u) st) k
    = run r st (fun st' => k (extend (String c u) st')).
Proof.
  induction r as [ p | p lo hi | r1 IH1 r2 IH2 | i r1 IH1 | ];
    simpl; intros Hr st k.
  - apply negb_true_iff in Hr.
    destruct (rest st) as [ | x s ]; simpl.
    + rewrite Hr. reflexivity.
    + reflexivity.
  - apply negb_true_iff in Hr. apply rep_extend. exact Hr.
  - apply andb_true_iff in Hr. destruct Hr as [H1 H2].
    rewrite (IH1 H1). apply run_ext. intro x. apply (IH2 H2).
  - rewrite (IH1 Hr). reflexivity.
  - discriminate.
Qed.

Lemma match_at_none (r : regex) (b : option ascii) (s : string) :
  match_at r b s = None
  <-> run r {| prev := b; rest := s; pos := 0; caps := [] |} Some = None.
Proof.
  unfold match_at.
  destruct (run r {| prev := b; rest := s; pos := 0; caps := [] |} Some);
    split; intro H; try discriminate; reflexivity.
Qed.

Lemma match_at_extend_none (r : regex) (c : ascii) (u : string) :
  rejects r c = true ->
  forall b s,
    match_at r b s = None -> match_at r b (s ++ String c u) = None.
Proof.
  intros Hr b s H. apply match_at_none in H. apply match_at_none.
  change {| prev := b; rest := s ++ String c u; pos := 0; caps := [] |}
    with (extend (String c u) {| prev := b; rest := s; pos := 0; caps := [] |}).
  rewrite (run_extend r c u Hr).
  apply (run_none_mono r _ Some); [ intros x Hx; discriminate | exact H ].
Qed.

Lemma search_from_skip (r : regex) (c : ascii) (u : string) :
  rejects r c = true ->
  forall s b,
    search_from r b s = None ->
    exists b', search_from r b (s ++ String c u) = search_from r b' (String c u).
Proof.
  intros Hr. induction s as [ | x s IH ]; intros b H.
  - exists b. reflexivity.
  - simpl in H. destruct (match_at r b (String x s)) eqn:M; [ discriminate | ].
    destruct (IH (Some x) H) as [b' Hb'].
    exists b'. simpl.
    change (String x (s ++ String c u)) with (String x s ++ String c u).
    rewrite (match_at_extend_none r c u Hr b (String x s) M).
    exact Hb'.
Qed.

End RegexSearch.

(** ** Phone extraction *)

Section PhoneExtraction.

Import Re.

Lemma phone_pattern_rejects_C : rejects phone_pattern "C" = true.
Proof. reflexivity. Qed.

Lemma search_phone_at_call (b : option ascii) (after : string) :
  search_from phone_pattern b ("Call 555-123-4567" ++ after)
  = Some {| group0 := "555-123-4567";
            groups := [(3%nat, "4567"); (2%nat, "123"); (1%nat, "555")] |}.
Proof. destruct after as [ | c after ]; reflexivity. Qed.

Lemma extract_phone_none (text : string) :
  _extract_phone text = None -> search phone_pattern text = None.
Proof.
  unfold _extract_phone. destruct (search phone_pattern text);
    [ discriminate | reflexivity ].
Qed.

Lemma extract_phone_first_match (before after : string) :
  _extract_phone before = None ->
  _extract_phone (before ++ "Call 555-123-4567" ++ after)
  = Some "(555) 123-4567".
Proof.
  intro H. apply extract_phone_none in H. unfold search in H.
  destruct (search_from_skip phone_pattern "C" ("all 555-123-4567" ++ after)
              phone_pattern_rejects_C before None H) as [b' Hb'].
  unfold _extract_phone, search.
  change ("Call 555-123-4567" ++ after)
    with (String "C" ("all 555-123-4567" ++ after)).
  rewrite Hb'.
  change (String "C" ("all 555-123-4567" ++ after))
    with ("Call 555-123-4567" ++ after).
  rewrite search_phone_at_call. reflexivity.
Qed.

Lemma visit_entities_keep_others (ents : list (string * string)) :
  forall pd,
    let pd' := fold_left visit_entity ents pd in
    insurance_id pd' = insurance_id pd /\ address pd' = address pd
    /\ phone pd' = phone pd /\ email pd' = email pd.
Proof.
  induction ents as [ | [label text] ents IH ]; intro pd; simpl.
  - repeat split.
  - specialize (IH (visit_entity pd (label, text))). simpl in IH.
    destruct IH as (I & A & P & E). rewrite I, A, P, E.
    unfold visit_entity.
    destruct (String.eqb label "PERSON"); [ repeat split | ].
    destruct (String.eqb label "DATE"); repeat split.
Qed.

Lemma phone_of_extracted (e : Collaborators) (text : string)
      (ents : list (string * string)) :
  spacy_ents e text = Some ents ->
  phone (extract_patient_data e text)
  = match _extract_phone text with
    | Some p =>
        if truthy_str p
        then {| value := Some p; confidence := 0.7; raw_text := Some p |}
        else empty_field
    | None => empty_field
    end.
Proof.
  intro H. unfold extract_patient_data. rewrite H.
  destruct (visit_entities_keep_others ents empty_patient_data)
    as (_ & _ & P & _).
  set (pd0 := fold_left visit_entity ents empty_patient_data) in *.
  assert (phone pd0 = empty_field) as P0 by exact P.
  destruct (_extract_insurance_info text) as [i | ];
    [ destruct (truthy_str i) | ];
    (destruct (_extract_phone text) as [p | ];
     [ destruct (truthy_str p) | ]);
    (destruct (_extract_email text) as [m | ];
     [ destruct (truthy_str m) | ]);
    simpl; try reflexivity; exact P0.
Qed.

(** C8, as amended.  When a text contains [Call 555-123-4567] and no
    phone-shaped match occurs in the text before it, phone extraction
    yields exactly [(555) 123-4567]; and when moreover the spaCy pass does
    not raise, the phone field of the extracted data carries that value
    with confidence 0.7. *)
Theorem phone_extraction_first_match
        (e : Collaborators) (before after : string) :
  _extract_phone before = None ->
  _extract_phone (before ++ "Call 555-123-4567" ++ after)
  = Some "(555) 123-4567"
  /\ (spacy_ents e (before ++ "Call 555-123-4567" ++ after) <> None ->
      phone (extract_patient_data e (before ++ "Call 555-123-4567" ++ after))
      = {| value := Some "(555) 123-4567"; confidence := 0.7;
           raw_text := Some "(555) 123-4567" |}).
Proof.
  intro H. pose proof (extract_phone_first_match before after H) as P.
  split; [ exact P | ].
  intro N.
  destruct (spacy_ents e (before ++ "Call 555-123-4567" ++ after))
    as [ents | ] eqn:S; [ | contradiction ].
  rewrite (phone_of_extracted e _ ents S), P. reflexivity.
Qed.

Lemma phone_extraction_first_match_example :
  _extract_phone "Please " = None
  /\ spacy_ents Examples.env ("Please " ++ "Call 555-123-4567" ++ " today")
     <> None
  /\ _extract_phone ("Please " ++ "Call 555-123-4567" ++ " today")
     = Some "(555) 123-4567"
  /\ phone (extract_patient_data Examples.env
              ("Please " ++ "Call 555-123-4567" ++ " today"))
     = {| value := Some "(555) 123-4567"; confidence := 0.7;
          raw_text := Some "(555) 123-4567" |}.
Proof.
  assert (_extract_phone "Please " = None) as H by reflexivity.
  assert (spacy_ents Examples.env
            ("Please " ++ "Call 555-123-4567" ++ " today") <> None) as N
      by discriminate.
  split; [ exact H | ]. split; [ exact N | ].
  split.
  - exact (proj1 (phone_extraction_first_match
                    Examples.env "Please " " today" H)).
  - exact (proj2 (phone_extraction_first_match
                    Examples.env "Please " " today" H) N).
Defined.

(** C8, as stated, fails: a text that contains [Call 555-123-4567] after
    another number yields the other number, and any text yields an empty
    phone field when the spaCy pass raises. *)
Lemma phone_extraction_not_first_match :
  contains "Fax 800-555-0000. Call 555-123-4567" "Call 555-123-4567" = true
  /\ _extract_phone "Fax 800-555-0000. Call 555-123-4567"
     = Some "(800) 555-0000"
  /\ value (phone (extract_patient_data
                     Examples.env "Fax 800-555-0000. Call 555-123-4567"))
     = Some "(800) 555-0000"
  /\ phone (extract_patient_data Examples.env_nlp_down "Call 555-123-4567")
     = empty_field.
Proof. repeat split. Qed.

End PhoneExtraction.

(** ** The store: what each repository call does *)

Section Store.

Import DocumentRepository.

Lemma update_status_run (document_id : option Z) (status : ProcessingStatus)
      (text : option string) (errs : option (list string)) (w : World) :
  update_status document_id status text errs w
  = match hd None (db_faults w) with
    | Some msg => (pop_fault w, Raise (DatabaseError msg))
    | None =>
        (with_documents
           (map (updated_row document_id status text errs) (documents w))
           (documents_id_seq w) (pop_fault w),
         Ok (Z.ltb 0 (Z.of_nat
                        (List.length
                           (filter (fun d => sql_eq (d_id d) document_id)
                                   (documents w))))))
    end.
Proof.
  unfold update_status, bind, execute.
  destruct (hd None (db_faults w)); reflexivity.
Qed.

Lemma create_log_run (document_id : option Z) (status : string)
      (message : option string) (score : Q) (w : World) :
  ProcessingLogRepository.create_log document_id status message score w
  = match hd None (db_faults w) with
    | Some msg => (pop_fault w, Raise (DatabaseError msg))
    | None =>
        if references_document w document_id
        then
          (with_logs
             (processing_logs w
              ++ [ {| l_id := Zpos (processing_logs_id_seq w);
                      l_document_id := document_id; l_status := status;
                      l_message := message; l_confidence_score := score |} ])
             (Pos.succ (processing_logs_id_seq w)) (pop_fault w),
           Ok (Some (Zpos (processing_logs_id_seq w))))
        else
          (with_logs (processing_logs w)
                     (Pos.succ (processing_logs_id_seq w)) (pop_fault w),
           Raise foreign_key_violation)
    end.
Proof.
  unfold ProcessingLogRepository.create_log, bind, execute_checked,
    ProcessingLogRepository.insert_log.
  destruct (hd None (db_faults w)); [ reflexivity | ].
  change (references_document (pop_fault w) document_id)
    with (references_document w document_id).
  destruct (references_document w document_id); reflexivity.
Qed.

Lemma patient_create_run (document_id : option Z) (pd : PatientData)
      (w : World) :
  PatientRepository.create document_id pd w
  = match hd None (db_faults w) with
    | Some msg => (pop_fault w, Raise (DatabaseError msg))
    | None =>
        match read_date w (value (date_of_birth pd)) with
        | None => (pop_fault w, Raise invalid_date)
        | Some dob =>
            if references_document w document_id
            then
              (with_patients
                 (patients w
                  ++ [PatientRepository.row_of (Zpos (patients_id_seq w))
                                               document_id pd dob])
                 (Pos.succ (patients_id_seq w)) (pop_fault w),
               Ok (Some (Zpos (patients_id_seq w))))
            else
              (with_patients (patients w) (Pos.succ (patients_id_seq w))
                             (pop_fault w),
               Raise foreign_key_violation)
        end
    end.
Proof.
  unfold PatientRepository.create, bind, execute_checked,
    PatientRepository.insert_patient.
  destruct (hd None (db_faults w)); [ reflexivity | ].
  change (read_date (pop_fault w) (value (date_of_birth pd)))
    with (read_date w (value (date_of_birth pd))).
  destruct (read_date w (value (date_of_birth pd))); [ | reflexivity ].
  change (references_document (pop_fault w) document_id)
    with (references_document w document_id).
  destruct (references_document w document_id); reflexivity.
Qed.

Lemma patient_update_run (document_id : option Z) (pd : PatientData)
      (w : World) :
  PatientRepository.update document_id pd w
  = match hd None (db_faults w) with
    | Some msg => (pop_fault w, Raise (DatabaseError msg))
    | None =>
        match read_date w (value (date_of_birth pd)) with
        | None => (pop_fault w, Raise invalid_date)
        | Some dob =>
            (with_patients
               (map (PatientRepository.updated_patient document_id pd dob)
                    (patients w))
               (patients_id_seq w) (pop_fault w),
             Ok (Z.ltb 0 (Z.of_nat
                            (List.length
                               (filter
                                  (fun p => sql_eq_opt (p_document_id p)
                                                       document_id)
                                  (patients w))))))
        end
    end.
Proof.
  unfold PatientRepository.update, bind, execute_checked,
    PatientRepository.update_patient.
  destruct (hd None (db_faults w)); [ reflexivity | ].
  change (read_date (pop_fault w) (value (date_of_birth pd)))
    with (read_date w (value (date_of_birth pd))).
  destruct (read_date w (value (date_of_birth pd))); reflexivity.
Qed.

(** [create] raises on every document: the error of the connection when
    there is one, the driver's refusal of the [dict] otherwise. *)
Lemma document_create_run (document : Document) (w : World) :
  create document w
  = (pop_fault w,
     Raise match hd None (db_faults w) with
           | Some msg => DatabaseError msg
           | None => cannot_adapt_dict
           end).
Proof.
  unfold create, execute_checked.
  destruct (hd None (db_faults w)); reflexivity.
Qed.

(** Updating a status keeps the identities of the rows. *)
Lemma updated_row_id (document_id : option Z) (status : ProcessingStatus)
      (text : option string) (errs : option (list string)) (d : DocumentRow) :
  d_id (updated_row document_id status text errs d) = d_id d.
Proof. unfold updated_row. destruct (sql_eq (d_id d) document_id); reflexivity. Qed.

Lemma find_updated_row (document_id : option Z) (status : ProcessingStatus)
      (text : option string) (errs : option (list string))
      (ds : list DocumentRow) (k : Z) :
  find (fun d => Z.eqb (d_id d) k)
       (map (updated_row document_id status text errs) ds)
  = option_map (updated_row document_id status text errs)
               (find (fun d => Z.eqb (d_id d) k) ds).
Proof.
  induction ds as [ | d ds IH ]; simpl; [ reflexivity | ].
  rewrite updated_row_id. destruct (Z.eqb (d_id d) k); [ reflexivity | exact IH ].
Qed.

End Store.

(** ** The review update *)

Section ReviewSteps.

Import DocumentRepository.



End ReviewSteps.

(** ** The processing pipeline *)

Section Pipeline.

Import DocumentRepository.

Variable e : Collaborators.






(** The first two statements of the [try] block never bind
    [document_id]: either the file cannot be read, or [create] raises. *)
Lemma create_document_record_run (path : string) (w : World) :
  exists ex,
    create_document_record e path w
    = (match stat_size e path with
       | None => w
       | Some _ => pop_fault w
       end,
       Raise ex).
Proof.
  unfold create_document_record, bind, _create_document_from_file.
  destruct (stat_size e path) as [ size | ].
  - rewrite document_create_run. eexists. reflexivity.
  - eexists. reflexivity.
Qed.

Lemma process_except_unbound (ex : exn) (w : World) :
  process_except Unbound ex w = (w, Raise (UnboundLocalError "document_id")).
Proof. reflexivity. Qed.

(** Hence the [except] clause always finds [document_id] unbound. *)
Lemma process_document_run (path : string) (w : World) :
  process_document e path w
  = (match stat_size e path with
     | None => w
     | Some _ => pop_fault w
     end,
     Raise (UnboundLocalError "document_id")).
Proof.
  unfold process_document.
  destruct (create_document_record_run path w) as (ex & C). rewrite C.
  apply process_except_unbound.
Qed.

(** C1, on the code.  Every call of [process_document] ends in the
    [except] clause before the local [document_id] is bound, and the
    clause reads it: the [UnboundLocalError] reaches the caller, whatever
    the file and the store, and the three tables are as before, so no
    document is set to failed and no message is recorded. *)
Theorem process_document_always_raises (path : string) (w : World) :
  exists w',
    process_document e path w = (w', Raise (UnboundLocalError "document_id"))
    /\ documents w' = documents w
    /\ patients w' = patients w
    /\ processing_logs w' = processing_logs w.
Proof.
  rewrite process_document_run. eexists. split; [ reflexivity | ].
  destruct (stat_size e path); repeat split.
Qed.


End Pipeline.

(** ** The pipeline on concrete runs *)



(** C5, on the code.  The text of [blank.pdf] is white space only; its run
    does not return a failed result with the message of the missing text,
    it raises [UnboundLocalError], and the store holds neither a failed
    document nor a log entry afterwards. *)
Theorem blank_document_is_not_reported :
  extract_text_from_document Examples.env "in/blank.pdf" = Some "    "
  /\ no_usable_text (extract_text_from_document Examples.env "in/blank.pdf")
     = true
  /\ snd Examples.blank_run = Raise (UnboundLocalError "document_id")
  /\ documents (fst Examples.blank_run) = []
  /\ processing_logs (fst Examples.blank_run) = [].
Proof. vm_compute. repeat split. Qed.

(** ** Review update *)

Section ReviewUpdate.

Import DocumentRepository.

Ltac next_store_call :=
  match goal with
  | |- context [hd None (db_faults ?w)] =>
      let F := fresh "F" in destruct (hd None (db_faults w)) eqn:F
  end.

(** C10. [update_patient_data] always returns a boolean, never an
    exception.  When the write of the patient fields raises or changes no
    row, it returns [False] and the documents table is as before; a
    document is set to completed only after that write has succeeded. *)
Theorem update_patient_data_is_guarded
        (id : option Z) (pd : PatientData) (w : World) :
  exists w' b,
    update_patient_data id pd w = (w', Ok b)
    /\ match snd (PatientRepository.update id pd w) with
       | Ok true =>
           documents w' = map (updated_row id COMPLETED None None)
                              (documents w)
           \/ (b = false /\ documents w' = documents w)
       | Ok false | Raise _ => b = false /\ documents w' = documents w
       end.
Proof.
  unfold update_patient_data, try_except, bind.
  rewrite patient_update_run. next_store_call.
  { eexists. eexists. split; [ reflexivity | ]. split; reflexivity. }
  destruct (read_date w (value (date_of_birth pd))) as [ dob | ].
  2:{ eexists. eexists. split; [ reflexivity | ]. split; reflexivity. }
  cbn [snd].
  destruct (Z.ltb 0 (Z.of_nat
                       (List.length
                          (filter (fun p => sql_eq_opt (p_document_id p) id)
                                  (patients w))))).
  2:{ eexists. eexists. split; [ reflexivity | ]. split; reflexivity. }
  rewrite update_status_run. next_store_call.
  { eexists. eexists. split; [ reflexivity | ]. right. split; reflexivity. }
  rewrite create_log_run. next_store_call.
  { eexists. eexists. split; [ reflexivity | ]. left. reflexivity. }
  match goal with
  | |- context [references_document ?x ?i] =>
      destruct (references_document x i)
  end; eexists; eexists; (split; [ reflexivity | ]); left; reflexivity.
Qed.

Lemma update_patient_data_examples :
  snd (update_patient_data (Some 1%Z) Examples.reviewed_data
                           Examples.stored_world) = Ok true
  /\ snd (update_patient_data (Some 7%Z) Examples.reviewed_data
                              Examples.stored_world) = Ok false
  /\ snd (update_patient_data
            (Some 1%Z) Examples.reviewed_data
            (with_faults [Some "connection lost"] Examples.stored_world))
     = Ok false
  /\ doc_status
       (fst (update_patient_data
               (Some 1%Z) Examples.reviewed_data
               (with_faults [Some "connection lost"]
                            Examples.stored_world))) 1
     = Some "needs_review".
Proof. vm_compute. repeat split. Qed.

End ReviewUpdate.

(** ** The review queue *)

(** C3, on the code.  After a review that stored the phone number with
    confidence 0.5, the document is completed and its linked field set has
    a field below 0.75, so it is eligible for review in the spec's sense;
    [get_needing_review], whose query reads only the name, date-of-birth
    and insurance confidences, does not return it. *)
Theorem needing_review_misses_other_fields :
  doc_status Examples.reviewed_world 1 = Some "completed"
  /\ map (fun p => (p_document_id p,
                    [p_name_confidence p; p_dob_confidence p;
                     p_insurance_confidence p; p_address_confidence p;
                     p_phone_confidence p; p_email_confidence p]))
         (patients Examples.reviewed_world)
     = [(Some 1%Z, [Some 1; Some 1; Some 1; Some 1; Some 0.5; Some 1])]
  /\ map fst (get_low_confidence_fields Examples.reviewed_data) = ["phone"]
  /\ map (Spec.review_eligible Examples.reviewed_world)
         (documents Examples.reviewed_world) = [true]
  /\ snd (get_documents_needing_review Examples.reviewed_world) = Ok [].
Proof. vm_compute. repeat split. Qed.

(** ** Batch processing *)

Section Batch.

Variable e : Collaborators.

(** The loop over the collected files never raises and appends one result
    per file, in order. *)
Lemma process_files_total (files : list string) :
  forall (results : list ProcessingResult) (w : World),
  exists w' rs,
    process_files e files results w = (w', Ok (results ++ rs)%list)
    /\ List.length rs = List.length files.
Proof.
  induction files as [ | f files IH ]; intros results w.
  - exists w, []. rewrite app_nil_r. split; reflexivity.
  - cbn [process_files]. unfold bind, try_except.
    destruct (process_document e f w) as [w1 [r | ex]].
    + destruct (IH (results ++ [r])%list w1) as (w' & rs & H & L).
      exists w', (r :: rs). rewrite H, <- app_assoc. simpl.
      split; [ reflexivity | rewrite L; reflexivity ].
    + cbn [ret].
      match goal with
      | |- context [process_files e files (results ++ [?r0])%list w1] =>
          destruct (IH (results ++ [r0])%list w1) as (w' & rs & H & L);
          exists w', (r0 :: rs)
      end.
      rewrite H, <- app_assoc. simpl.
      split; [ reflexivity | rewrite L; reflexivity ].
Qed.

(** For a folder that exists, [process_batch] returns one result per
    collected file. *)
Lemma process_batch_total (folder : string) (entries : list string)
      (w : World) :
  scandir e folder = Some entries ->
  exists w' rs,
    process_batch e folder w = (w', Ok rs)
    /\ List.length rs = List.length (supported_files folder entries).
Proof.
  intro H. unfold process_batch. rewrite H.
  destruct (process_files_total (supported_files folder entries) [] w)
    as (w' & rs & R & L).
  exists w', rs. split; [ exact R | exact L ].
Qed.

End Batch.

(** C7, on the code.  In a folder holding [a.pdf], [scan.Pdf] and [c.PNG],
    the three extensions are supported when compared case-insensitively,
    as [FileUtils.is_supported_format] and the upload route compare them;
    [process_batch] collects only the all-lowercase and all-uppercase
    spellings, so [scan.Pdf] is never processed and two results come
    back, one for [c.PNG] and one for [a.pdf]. *)
Theorem process_batch_skips_mixed_case :
  scandir Examples.env "in" = Some ["a.pdf"; "scan.Pdf"; "c.PNG"]
  /\ map (fun n => existsb (String.eqb (lower (Path.suffix n)))
                           Config.supported_formats)
         ["a.pdf"; "scan.Pdf"; "c.PNG"]
     = [true; true; true]
  /\ supported_files "in" ["a.pdf"; "scan.Pdf"; "c.PNG"]
     = ["in/c.PNG"; "in/a.pdf"]
  /\ option_map (map success)
                (match snd (process_batch Examples.env "in"
                                          Examples.empty_world) with
                 | Ok rs => Some rs
                 | Raise _ => None
                 end)
     = Some [false; false]
  /\ map d_filename
         (documents (fst (process_batch Examples.env "in"
                                        Examples.empty_world)))
     = [].
Proof. vm_compute. repeat split. Qed.

(** ** What the two collections contain *)

Section Collections.

Import DocumentRepository.

Lemma in_insert_desc {A : Type} (key : A -> Z) (x y : A) (l : list A) :
  In x (insert_desc key y l) <-> x = y \/ In x l.
Proof.
  induction l as [ | z l IH ]; simpl.
  - intuition congruence.
  - destruct (Z.ltb (key z) (key y)); simpl; [ intuition congruence | ].
    rewrite IH. intuition congruence.
Qed.

Lemma in_order_by_desc {A : Type} (key : A -> Z) (x : A) (l : list A) :
  In x (order_by_desc key l) <-> In x l.
Proof.
  unfold order_by_desc. induction l as [ | y l IH ]; simpl.
  - tauto.
  - rewrite in_insert_desc, IH. intuition congruence.
Qed.



(** The files [process_batch] collects: the entries that end in a
    supported extension spelled as in the configuration or all in upper
    case. *)
Lemma supported_files_spec (folder : string) (entries : list string)
      (f : string) :
  In f (supported_files folder entries)
  <-> exists n ext,
        In n entries /\ In ext Config.supported_formats
        /\ f = Path.joinpath folder n
        /\ (endswith n ext = true \/ endswith n (upper ext) = true).
Proof.
  unfold supported_files. rewrite in_flat_map. split.
  - intros (ext & He & Hin). apply in_app_or in Hin.
    destruct Hin as [Hin | Hin]; simpl in Hin;
      apply in_map_iff in Hin; destruct Hin as (n & E & Hn);
      apply filter_In in Hn; destruct Hn as [Hn Hs];
      exists n, ext; repeat split; auto.
  - intros (n & ext & Hn & He & E & Hs). exists ext.
    split; [ exact He | ]. apply in_or_app. simpl.
    destruct Hs as [Hs | Hs]; [ left | right ];
      apply in_map_iff; exists n; (split; [ symmetry; exact E | ]);
      apply filter_In; split; assumption.
Qed.

End Collections.
(** * Further properties of the code *)

From Stdlib Require Import Permutation Sorted.

(** ** Strings *)

Section StringFacts.

Lemma length_app (a b : string) :
  String.length (a ++ b) = (String.length a + String.length b)%nat.
Proof.
  induction a as [ | c a IH ]; simpl; [ reflexivity | rewrite IH; reflexivity ].
Qed.

Lemma app_assoc_str (a b c : string) : (a ++ b) ++ c = a ++ b ++ c.
Proof.
  induction a as [ | x a IH ]; simpl; [ reflexivity | rewrite IH; reflexivity ].
Qed.

Lemma app_empty_r (a : string) : a ++ EmptyString = a.
Proof.
  induction a as [ | x a IH ]; simpl; [ reflexivity | rewrite IH; reflexivity ].
Qed.

Lemma substring_skip (a b : string) (n : nat) :
  substring (String.length a) n (a ++ b) = substring 0 n b.
Proof. induction a as [ | c a IH ]; simpl; [ reflexivity | exact IH ]. Qed.

Lemma substring_prefix (a b : string) :
  substring 0 (String.length a) (a ++ b) = a.
Proof.
  induction a as [ | c a IH ]; simpl.
  - destruct b; reflexivity.
  - rewrite IH. reflexivity.
Qed.

(** The text of a span that covers [g] inside [a ++ g ++ t]. *)
Lemma span_text_middle (a g t : string) (i j : nat) :
  i = String.length a -> j = (i + String.length g)%nat ->
  Re.span_text (a ++ g ++ t) (i, j) = g.
Proof.
  intros Hi Hj. subst i j. unfold Re.span_text. cbn [fst snd].
  replace (String.length a + String.length g - String.length a)%nat
    with (String.length g) by lia.
  rewrite substring_skip. apply substring_prefix.
Qed.

Lemma prefix_app (a b : string) : String.prefix a (a ++ b) = true.
Proof. apply String.prefix_correct. apply substring_prefix. Qed.

Lemma contains_prefix (a b : string) : contains (a ++ b) a = true.
Proof.
  destruct (a ++ b) as [ | c s ] eqn:E; cbn [contains];
    rewrite <- E, prefix_app; reflexivity.
Qed.

(** A text contains each of its factors. *)
Lemma contains_middle (a g t : string) : contains (a ++ g ++ t) g = true.
Proof.
  induction a as [ | c a IH ].
  - exact (contains_prefix g t).
  - cbn [append contains]. rewrite IH. apply orb_true_r.
Qed.

Lemma forall_str_app (p : ascii -> bool) (a b : string) :
  forall_str p (a ++ b) = (forall_str p a && forall_str p b)%bool.
Proof.
  induction a as [ | c a IH ]; simpl; [ reflexivity | ].
  rewrite IH. apply andb_assoc.
Qed.

Lemma filter_str_app (p : ascii -> bool) (a b : string) :
  filter_str p (a ++ b) = filter_str p a ++ filter_str p b.
Proof.
  induction a as [ | c a IH ]; simpl; [ reflexivity | ].
  rewrite IH. destruct (p c); reflexivity.
Qed.

Lemma filter_str_all (p : ascii -> bool) (a : string) :
  forall_str p a = true -> filter_str p a = a.
Proof.
  induction a as [ | c a IH ]; simpl; [ reflexivity | ].
  destruct (p c); simpl; [ | discriminate ].
  intro H. rewrite (IH H). reflexivity.
Qed.

Lemma filter_str_forall (p : ascii -> bool) (a : string) :
  forall_str p (filter_str p a) = true.
Proof.
  induction a as [ | c a IH ]; simpl; [ reflexivity | ].
  destruct (p c) eqn:P; simpl; [ rewrite P | ]; exact IH.
Qed.

Lemma map_str_app (f : ascii -> ascii) (a b : string) :
  map_str f (a ++ b) = map_str f a ++ map_str f b.
Proof.
  induction a as [ | c a IH ]; simpl; [ reflexivity | rewrite IH; reflexivity ].
Qed.

End StringFacts.

(** ** What a successful match has read *)

Section RegexSound.

Import Re.

Lemma rep_stop_sound (p : ascii -> bool) (k : mstate -> option mstate)
      (x : mstate) (lo : nat) (st : mstate) :
  (if Nat.eqb lo 0 then k st else None) = Some x ->
  exists u st',
    rest st = u ++ rest st' /\ forall_str p u = true
    /\ (lo <= String.length u)%nat
    /\ (forall h : nat, (String.length u <= h)%nat)
    /\ pos st' = (pos st + String.length u)%nat
    /\ caps st' = caps st /\ k st' = Some x.
Proof.
  intro H. destruct (Nat.eqb lo 0) eqn:L; [ | discriminate ].
  apply Nat.eqb_eq in L. subst lo.
  exists EmptyString, st. simpl.
  repeat split; auto; try lia; try (intros; lia).
Qed.

(** A repetition that succeeds has read a block of characters of its
    class, of a length within its bounds, and handed over to its
    continuation there. *)
Lemma rep_sound (p : ascii -> bool) (k : mstate -> option mstate)
      (x : mstate) :
  forall s lo hi st,
    rest st = s ->
    rep p lo hi s st k = Some x ->
    exists u st',
      s = u ++ rest st' /\ forall_str p u = true
      /\ (lo <= String.length u)%nat
      /\ (forall h, hi = Some h -> (String.length u <= h)%nat)
      /\ pos st' = (pos st + String.length u)%nat
      /\ caps st' = caps st
      /\ k st' = Some x.
Proof.
  induction s as [ | c s IH ]; intros lo hi st Hs H; simpl in H.
  - assert ((if Nat.eqb lo 0 then k st else None) = Some x) as H'
        by (destruct (hi_allows hi); exact H).
    destruct (rep_stop_sound p k x lo st H')
      as (u & st' & A & B & C & D & E & F & G).
    exists u, st'. rewrite <- Hs. repeat split; auto.
  - assert (rep p (Nat.pred lo) (hi_pred hi) s (advance c s st) k = Some x
            /\ p c = true /\ hi_allows hi = true
            \/ (if Nat.eqb lo 0 then k st else None) = Some x) as Cases.
    { destruct (hi_allows hi); [ | right; exact H ].
      destruct (p c); [ | right; exact H ].
      destruct (rep p (Nat.pred lo) (hi_pred hi) s (advance c s st) k);
        [ left; auto | right; exact H ]. }
    destruct Cases as [(R & P & A) | S0].
    + apply IH in R; [ | reflexivity ].
      destruct R as (u & st' & E & F & Llo & Lhi & Hp & Hc & Hk).
      exists (String c u), st'. simpl. rewrite P, F.
      repeat split; auto; try lia.
      * rewrite E. reflexivity.
      * intros h Hh. subst hi. destruct h; [ discriminate | ].
        simpl in Lhi. specialize (Lhi h eq_refl). lia.
      * rewrite Hp. simpl. lia.
    + destruct (rep_stop_sound p k x lo st S0)
        as (u & st' & A & B & C & D & E & F & G).
      exists u, st'. rewrite <- Hs. repeat split; auto.
Qed.

Lemma class_sound (p : ascii -> bool) (st : mstate)
      (k : mstate -> option mstate) (x : mstate) :
  run (Class p) st k = Some x ->
  exists c st',
    rest st = String c (rest st') /\ p c = true
    /\ pos st' = S (pos st) /\ caps st' = caps st /\ k st' = Some x.
Proof.
  simpl. destruct (rest st) as [ | c s ] eqn:R; [ discriminate | ].
  destruct (p c) eqn:P; [ | discriminate ].
  intro H. exists c, (advance c s st). repeat split; auto.
Qed.

(** A literal matched without regard to case has read a spelling of the
    word. *)
Lemma literal_sound (word : string) (next : regex)
      (k : mstate -> option mstate) (x : mstate) :
  forall st,
    run (literal true word next) st k = Some x ->
    exists w st',
      rest st = w ++ rest st' /\ lower w = lower word
      /\ pos st' = (pos st + String.length w)%nat
      /\ caps st' = caps st /\ run next st' k = Some x.
Proof.
  induction word as [ | a word IH ]; intros st H.
  - exists EmptyString, st. simpl. repeat split; auto.
  - cbn [literal run] in H.
    destruct (rest st) as [ | c s ] eqn:R; [ discriminate | ].
    destruct (Ascii.eqb (lower_char c) (lower_char a)) eqn:E;
      [ | discriminate ].
    apply IH in H. destruct H as (w & st' & Hr & Hl & Hp & Hc & Hk).
    exists (String c w), st'. cbn [rest advance] in Hr.
    apply Ascii.eqb_eq in E.
    repeat split; auto.
    + simpl. rewrite Hr. reflexivity.
    + unfold lower in *. simpl. rewrite E, Hl. reflexivity.
    + rewrite Hp. simpl. lia.
Qed.

(** A search that succeeds has matched at some position of the text. *)
Lemma search_from_some (r : regex) (m : match_object) :
  forall s b,
    search_from r b s = Some m ->
    exists before at_ b', s = before ++ at_ /\ match_at r b' at_ = Some m.
Proof.
  induction s as [ | c s IH ]; intros b H; simpl in H.
  - destruct (match_at r b EmptyString) eqn:M; [ | discriminate ].
    exists EmptyString, EmptyString, b. split; [ reflexivity | ].
    rewrite M. exact H.
  - destruct (match_at r b (String c s)) eqn:M.
    + exists EmptyString, (String c s), b. split; [ reflexivity | ].
      rewrite M. exact H.
    + apply IH in H. destruct H as (before & at_ & b' & E & Hm).
      exists (String c before), at_, b'. split; [ | exact Hm ].
      simpl. rewrite E. reflexivity.
Qed.

End RegexSound.

(** ** What the field extractors return *)

Section Extractors.

Import Re.

Lemma match_at_phone (b : option ascii) (s : string) (m : match_object) :
  match_at phone_pattern b s = Some m ->
  exists o1 g1 o2 o3 g2 o4 g3 t,
    s = o1 ++ g1 ++ o2 ++ o3 ++ g2 ++ o4 ++ g3 ++ t
    /\ forall_str isdecimal g1 = true /\ String.length g1 = 3%nat
    /\ forall_str isdecimal g2 = true /\ String.length g2 = 3%nat
    /\ forall_str isdecimal g3 = true /\ String.length g3 = 4%nat
    /\ (String.length o1 <= 1)%nat /\ (String.length o2 <= 1)%nat
    /\ (String.length o3 <= 1)%nat /\ (String.length o4 <= 1)%nat
    /\ group m 1 = g1 /\ group m 2 = g2 /\ group m 3 = g3.
Proof.
  unfold match_at.
  destruct (run phone_pattern
                {| prev := b; rest := s; pos := 0; caps := [] |} Some)
    as [st | ] eqn:R; [ | discriminate ].
  intro H. inversion H; subst m; clear H.
  unfold phone_pattern in R. cbn [run] in R.
  apply rep_sound in R; [ | reflexivity ].
  destruct R as (o1 & s1 & E1 & _ & _ & L1 & P1 & C1 & R).
  apply rep_sound in R; [ | reflexivity ].
  destruct R as (g1 & s2 & E2 & D1 & Lg1 & Ug1 & P2 & C2 & R).
  apply rep_sound in R; [ | reflexivity ].
  destruct R as (o2 & s3 & E3 & _ & _ & L2 & P3 & C3 & R).
  apply rep_sound in R; [ | reflexivity ].
  destruct R as (o3 & s4 & E4 & _ & _ & L3 & P4 & C4 & R).
  apply rep_sound in R; [ | reflexivity ].
  destruct R as (g2 & s5 & E5 & D2 & Lg2 & Ug2 & P5 & C5 & R).
  apply rep_sound in R; [ | reflexivity ].
  destruct R as (o4 & s6 & E6 & _ & _ & L4 & P6 & C6 & R).
  apply rep_sound in R; [ | reflexivity ].
  destruct R as (g3 & s7 & E7 & D3 & Lg3 & Ug3 & P7 & C7 & R).
  inversion R; clear R. subst st.
  cbn [rest pos caps close_group] in *.
  specialize (L1 _ eq_refl). specialize (L2 _ eq_refl).
  specialize (L3 _ eq_refl). specialize (L4 _ eq_refl).
  specialize (Ug1 _ eq_refl). specialize (Ug2 _ eq_refl).
  specialize (Ug3 _ eq_refl).
  assert (s = o1 ++ g1 ++ o2 ++ o3 ++ g2 ++ o4 ++ g3 ++ rest s7) as Es
      by (rewrite E1, E2, E3, E4, E5, E6, E7; reflexivity).
  exists o1, g1, o2, o3, g2, o4, g3, (rest s7).
  split; [ exact Es | ].
  repeat (split; [ first [ assumption | lia ] | ]).
  rewrite C7, C6, C5, C4, C3, C2, C1.
  unfold group. cbn [groups map find fst snd Nat.eqb].
  split; [ | split ].
  - rewrite Es. apply span_text_middle; lia.
  - rewrite Es.
    replace (o1 ++ g1 ++ o2 ++ o3 ++ g2 ++ o4 ++ g3 ++ rest s7)
      with ((o1 ++ g1 ++ o2 ++ o3) ++ g2 ++ o4 ++ g3 ++ rest s7)
      by (rewrite !app_assoc_str; reflexivity).
    apply span_text_middle; rewrite ?length_app; lia.
  - rewrite Es.
    replace (o1 ++ g1 ++ o2 ++ o3 ++ g2 ++ o4 ++ g3 ++ rest s7)
      with ((o1 ++ g1 ++ o2 ++ o3 ++ g2 ++ o4) ++ g3 ++ rest s7)
      by (rewrite !app_assoc_str; reflexivity).
    apply span_text_middle; rewrite ?length_app; lia.
Qed.

Lemma phone_match_shape (text : string) :
  forall p,
  _extract_phone text = Some p ->
  exists a b c before sep1 sep2 after,
    p = "(" ++ a ++ ") " ++ b ++ "-" ++ c
    /\ text = before ++ a ++ sep1 ++ b ++ sep2 ++ c ++ after
    /\ String.length a = 3%nat /\ String.length b = 3%nat
    /\ String.length c = 4%nat
    /\ forall_str isdecimal a = true /\ forall_str isdecimal b = true
    /\ forall_str isdecimal c = true
    /\ (String.length sep1 <= 2)%nat /\ (String.length sep2 <= 1)%nat.
Proof.
  intros p H. unfold _extract_phone, search in H.
  destruct (search_from phone_pattern None text) as [m | ] eqn:S;
    [ | discriminate ].
  inversion H; subst p; clear H.
  apply search_from_some in S. destruct S as (pre & at_ & b' & Et & M).
  apply match_at_phone in M.
  destruct M as (o1 & g1 & o2 & o3 & g2 & o4 & g3 & t & Es & D1 & L1 & D2
                 & L2 & D3 & L3 & Lo1 & Lo2 & Lo3 & Lo4 & G1 & G2 & G3).
  exists g1, g2, g3, (pre ++ o1), (o2 ++ o3), o4, t.
  rewrite G1, G2, G3. split; [ reflexivity | ].
  split; [ rewrite Et, Es, !app_assoc_str; reflexivity | ].
  repeat (split; [ assumption | ]).
  rewrite length_app. split; lia.
Qed.

(** X1. Whatever [_extract_phone] returns has the shape [(AAA) BBB-CCCC]
    with ten decimal digits, which stand in the text in that order: three,
    at most two characters apart from the next three, at most one apart
    from the last four.  A text with fewer than ten decimal digits yields
    no phone number. *)
Theorem extract_phone_shape (text : string) :
  (forall p,
      _extract_phone text = Some p ->
      exists a b c before sep1 sep2 after,
        p = "(" ++ a ++ ") " ++ b ++ "-" ++ c
        /\ text = before ++ a ++ sep1 ++ b ++ sep2 ++ c ++ after
        /\ String.length a = 3%nat /\ String.length b = 3%nat
        /\ String.length c = 4%nat
        /\ forall_str isdecimal a = true /\ forall_str isdecimal b = true
        /\ forall_str isdecimal c = true
        /\ (String.length sep1 <= 2)%nat /\ (String.length sep2 <= 1)%nat)
  /\ ((String.length (filter_str isdecimal text) < 10)%nat ->
      _extract_phone text = None).
Proof.
  split; [ exact (phone_match_shape text) | ].
  intro Few. destruct (_extract_phone text) as [p | ] eqn:E; [ | reflexivity ].
  destruct (phone_match_shape text p E)
    as (a & b & c & pre & s1 & s2 & post & _ & Et & La & Lb & Lc & Da & Db
        & Dc & _).
  rewrite Et in Few.
  rewrite !filter_str_app, !length_app in Few.
  rewrite (filter_str_all _ a Da), (filter_str_all _ b Db),
    (filter_str_all _ c Dc) in Few.
  lia.
Qed.

Lemma extract_phone_shape_example :
  (exists a b c before sep1 sep2 after,
      "(555) 123-4567" = "(" ++ a ++ ") " ++ b ++ "-" ++ c
      /\ "Call 555-123-4567"
         = before ++ a ++ sep1 ++ b ++ sep2 ++ c ++ after
      /\ String.length a = 3%nat /\ String.length b = 3%nat
      /\ String.length c = 4%nat
      /\ forall_str isdecimal a = true /\ forall_str isdecimal b = true
      /\ forall_str isdecimal c = true
      /\ (String.length sep1 <= 2)%nat /\ (String.length sep2 <= 1)%nat)
  /\ _extract_phone "Room 12, bed 3456" = None.
Proof.
  split.
  - apply (proj1 (extract_phone_shape "Call 555-123-4567")). reflexivity.
  - apply (proj2 (extract_phone_shape "Room 12, bed 3456")).
    vm_compute. lia.
Defined.

Lemma insurance_tail_sound (st x : mstate) (k : mstate -> option mstate) :
  run insurance_tail st k = Some x ->
  exists gap v st',
    rest st = gap ++ v ++ rest st'
    /\ (exists sp1 mark sp2,
         gap = sp1 ++ mark ++ sp2
         /\ forall_str isspace sp1 = true
         /\ (mark = EmptyString \/ mark = "#" \/ mark = ":")
         /\ forall_str isspace sp2 = true)
    /\ forall_str (fun c => (isupper_ascii c || islower_ascii c
                             || between 48 57 c || is_char "-" c)%bool) v
       = true
    /\ (1 <= String.length v)%nat
    /\ caps st'
       = (1%nat, ((pos st + String.length gap)%nat,
                  (pos st + String.length gap + String.length v)%nat))
           :: caps st
    /\ k st' = Some x.
Proof.
  unfold insurance_tail. cbn [run]. intro R.
  apply rep_sound in R; [ | reflexivity ].
  destruct R as (sp1 & s1 & E1 & D1 & _ & _ & P1 & C1 & R).
  apply rep_sound in R; [ | reflexivity ].
  destruct R as (o & s2 & E2 & D2 & _ & H2 & P2 & C2 & R).
  apply rep_sound in R; [ | reflexivity ].
  destruct R as (sp2 & s3 & E3 & D3 & _ & _ & P3 & C3 & R).
  apply rep_sound in R; [ | reflexivity ].
  destruct R as (v & s4 & E4 & D4 & L4 & _ & P4 & C4 & R).
  exists (sp1 ++ o ++ sp2), v, (close_group 1 (pos s3) s4).
  cbn [rest pos caps close_group].
  split; [ rewrite E1, E2, E3, E4, !app_assoc_str; reflexivity | ].
  split.
  { exists sp1, o, sp2. split; [ reflexivity | ]. split; [ exact D1 | ].
    split; [ | exact D3 ].
    specialize (H2 1%nat eq_refl). clear - D2 H2.
    destruct o as [ | c [ | c' o ] ]; [ left; reflexivity | | simpl in H2; lia ].
    right. cbn [forall_str] in D2. rewrite andb_true_r in D2.
    apply orb_true_iff in D2. destruct D2 as [D | D];
      unfold is_char in D; apply Ascii.eqb_eq in D; subst c; [ left | right ]; reflexivity. }
  split; [ exact D4 | ]. split; [ exact L4 | ].
  split; [ | exact R ].
  rewrite C4, C3, C2, C1.
  replace (pos s3) with (pos st + String.length (sp1 ++ o ++ sp2))%nat
    by (rewrite !length_app; lia).
  replace (pos s4)
    with (pos st + String.length (sp1 ++ o ++ sp2) + String.length v)%nat
    by (rewrite !length_app; lia).
  reflexivity.
Qed.

(** What one insurance pattern has matched: a keyword in any case, a gap
    of white space, at most one [#] or [:] and white space again, and the
    token. *)
Lemma insurance_match (keyword : regex -> regex) (b : option ascii)
      (s : string) (m : match_object) (spelled : string -> Prop) :
  (forall st x k,
      run (keyword insurance_tail) st k = Some x ->
      exists w st',
        rest st = w ++ rest st' /\ spelled w
        /\ pos st' = (pos st + String.length w)%nat
        /\ caps st' = caps st /\ run insurance_tail st' k = Some x) ->
  match_at (keyword insurance_tail) b s = Some m ->
  exists kw gap v after,
    s = kw ++ gap ++ v ++ after /\ spelled kw
    /\ (exists sp1 mark sp2,
         gap = sp1 ++ mark ++ sp2
         /\ forall_str isspace sp1 = true
         /\ (mark = EmptyString \/ mark = "#" \/ mark = ":")
         /\ forall_str isspace sp2 = true)
    /\ forall_str (fun c => (isupper_ascii c || islower_ascii c
                             || between 48 57 c || is_char "-" c)%bool) v
       = true
    /\ (1 <= String.length v)%nat
    /\ group m 1 = v.
Proof.
  intros K. unfold match_at.
  destruct (run (keyword insurance_tail)
                {| prev := b; rest := s; pos := 0; caps := [] |} Some)
    as [st | ] eqn:R; [ | discriminate ].
  intro H. inversion H; subst m; clear H.
  apply K in R. destruct R as (w & s1 & E1 & Sp & P1 & C1 & R).
  apply insurance_tail_sound in R.
  destruct R as (gap & v & s2 & E2 & Dg & Dv & Lv & C2 & R).
  inversion R; subst st; clear R.
  cbn [rest pos caps] in *.
  assert (s = w ++ gap ++ v ++ rest s2) as Es by (rewrite E1, E2; reflexivity).
  exists w, gap, v, (rest s2).
  split; [ exact Es | ]. split; [ exact Sp | ]. split; [ exact Dg | ].
  split; [ exact Dv | ]. split; [ exact Lv | ].
  rewrite C2, C1. unfold group. cbn [groups map find fst snd Nat.eqb].
  rewrite Es.
  replace (w ++ gap ++ v ++ rest s2) with ((w ++ gap) ++ v ++ rest s2)
    by (rewrite !app_assoc_str; reflexivity).
  apply span_text_middle; rewrite ?length_app; lia.
Qed.

Lemma first_group1_some (patterns : list regex) (text v : string) :
  first_group1 patterns text = Some v ->
  exists pattern m,
    In pattern patterns /\ search pattern text = Some m /\ group m 1 = v.
Proof.
  induction patterns as [ | p ps IH ]; simpl; [ discriminate | ].
  destruct (search p text) as [ m | ] eqn:S.
  - intro H. inversion H. exists p, m. auto.
  - intro H. destruct (IH H) as (q & m & I & Sq & G).
    exists q, m. auto.
Qed.

Lemma contains_lower_middle (a kw t : string) :
  contains (lower (a ++ kw ++ t)) (lower kw) = true.
Proof.
  unfold lower. rewrite !map_str_app. apply contains_middle.
Qed.

Lemma insurance_match_shape (text : string) :
  forall v,
  _extract_insurance_info text = Some v ->
  exists before kw gap after,
    text = before ++ kw ++ gap ++ v ++ after
    /\ (lower kw = "insurance" \/ lower kw = "policy"
        \/ exists m sp i,
            kw = m ++ sp ++ i /\ lower m = "member"
            /\ forall_str isspace sp = true /\ lower i = "id")
    /\ (exists sp1 mark sp2,
         gap = sp1 ++ mark ++ sp2
         /\ forall_str isspace sp1 = true
         /\ (mark = EmptyString \/ mark = "#" \/ mark = ":")
         /\ forall_str isspace sp2 = true)
    /\ forall_str (fun c => (isupper_ascii c || islower_ascii c
                             || between 48 57 c || is_char "-" c)%bool) v
       = true
    /\ (1 <= String.length v)%nat.
Proof.
  intros v H. unfold _extract_insurance_info in H.
  apply first_group1_some in H. destruct H as (pattern & m & I & S & G).
  unfold search in S. apply search_from_some in S.
  destruct S as (before & at_ & b & Et & M).
  unfold insurance_patterns in I. cbn [In] in I.
  destruct I as [I | [I | [I | []]]]; subst pattern.
  - apply (insurance_match (fun next => literal true "insurance" next) b at_ m
             (fun w => lower w = "insurance")) in M.
    + destruct M as (kw & gap & v' & after & Es & Sp & Dg & Dv & Lv & Gm).
      rewrite G in Gm. subst v'.
      exists before, kw, gap, after. rewrite Et, Es. auto 10.
    + intros st x k R. apply literal_sound in R.
      destruct R as (w & st' & A & B & C & D & E). exists w, st'. auto.
  - apply (insurance_match (fun next => literal true "policy" next) b at_ m
             (fun w => lower w = "policy")) in M.
    + destruct M as (kw & gap & v' & after & Es & Sp & Dg & Dv & Lv & Gm).
      rewrite G in Gm. subst v'.
      exists before, kw, gap, after. rewrite Et, Es. auto 10.
    + intros st x k R. apply literal_sound in R.
      destruct R as (w & st' & A & B & C & D & E). exists w, st'. auto.
  - apply (insurance_match
             (fun next => literal true "member"
                            (Star isspace @@ literal true "id" next)%re)
             b at_ m
             (fun kw => exists m sp i,
                  kw = m ++ sp ++ i /\ lower m = "member"
                  /\ forall_str isspace sp = true /\ lower i = "id")) in M.
    + destruct M as (kw & gap & v' & after & Es & Sp & Dg & Dv & Lv & Gm).
      rewrite G in Gm. subst v'.
      exists before, kw, gap, after. rewrite Et, Es. auto 10.
    + intros st x k R. apply literal_sound in R.
      destruct R as (w1 & s1 & A1 & B1 & C1 & D1 & R).
      cbn [run] in R.
      apply rep_sound in R; [ | reflexivity ].
      destruct R as (sp & s2 & A2 & B2 & _ & _ & C2 & D2 & R).
      apply literal_sound in R.
      destruct R as (w2 & s3 & A3 & B3 & C3 & D3 & R).
      exists (w1 ++ sp ++ w2), s3.
      split; [ rewrite A1, A2, A3, !app_assoc_str; reflexivity | ].
      split; [ exists w1, sp, w2; auto | ].
      split; [ rewrite C3, C2, C1, !length_app; lia | ].
      split; [ congruence | exact R ].
Qed.

(** X2. In a text of code points below 256, the insurance identifier
    that [_extract_insurance_info] returns is a non-empty run of ASCII
    letters, digits and hyphens that stands in the text right after one of
    the keywords [insurance], [policy] or [member id] (in any letter case)
    and a gap made of white space, then at most one [#] or [:], then white
    space.  A text in which none of the words [insurance], [policy] and
    [member] occurs, whatever the case, yields nothing. *)
Theorem extract_insurance_shape (text : string) :
  (forall v,
      _extract_insurance_info text = Some v ->
      exists before kw gap after,
        text = before ++ kw ++ gap ++ v ++ after
        /\ (lower kw = "insurance" \/ lower kw = "policy"
            \/ exists m sp i,
                kw = m ++ sp ++ i /\ lower m = "member"
                /\ forall_str isspace sp = true /\ lower i = "id")
        /\ (exists sp1 mark sp2,
         gap = sp1 ++ mark ++ sp2
         /\ forall_str isspace sp1 = true
         /\ (mark = EmptyString \/ mark = "#" \/ mark = ":")
         /\ forall_str isspace sp2 = true)
        /\ forall_str (fun c => (isupper_ascii c || islower_ascii c
                                 || between 48 57 c || is_char "-" c)%bool) v
           = true
        /\ (1 <= String.length v)%nat)
  /\ (contains (lower text) "insurance" = false ->
      contains (lower text) "policy" = false ->
      contains (lower text) "member" = false ->
      _extract_insurance_info text = None).
Proof.
  split; [ exact (insurance_match_shape text) | ].
  intros N1 N2 N3.
  destruct (_extract_insurance_info text) as [ v | ] eqn:E; [ | reflexivity ].
  destruct (insurance_match_shape text v E)
    as (before & kw & gap & after & Et & [K | [K | (m & sp & i & Ek & K & _)]]
        & _).
  - rewrite Et, <- K, contains_lower_middle in N1. discriminate.
  - rewrite Et, <- K, contains_lower_middle in N2. discriminate.
  - rewrite Et, Ek, <- K, !app_assoc_str, contains_lower_middle in N3.
    discriminate.
Qed.

Lemma extract_insurance_shape_example :
  (exists before kw gap after,
      "Member  ID # ab-12 (PPO)" = before ++ kw ++ gap ++ "ab-12" ++ after
      /\ (lower kw = "insurance" \/ lower kw = "policy"
          \/ exists m sp i,
              kw = m ++ sp ++ i /\ lower m = "member"
              /\ forall_str isspace sp = true /\ lower i = "id")
      /\ (exists sp1 mark sp2,
         gap = sp1 ++ mark ++ sp2
         /\ forall_str isspace sp1 = true
         /\ (mark = EmptyString \/ mark = "#" \/ mark = ":")
         /\ forall_str isspace sp2 = true)
      /\ forall_str (fun c => (isupper_ascii c || islower_ascii c
                               || between 48 57 c || is_char "-" c)%bool)
                    "ab-12"
         = true
      /\ (1 <= String.length "ab-12")%nat)
  /\ _extract_insurance_info "Patient Jane Roe, born 1980-01-02" = None.
Proof.
  split.
  - apply (proj1 (extract_insurance_shape "Member  ID # ab-12 (PPO)")).
    reflexivity.
  - apply (proj2 (extract_insurance_shape "Patient Jane Roe, born 1980-01-02"));
      reflexivity.
Defined.

Lemma is_char_true (a c : ascii) : is_char a c = true -> c = a.
Proof.
  unfold is_char. intro H. apply Ascii.eqb_eq in H. congruence.
Qed.

Lemma match_at_email (b : option ascii) (s : string) (m : match_object) :
  match_at email_pattern b s = Some m ->
  exists local_ domain tld after,
    s = group0 m ++ after
    /\ group0 m = local_ ++ "@" ++ domain ++ "." ++ tld
    /\ forall_str (fun c => (alnum_ascii c || is_char "." c || is_char "_" c
                             || is_char "%" c || is_char "+" c
                             || is_char "-" c)%bool) local_ = true
    /\ (1 <= String.length local_)%nat
    /\ forall_str (fun c => (alnum_ascii c || is_char "." c
                             || is_char "-" c)%bool) domain = true
    /\ (1 <= String.length domain)%nat
    /\ forall_str (fun c => (isupper_ascii c || is_char "|" c
                             || islower_ascii c)%bool) tld = true
    /\ (2 <= String.length tld)%nat.
Proof.
  unfold match_at.
  destruct (run email_pattern
                {| prev := b; rest := s; pos := 0; caps := [] |} Some)
    as [st | ] eqn:R; [ | discriminate ].
  intro H. inversion H; subst m; clear H. cbn [group0].
  unfold email_pattern in R. cbn [run] in R.
  match type of R with
  | (if ?c then _ else _) = _ => destruct c; [ | discriminate ]
  end.
  apply rep_sound in R; [ | reflexivity ].
  destruct R as (l & s1 & E1 & D1 & L1 & _ & P1 & _ & R).
  destruct (rest s1) as [ | c1 r1 ] eqn:E2; [ discriminate | ].
  destruct (is_char "@" c1) eqn:A2; [ | discriminate ].
  apply rep_sound in R; [ | reflexivity ].
  destruct R as (d & s3 & E3 & D3 & L3 & _ & P3 & _ & R).
  destruct (rest s3) as [ | c2 r2 ] eqn:E4; [ discriminate | ].
  destruct (is_char "." c2) eqn:A4; [ | discriminate ].
  apply rep_sound in R; [ | reflexivity ].
  destruct R as (t & s5 & E5 & D5 & L5 & _ & P5 & _ & R).
  match type of R with
  | (if ?c then _ else _) = _ => destruct c; [ | discriminate ]
  end.
  inversion R; clear R. subst st.
  apply is_char_true in A2, A4. subst c1 c2.
  cbn [rest pos advance] in *.
  assert (s = (l ++ "@" ++ d ++ "." ++ t) ++ rest s5) as Es.
  { rewrite E1, E3, E5, !app_assoc_str. reflexivity. }
  assert (span_text s (0%nat, pos s5) = l ++ "@" ++ d ++ "." ++ t) as G.
  { rewrite Es.
    apply (span_text_middle EmptyString (l ++ "@" ++ d ++ "." ++ t) (rest s5));
      [ reflexivity | ].
    rewrite !length_app. cbn [String.length]. lia. }
  exists l, d, t, (rest s5). rewrite G. auto 10.
Qed.

Lemma email_match_shape (text : string) :
  forall e,
  _extract_email text = Some e ->
  exists before local_ domain tld after,
    text = before ++ e ++ after
    /\ e = local_ ++ "@" ++ domain ++ "." ++ tld
    /\ forall_str (fun c => (alnum_ascii c || is_char "." c
                             || is_char "_" c || is_char "%" c
                             || is_char "+" c || is_char "-" c)%bool)
                  local_ = true
    /\ (1 <= String.length local_)%nat
    /\ forall_str (fun c => (alnum_ascii c || is_char "." c
                             || is_char "-" c)%bool) domain = true
    /\ (1 <= String.length domain)%nat
    /\ forall_str (fun c => (isupper_ascii c || is_char "|" c
                             || islower_ascii c)%bool) tld = true
    /\ (2 <= String.length tld)%nat.
Proof.
  intros e H. unfold _extract_email, search in H.
  destruct (search_from email_pattern None text) as [m | ] eqn:S;
    [ | discriminate ].
  inversion H; subst e; clear H.
  apply search_from_some in S. destruct S as (pre & at_ & b' & Et & M).
  apply match_at_email in M.
  destruct M as (l & d & t & after & Es & rest_).
  exists pre, l, d, t, after.
  split; [ rewrite Et, Es; reflexivity | exact rest_ ].
Qed.

(** X3. The address that [_extract_email] returns stands in the text and
    reads [local@domain.tld]: a non-empty local part of ASCII letters,
    digits and [._%+-], a non-empty domain of letters, digits, dots and
    hyphens, and a last label of at least two characters, each a letter or
    the bar [|] that the character class [[A-Z|a-z]] lets in.  A text
    without [@] yields nothing. *)
Theorem extract_email_shape (text : string) :
  (forall e,
      _extract_email text = Some e ->
      exists before local_ domain tld after,
        text = before ++ e ++ after
        /\ e = local_ ++ "@" ++ domain ++ "." ++ tld
        /\ forall_str (fun c => (alnum_ascii c || is_char "." c
                                 || is_char "_" c || is_char "%" c
                                 || is_char "+" c || is_char "-" c)%bool)
                      local_ = true
        /\ (1 <= String.length local_)%nat
        /\ forall_str (fun c => (alnum_ascii c || is_char "." c
                                 || is_char "-" c)%bool) domain = true
        /\ (1 <= String.length domain)%nat
        /\ forall_str (fun c => (isupper_ascii c || is_char "|" c
                                 || islower_ascii c)%bool) tld = true
        /\ (2 <= String.length tld)%nat)
  /\ (contains text "@" = false -> _extract_email text = None).
Proof.
  split; [ exact (email_match_shape text) | ].
  intro No. destruct (_extract_email text) as [e | ] eqn:E; [ | reflexivity ].
  destruct (email_match_shape text e E) as (pre & l & d & t & after & Et & Ee & _).
  rewrite Et, Ee in No.
  replace (pre ++ (l ++ "@" ++ d ++ "." ++ t) ++ after)
    with ((pre ++ l) ++ "@" ++ (d ++ "." ++ t ++ after)) in No
    by (rewrite !app_assoc_str; reflexivity).
  rewrite contains_middle in No. discriminate.
Qed.

Lemma extract_email_shape_example :
  (exists before local_ domain tld after,
      "mail: j.roe@clinic.or|g now" = before ++ "j.roe@clinic.or|g" ++ after
      /\ "j.roe@clinic.or|g" = local_ ++ "@" ++ domain ++ "." ++ tld
      /\ forall_str (fun c => (alnum_ascii c || is_char "." c
                               || is_char "_" c || is_char "%" c
                               || is_char "+" c || is_char "-" c)%bool)
                    local_ = true
      /\ (1 <= String.length local_)%nat
      /\ forall_str (fun c => (alnum_ascii c || is_char "." c
                               || is_char "-" c)%bool) domain = true
      /\ (1 <= String.length domain)%nat
      /\ forall_str (fun c => (isupper_ascii c || is_char "|" c
                               || islower_ascii c)%bool) tld = true
      /\ (2 <= String.length tld)%nat)
  /\ _extract_email "Call 555-123-4567" = None.
Proof.
  split.
  - apply (proj1 (extract_email_shape "mail: j.roe@clinic.or|g now")).
    reflexivity.
  - apply (proj2 (extract_email_shape "Call 555-123-4567")). reflexivity.
Defined.

Lemma filter_str_nested (p q : ascii -> bool) (s : string) :
  (forall c, p c = true -> q c = true) ->
  filter_str p (filter_str q s) = filter_str p s.
Proof.
  intro Sub. induction s as [ | c s IH ]; [ reflexivity | ].
  cbn [filter_str]. destruct (q c) eqn:Q; cbn [filter_str].
  - rewrite IH. reflexivity.
  - destruct (p c) eqn:P; [ | exact IH ].
    rewrite (Sub c P) in Q. discriminate.
Qed.

Lemma filter_str_length (p : ascii -> bool) (s : string) :
  (String.length (filter_str p s) <= String.length s)%nat.
Proof.
  induction s as [ | c s IH ]; cbn [filter_str String.length]; [ lia | ].
  destruct (p c); cbn [String.length]; lia.
Qed.

(** X4. [_clean_date] leaves nothing but decimal digits, hyphens and
    slashes, keeps every digit of the entity text in its order, never makes
    the text longer, and cleaning a cleaned date changes nothing. *)
Theorem clean_date_keeps_digits (date_text : string) :
  forall_str (fun c => (between 48 57 c || is_char "-" c || is_char "/" c)%bool)
             (_clean_date date_text) = true
  /\ filter_str isdecimal (_clean_date date_text)
     = filter_str isdecimal date_text
  /\ (String.length (_clean_date date_text) <= String.length date_text)%nat
  /\ _clean_date (_clean_date date_text) = _clean_date date_text.
Proof.
  unfold _clean_date. split; [ apply filter_str_forall | ].
  split.
  { apply filter_str_nested. intros c D. unfold isdecimal in D.
    rewrite D. reflexivity. }
  split; [ apply filter_str_length | ].
  apply filter_str_all, filter_str_forall.
Qed.

Lemma truthy_length (s : string) :
  (1 <= String.length s)%nat -> truthy_str s = true.
Proof. destruct s; simpl; [ lia | reflexivity ]. Qed.

Lemma extracted_insurance_truthy (text v : string) :
  _extract_insurance_info text = Some v -> truthy_str v = true.
Proof.
  intro H. apply truthy_length.
  destruct (insurance_match_shape text v H)
    as (_ & _ & _ & _ & _ & _ & _ & _ & L).
  exact L.
Qed.

Lemma extracted_phone_truthy (text p : string) :
  _extract_phone text = Some p -> truthy_str p = true.
Proof.
  unfold _extract_phone. destruct (search phone_pattern text); [ | discriminate ].
  intro H. inversion H. reflexivity.
Qed.

Lemma extracted_email_truthy (text m : string) :
  _extract_email text = Some m -> truthy_str m = true.
Proof.
  intro H. destruct (email_match_shape text m H)
    as (_ & l & d & t & _ & _ & E & _ & L & _).
  subst m. destruct l; [ simpl in L; lia | reflexivity ].
Qed.

(** What the entity loop leaves in the two fields it writes: the last
    entity of the label decides. *)
Lemma visit_entities_last (ents : list (string * string)) (pd : PatientData) :
  let pd' := fold_left visit_entity ents pd in
  name pd'
  = match find (fun ent => String.eqb (fst ent) "PERSON") (rev ents) with
    | Some ent => {| value := Some (strip (snd ent)); confidence := 0.8;
                     raw_text := Some (snd ent) |}
    | None => name pd
    end
  /\ date_of_birth pd'
     = match find (fun ent => String.eqb (fst ent) "DATE") (rev ents) with
       | Some ent => {| value := Some (_clean_date (snd ent));
                        confidence := 0.7; raw_text := Some (snd ent) |}
       | None => date_of_birth pd
       end.
Proof.
  induction ents as [ | [label t] ents IH ] using rev_ind; [ split; reflexivity | ].
  cbv zeta in *. rewrite fold_left_app, rev_app_distr.
  cbn [fold_left rev List.app find fst snd].
  destruct IH as [IHn IHd].
  unfold visit_entity at 1 3.
  destruct (String.eqb_spec label "PERSON") as [P | P].
  - subst label. cbn [String.eqb Ascii.eqb Bool.eqb]. cbn [name date_of_birth set_name].
    split; [ reflexivity | exact IHd ].
  - destruct (String.eqb label "DATE");
      cbn [name date_of_birth set_date_of_birth];
      (split; [ exact IHn | try reflexivity; exact IHd ]).
Qed.

Lemma entity_fields_of_extracted (e : Collaborators) (text : string)
      (ents : list (string * string)) :
  spacy_ents e text = Some ents ->
  name (extract_patient_data e text)
  = name (fold_left visit_entity ents empty_patient_data)
  /\ date_of_birth (extract_patient_data e text)
     = date_of_birth (fold_left visit_entity ents empty_patient_data).
Proof.
  intro H. unfold extract_patient_data. rewrite H.
  destruct (_extract_insurance_info text) as [i | ];
    [ destruct (truthy_str i) | ];
    (destruct (_extract_phone text) as [p | ];
     [ destruct (truthy_str p) | ]);
    (destruct (_extract_email text) as [m | ];
     [ destruct (truthy_str m) | ]);
    split; reflexivity.
Qed.

(** X5. When the spaCy pipeline answers, the three pattern fields of
    [extract_patient_data] are exactly what the three extractors find in
    the whole text: a match is never dropped by the truth test on it, it is
    stored as value and raw text with the fixed confidence 0.6 (insurance),
    0.7 (phone) or 0.9 (email), and a field without a match stays empty
    with confidence 0. *)
Theorem extract_patient_data_pattern_fields (e : Collaborators)
        (text : string) (ents : list (string * string)) :
  spacy_ents e text = Some ents ->
  insurance_id (extract_patient_data e text)
  = match _extract_insurance_info text with
    | Some i => {| value := Some i; confidence := 0.6; raw_text := Some i |}
    | None => empty_field
    end
  /\ phone (extract_patient_data e text)
     = match _extract_phone text with
       | Some p => {| value := Some p; confidence := 0.7; raw_text := Some p |}
       | None => empty_field
       end
  /\ email (extract_patient_data e text)
     = match _extract_email text with
       | Some m => {| value := Some m; confidence := 0.9; raw_text := Some m |}
       | None => empty_field
       end.
Proof.
  intro H. unfold extract_patient_data. rewrite H.
  destruct (visit_entities_keep_others ents empty_patient_data)
    as (I & _ & P & M).
  cbv zeta in I, P, M.
  set (pd0 := fold_left visit_entity ents empty_patient_data) in *.
  change (insurance_id empty_patient_data) with empty_field in I.
  change (phone empty_patient_data) with empty_field in P.
  change (email empty_patient_data) with empty_field in M.
  destruct (_extract_insurance_info text) as [i | ] eqn:Ei;
    [ rewrite (extracted_insurance_truthy text i Ei) | ];
    (destruct (_extract_phone text) as [p | ] eqn:Ep;
     [ rewrite (extracted_phone_truthy text p Ep) | ]);
    (destruct (_extract_email text) as [m | ] eqn:Em;
     [ rewrite (extracted_email_truthy text m Em) | ]);
    cbn [insurance_id phone email set_insurance_id set_phone set_email];
    rewrite ?I, ?P, ?M; repeat split.
Qed.

(** X6. When several entities carry the label [PERSON] (or [DATE]) the loop
    of [extract_patient_data] overwrites the field each time, so the LAST
    such entity of the document gives the name (the date of birth); with no
    such entity the field stays empty.  The name is the entity text
    stripped, with confidence 0.8; the date is the entity text cleaned,
    with confidence 0.7. *)
Theorem extract_patient_data_last_entity (e : Collaborators)
        (text : string) (ents : list (string * string)) :
  spacy_ents e text = Some ents ->
  name (extract_patient_data e text)
  = match find (fun ent => String.eqb (fst ent) "PERSON") (rev ents) with
    | Some ent => {| value := Some (strip (snd ent)); confidence := 0.8;
                     raw_text := Some (snd ent) |}
    | None => empty_field
    end
  /\ date_of_birth (extract_patient_data e text)
     = match find (fun ent => String.eqb (fst ent) "DATE") (rev ents) with
       | Some ent => {| value := Some (_clean_date (snd ent));
                        confidence := 0.7; raw_text := Some (snd ent) |}
       | None => empty_field
       end.
Proof.
  intro H. destruct (entity_fields_of_extracted e text ents H) as [N D].
  rewrite N, D. exact (visit_entities_last ents empty_patient_data).
Qed.

End Extractors.

Lemma extract_patient_data_pattern_fields_example :
  insurance_id (extract_patient_data MoreExamples.env_two_people
                  "Policy # AB-12, call 555 123 4567")
  = {| value := Some "AB-12"; confidence := 0.6; raw_text := Some "AB-12" |}
  /\ phone (extract_patient_data MoreExamples.env_two_people
              "Policy # AB-12, call 555 123 4567")
     = {| value := Some "(555) 123-4567"; confidence := 0.7;
          raw_text := Some "(555) 123-4567" |}
  /\ email (extract_patient_data MoreExamples.env_two_people
              "Policy # AB-12, call 555 123 4567")
     = empty_field.
Proof.
  exact (extract_patient_data_pattern_fields
           MoreExamples.env_two_people "Policy # AB-12, call 555 123 4567"
           _ eq_refl).
Defined.

Lemma extract_patient_data_last_entity_example :
  name (extract_patient_data MoreExamples.env_two_people "any text")
  = {| value := Some "Ann Lee"; confidence := 0.8;
       raw_text := Some " Ann Lee " |}
  /\ date_of_birth (extract_patient_data MoreExamples.env_two_people "any text")
     = {| value := Some "32024"; confidence := 0.7;
          raw_text := Some "May 3rd, 2024" |}.
Proof.
  exact (extract_patient_data_last_entity
           MoreExamples.env_two_people "any text" _ eq_refl).
Defined.

(** ** Reading documents back *)

Section Readers.

Import DocumentRepository.

Lemma status_round_trip (s : ProcessingStatus) :
  status_of_value (status_value s) = Some s.
Proof. destruct s; reflexivity. Qed.

Lemma row_to_document_fields (row : DocumentRow) (d : Document) :
  _row_to_document row = Ok d ->
  status_of_value (d_processing_status row) = Some (processing_status d)
  /\ id d = Some (d_id row) /\ upload_date d = d_upload_date row
  /\ filename d = d_filename row /\ patient_data d = empty_patient_data.
Proof.
  unfold _row_to_document.
  destruct (status_of_value (d_processing_status row)); [ | discriminate ].
  intro H. inversion H. cbn. auto.
Qed.

Lemma status_of_value_inv (v : string) (s : ProcessingStatus) :
  status_of_value v = Some s -> v = status_value s.
Proof.
  unfold status_of_value.
  repeat match goal with
         | |- context [String.eqb v ?c] =>
             destruct (String.eqb_spec v c) as [-> | _]
         end;
    intro H; inversion H; reflexivity.
Qed.

Lemma loaded_needs_review (row : DocumentRow) (d : Document) :
  _row_to_document row = Ok d -> document_needs_review d = true.
Proof.
  intro H. destruct (row_to_document_fields row d H) as (_ & _ & _ & _ & P).
  unfold document_needs_review. rewrite P. apply orb_true_r.
Qed.

Lemma convert_rows_Forall2 {A B : Type} (f : A -> result B) (rows : list A) :
  forall bs,
    convert_rows f rows = Ok bs <-> Forall2 (fun r b => f r = Ok b) rows bs.
Proof.
  induction rows as [ | r rows IH ]; intro bs; simpl.
  - split.
    + intro H. inversion H. constructor.
    + intro H. inversion H. reflexivity.
  - split.
    + destruct (f r) as [ b | ] eqn:F; [ | discriminate ].
      destruct (convert_rows f rows) as [ bs' | ] eqn:C; [ | discriminate ].
      intro H. inversion H. constructor; [ exact F | ].
      apply IH. reflexivity.
    + intro H. inversion H as [ | r' b rows' bs' F T ]; subst.
      rewrite F. apply IH in T. rewrite T. reflexivity.
Qed.

Lemma convert_rows_total (rows : list DocumentRow) :
  (forall row, In row rows ->
               status_of_value (d_processing_status row) <> None) ->
  exists ds, convert_rows _row_to_document rows = Ok ds.
Proof.
  induction rows as [ | r rows IH ]; intro V; simpl.
  - exists []. reflexivity.
  - destruct (IH (fun row I => V row (or_intror I))) as (ds & C).
    rewrite C. unfold _row_to_document at 1.
    destruct (status_of_value (d_processing_status r)) eqn:S.
    + eexists. reflexivity.
    + exfalso. apply (V r (or_introl eq_refl)). exact S.
Qed.

Lemma get_by_id_run (document_id : option Z) (w : World) :
  get_by_id document_id w
  = match hd None (db_faults w) with
    | Some msg => (pop_fault w, Raise (DatabaseError msg))
    | None =>
        match filter (fun d => sql_eq (d_id d) document_id) (documents w) with
        | [] => (pop_fault w, Ok None)
        | row :: _ =>
            (pop_fault w,
             match _row_to_document row with
             | Ok doc => Ok (Some doc)
             | Raise ex => Raise ex
             end)
        end
    end.
Proof.
  unfold get_by_id, bind, execute, select_by_id, lift, ret.
  destruct (hd None (db_faults w)); [ reflexivity | ].
  cbn [documents pop_fault with_faults].
  destruct (filter (fun d => sql_eq (d_id d) document_id) (documents w));
    [ reflexivity | ].
  destruct (_row_to_document d); reflexivity.
Qed.

Lemma get_by_status_run (status : ProcessingStatus) (w : World) :
  get_by_status status w
  = match hd None (db_faults w) with
    | Some msg => (pop_fault w, Raise (DatabaseError msg))
    | None =>
        (pop_fault w,
         convert_rows _row_to_document (snd (select_by_status status w)))
    end.
Proof.
  unfold get_by_status, bind, execute, select_by_status, lift.
  destruct (hd None (db_faults w)); [ reflexivity | ].
  cbn [documents pop_fault with_faults snd].
  destruct (convert_rows _row_to_document _); reflexivity.
Qed.

Lemma get_needing_review_run (w : World) :
  get_needing_review w
  = match hd None (db_faults w) with
    | Some msg => (pop_fault w, Raise (DatabaseError msg))
    | None =>
        (pop_fault w,
         convert_rows _row_to_document (snd (select_needing_review w)))
    end.
Proof.
  unfold get_needing_review, bind, execute, select_needing_review, lift,
    left_join.
  destruct (hd None (db_faults w)); [ reflexivity | ].
  cbn [documents patients pop_fault with_faults snd].
  destruct (convert_rows _row_to_document _); reflexivity.
Qed.

Lemma Forall2_forallb {A B : Type} (R : A -> B -> Prop) (p : B -> bool)
      (l : list A) (l' : list B) :
  (forall a b, R a b -> p b = true) ->
  Forall2 R l l' -> forallb p l' = true.
Proof.
  intros H F. induction F as [ | a b l l' Rab F IH ]; [ reflexivity | ].
  simpl. rewrite (H a b Rab), IH. reflexivity.
Qed.

(** X7. A document read back from the store always reports
    [needs_review]: [_row_to_document] never loads the patient data, so the
    document carries the default [PatientData] whose six confidences are 0,
    and the property is true whatever the status, also for a completed
    document.  This holds for every document that [get_by_id],
    [get_by_status] and [get_needing_review] return. *)
Theorem loaded_documents_need_review :
  (forall row d,
      _row_to_document row = Ok d ->
      patient_data d = empty_patient_data /\ document_needs_review d = true)
  /\ (forall document_id w w' d,
         get_by_id document_id w = (w', Ok (Some d)) ->
         document_needs_review d = true)
  /\ (forall status w w' ds,
         get_by_status status w = (w', Ok ds) ->
         forallb document_needs_review ds = true)
  /\ (forall w w' ds,
         get_needing_review w = (w', Ok ds) ->
         forallb document_needs_review ds = true).
Proof.
  split; [ | split; [ | split ] ].
  - intros row d H. split; [ | exact (loaded_needs_review row d H) ].
    destruct (row_to_document_fields row d H) as (_ & _ & _ & _ & P). exact P.
  - intros document_id w w' d. rewrite get_by_id_run.
    destruct (hd None (db_faults w)); [ discriminate | ].
    destruct (filter _ (documents w)) as [ | row rows ]; [ discriminate | ].
    destruct (_row_to_document row) as [ doc | ] eqn:R; [ | discriminate ].
    intro H. inversion H; subst. exact (loaded_needs_review row d R).
  - intros status w w' ds. rewrite get_by_status_run.
    destruct (hd None (db_faults w)); [ discriminate | ].
    intro H. inversion H as [[W C]]. apply convert_rows_Forall2 in C.
    exact (Forall2_forallb _ _ _ _ loaded_needs_review C).
  - intros w w' ds. rewrite get_needing_review_run.
    destruct (hd None (db_faults w)); [ discriminate | ].
    intro H. inversion H as [[W C]]. apply convert_rows_Forall2 in C.
    exact (Forall2_forallb _ _ _ _ loaded_needs_review C).
Qed.

Lemma loaded_documents_need_review_example :
  exists d,
    snd (get_by_id (Some 1%Z) Examples.reviewed_world) = Ok (Some d)
    /\ processing_status d = COMPLETED
    /\ document_needs_review d = true.
Proof.
  eexists. split; [ vm_compute; reflexivity | ].
  split; [ reflexivity | ].
  eapply (proj1 (proj2 loaded_documents_need_review)
                (Some 1%Z) Examples.reviewed_world).
  vm_compute. reflexivity.
Defined.

Lemma insert_desc_perm {A : Type} (key : A -> Z) (x : A) (l : list A) :
  Permutation (insert_desc key x l) (x :: l).
Proof.
  induction l as [ | y l IH ]; simpl; [ apply Permutation_refl | ].
  destruct (Z.ltb (key y) (key x)); [ apply Permutation_refl | ].
  apply Permutation_trans with (y :: x :: l);
    [ apply perm_skip; exact IH | apply perm_swap ].
Qed.

Lemma order_by_desc_perm {A : Type} (key : A -> Z) (l : list A) :
  Permutation (order_by_desc key l) l.
Proof.
  induction l as [ | x l IH ]; simpl; [ apply Permutation_refl | ].
  apply Permutation_trans with (x :: order_by_desc key l);
    [ apply insert_desc_perm | apply perm_skip; exact IH ].
Qed.

Lemma insert_desc_sorted {A : Type} (key : A -> Z) (x : A) (l : list A) :
  Sorted (fun a b => (key b <= key a)%Z) l ->
  Sorted (fun a b => (key b <= key a)%Z) (insert_desc key x l).
Proof.
  induction l as [ | y l IH ]; intro S; simpl.
  - constructor; constructor.
  - destruct (Z.ltb_spec (key y) (key x)) as [L | L].
    + constructor; [ exact S | constructor; lia ].
    + inversion S as [ | y' l' Sl Hd ]; subst.
      constructor; [ exact (IH Sl) | ].
      destruct l as [ | z l ]; simpl.
      * constructor. exact L.
      * destruct (Z.ltb (key z) (key x)); constructor;
          [ exact L | inversion Hd; assumption ].
Qed.

Lemma order_by_desc_sorted {A : Type} (key : A -> Z) (l : list A) :
  Sorted (fun a b => (key b <= key a)%Z) (order_by_desc key l).
Proof.
  induction l as [ | x l IH ]; simpl; [ constructor | ].
  apply insert_desc_sorted. exact IH.
Qed.

Lemma Forall2_map_eq {A B C : Type} (R : A -> B -> Prop) (f : A -> C)
      (g : B -> C) (l : list A) (l' : list B) :
  (forall a b, R a b -> g b = f a) ->
  Forall2 R l l' -> map g l' = map f l.
Proof.
  intros H F. induction F as [ | a b l l' Rab F IH ]; [ reflexivity | ].
  simpl. rewrite (H a b Rab), IH. reflexivity.
Qed.

Lemma Sorted_map {A : Type} (key : A -> Z) (l : list A) :
  Sorted (fun a b => (key b <= key a)%Z) l ->
  Sorted (fun a b => (b <= a)%Z) (map key l).
Proof.
  induction 1 as [ | a l S IH Hd ]; simpl; constructor; [ exact IH | ].
  destruct Hd; simpl; constructor. assumption.
Qed.

(** X8. [get_by_status] raises only when the store does (never a
    [ValueError]: the rows it selects carry the value of the status asked
    for); otherwise every document it returns has that status, the
    documents come newest first, and their ids are, up to order, the ids of
    the rows of the table that have the status. *)
Theorem get_by_status_spec (status : ProcessingStatus) (w : World) :
  match hd None (db_faults w) with
  | Some msg =>
      get_by_status status w = (pop_fault w, Raise (DatabaseError msg))
  | None =>
      exists ds,
        get_by_status status w = (pop_fault w, Ok ds)
        /\ Forall (fun d => processing_status d = status) ds
        /\ Sorted (fun a b => (b <= a)%Z) (map upload_date ds)
        /\ Permutation
             (map id ds)
             (map (fun row => Some (d_id row))
                  (filter (fun row => String.eqb (d_processing_status row)
                                                 (status_value status))
                          (documents w)))
  end.
Proof.
  rewrite get_by_status_run.
  destruct (hd None (db_faults w)); [ reflexivity | ].
  unfold select_by_status. cbn [snd].
  set (rows := order_by_desc d_upload_date
                 (filter (fun d => String.eqb (d_processing_status d)
                                              (status_value status))
                         (documents w))).
  assert (forall row, In row rows ->
                      d_processing_status row = status_value status) as St.
  { intros row I. apply in_order_by_desc, filter_In in I.
    apply String.eqb_eq. exact (proj2 I). }
  destruct (convert_rows_total rows) as (ds & C).
  { intros row I. rewrite (St row I), status_round_trip. discriminate. }
  exists ds. split; [ rewrite C; reflexivity | ].
  apply convert_rows_Forall2 in C.
  split; [ | split ].
  - clear - C St. induction C as [ | row d rows ds R C IH ]; constructor.
    + destruct (row_to_document_fields row d R) as (S & _).
      rewrite (St row (or_introl eq_refl)), status_round_trip in S.
      congruence.
    + apply IH. intros r I. apply St. right. exact I.
  - rewrite (Forall2_map_eq (fun r b => _row_to_document r = Ok b)
               d_upload_date upload_date rows ds);
      [ apply Sorted_map, order_by_desc_sorted | | exact C ].
    intros row d R. exact (proj1 (proj2 (proj2 (row_to_document_fields row d R)))).
  - rewrite (Forall2_map_eq (fun r b => _row_to_document r = Ok b)
               (fun row => Some (d_id row)) id rows ds);
      [ apply Permutation_map, order_by_desc_perm | | exact C ].
    intros row d R. exact (proj1 (proj2 (row_to_document_fields row d R))).
Qed.

End Readers.
(** ** Writing and reading back *)

Section RoundTrips.

Import DocumentRepository.

Lemma filter_none {A : Type} (f : A -> bool) (l : list A) :
  (forall x, In x l -> f x = false) -> filter f l = [].
Proof.
  induction l as [ | a l IH ]; intro H; simpl; [ reflexivity | ].
  rewrite (H a (or_introl eq_refl)). apply IH.
  intros x I. apply H. right. exact I.
Qed.


Lemma find_filter_some {A : Type} (f : A -> bool) (l : list A) :
  Z.ltb 0 (Z.of_nat (List.length (filter f l)))
  = match find f l with Some _ => true | None => false end.
Proof.
  induction l as [ | a l IH ]; simpl; [ reflexivity | ].
  destruct (f a); [ | exact IH ].
  cbn [List.length]. apply Z.ltb_lt. lia.
Qed.

(** X9. [update_status] on a store that answers: it tells whether a row
    with the id exists; it leaves every other document, the patient rows
    and the log alone; and on the row itself it writes all three columns,
    so that the text and the errors stored before are replaced by the
    arguments of this call, by NULL when they are omitted. *)
Theorem update_status_overwrites
        (k : Z) (status : ProcessingStatus) (text : option string)
        (errs : option (list string)) (w : World) :
  hd None (db_faults w) = None ->
  exists w',
    update_status (Some k) status text errs w
    = (w', Ok (match find_document w k with
               | Some _ => true
               | None => false
               end))
    /\ (forall j, j <> k -> find_document w' j = find_document w j)
    /\ (forall d,
           find_document w k = Some d ->
           exists d',
             find_document w' k = Some d'
             /\ d_processing_status d' = status_value status
             /\ d_extracted_text d' = text
             /\ d_processing_errors d' = errs
             /\ d_id d' = k /\ d_filename d' = d_filename d
             /\ d_file_path d' = d_file_path d
             /\ d_upload_date d' = d_upload_date d)
    /\ patients w' = patients w
    /\ processing_logs w' = processing_logs w.
Proof.
  intro F. rewrite update_status_run, F.
  exists (with_documents
            (map (updated_row (Some k) status text errs) (documents w))
            (documents_id_seq w) (pop_fault w)).
  split; [ | split; [ | split; [ | split; reflexivity ] ] ].
  - unfold find_document. cbn [sql_eq]. rewrite find_filter_some.
    reflexivity.
  - intros j N. unfold find_document.
    cbn [documents with_documents]. rewrite find_updated_row.
    destruct (find (fun d => Z.eqb (d_id d) j) (documents w)) as [ d | ] eqn:E;
      [ | reflexivity ].
    cbn [option_map]. unfold updated_row. cbn [sql_eq].
    apply find_some in E. destruct E as [_ E]. apply Z.eqb_eq in E.
    destruct (Z.eqb_spec (d_id d) k); [ lia | reflexivity ].
  - intros d E. unfold find_document in *.
    cbn [documents with_documents]. rewrite find_updated_row, E.
    cbn [option_map]. eexists. split; [ reflexivity | ].
    apply find_some in E. destruct E as [_ E].
    unfold updated_row. cbn [sql_eq]. rewrite E. cbn.
    apply Z.eqb_eq in E. auto 10.
Qed.

Lemma update_status_overwrites_example :
  exists w',
    update_status (Some 1%Z) FAILED None (Some ["boom"])
                  Examples.stored_world
    = (w', Ok true)
    /\ option_map d_extracted_text (find_document w' 1) = Some None
    /\ option_map d_extracted_text (find_document Examples.stored_world 1)
       = Some (Some "Patient Ann Lee Call 555-123-4567 ann@example.org").
Proof.
  destruct (update_status_overwrites
              1 FAILED None (Some ["boom"]) Examples.stored_world eq_refl)
    as (w' & R & _ & H & _).
  exists w'. split; [ exact R | ].
  split; [ | reflexivity ].
  destruct (H _ eq_refl) as (d' & E & _ & T & _). rewrite E, <- T. reflexivity.
Defined.

End RoundTrips.

(** ** Deleting a document *)

Section Deleting.

Import Deletion.

Lemma delete_run (document_id : option Z) (w : World) :
  delete document_id w
  = match hd None (db_faults w) with
    | Some msg => (pop_fault w, Raise (DatabaseError msg))
    | None =>
        let w1 := fst (delete_patients document_id (pop_fault w)) in
        match hd None (db_faults w1) with
        | Some msg => (pop_fault w1, Raise (DatabaseError msg))
        | None =>
            match delete_document document_id (pop_fault w1) with
            | (w2, Ok affected_rows) => (w2, Ok (Z.ltb 0 affected_rows))
            | (w2, Raise ex) => (w2, Raise ex)
            end
        end
    end.
Proof.
  unfold delete, delete_by_document_id, bind, execute, execute_checked, ret.
  destruct (hd None (db_faults w)); [ reflexivity | ].
  cbn [delete_patients fst db_faults with_patients pop_fault with_faults].
  destruct (hd None (tl (db_faults w))); [ reflexivity | ].
  match goal with
  | |- context [delete_document ?i ?x] =>
      destruct (delete_document i x) as [w2 [ n | ex ]]
  end; reflexivity.
Qed.

Lemma find_after_delete (k j : Z) (ds : list DocumentRow) :
  find (fun d => Z.eqb (d_id d) j)
       (filter (fun d => negb (Z.eqb (d_id d) k)) ds)
  = if Z.eqb j k then None else find (fun d => Z.eqb (d_id d) j) ds.
Proof.
  induction ds as [ | d ds IH ]; simpl; [ destruct (Z.eqb j k); reflexivity | ].
  destruct (Z.eqb_spec (d_id d) k) as [ E | N ]; simpl.
  - rewrite IH. destruct (Z.eqb_spec j k) as [ | N' ]; [ reflexivity | ].
    destruct (Z.eqb_spec (d_id d) j); [ lia | reflexivity ].
  - destruct (Z.eqb_spec (d_id d) j) as [ E' | ]; [ | exact IH ].
    destruct (Z.eqb_spec j k); [ lia | reflexivity ].
Qed.


Lemma existsb_filter_negb {A : Type} (f : A -> bool) (l : list A) :
  existsb f (filter (fun x => negb (f x)) l) = false.
Proof.
  induction l as [ | a l IH ]; simpl; [ reflexivity | ].
  destruct (f a) eqn:E; simpl; [ exact IH | ]. rewrite E. exact IH.
Qed.

Lemma existsb_filter_const {A : Type} (f g : A -> bool) (b : bool)
      (l : list A) :
  (forall x, f x = true -> g x = b) ->
  existsb g (filter f l)
  = match find f l with Some _ => b | None => false end.
Proof.
  intro H. induction l as [ | a l IH ]; simpl; [ reflexivity | ].
  destruct (f a) eqn:E; [ | exact IH ].
  simpl. rewrite (H a E), IH.
  destruct (find f l); destruct b; reflexivity.
Qed.

Lemma remaining_patients (k : Z) (ps : list PatientRow) (p : PatientRow) :
  In p (filter (fun p => negb (sql_eq_opt (p_document_id p) (Some k))) ps)
  <-> In p ps /\ p_document_id p <> Some k.
Proof.
  rewrite filter_In.
  destruct (p_document_id p) as [ j | ]; cbn [sql_eq_opt sql_eq negb].
  - destruct (Z.eqb_spec j k) as [ -> | N ]; cbn [negb].
    + split; [ intros [_ H]; discriminate | intros [_ H]; congruence ].
    + split; [ intros [I _]; split; [ exact I | congruence ]
             | intros [I _]; auto ].
  - split; [ intros [I _]; split; [ exact I | discriminate ]
           | intros [I _]; auto ].
Qed.

(** X10. [DocumentRepository.delete] on a store that answers both
    statements first deletes the patient rows of the document; every
    other patient row and the processing log stay.  Then, when no
    document has the id, it returns [False]; when the document exists and
    no log row names it, the document is deleted, every other document
    stays and the call returns [True]; and when a log row names the
    document, as after every processing, the server refuses the second
    statement for the foreign key of [processing_logs]: the call raises
    and the document stays, without its patient rows. *)
Theorem delete_removes_document_and_patients (k : Z) (w : World) :
  hd None (db_faults w) = None ->
  hd None (tl (db_faults w)) = None ->
  exists w' out,
    delete (Some k) w = (w', out)
    /\ (forall p, In p (patients w')
                  <-> In p (patients w) /\ p_document_id p <> Some k)
    /\ processing_logs w' = processing_logs w
    /\ match find_document w k with
       | None =>
           out = Ok false
           /\ forall j, find_document w' j = find_document w j
       | Some _ =>
           if existsb (fun l => sql_eq_opt (l_document_id l) (Some k))
                      (processing_logs w)
           then out = Raise foreign_key_violation
                /\ documents w' = documents w
           else out = Ok true
                /\ find_document w' k = None
                /\ forall j, j <> k -> find_document w' j = find_document w j
       end.
Proof.
  intros F1 F2. rewrite delete_run, F1.
  cbn [delete_patients fst db_faults with_patients pop_fault with_faults].
  rewrite F2. unfold delete_document.
  cbn [documents patients processing_logs with_patients with_faults
       documents_id_seq sql_eq].
  rewrite (existsb_filter_const
             (fun d => Z.eqb (d_id d) k) _
             (existsb (fun l => sql_eq_opt (l_document_id l) (Some k))
                      (processing_logs w))).
  2:{ intros d E. apply Z.eqb_eq in E. unfold referenced.
      rewrite E.
      cbn [patients processing_logs pop_fault with_faults with_patients].
      rewrite (existsb_filter_negb
                 (fun p => sql_eq_opt (p_document_id p) (Some k))).
      reflexivity. }
  unfold find_document.
  cbn [documents patients processing_logs with_patients with_faults
       pop_fault documents_id_seq].
  destruct (find (fun d => Z.eqb (d_id d) k) (documents w)) as [ d | ] eqn:Fd.
  - destruct (existsb (fun l => sql_eq_opt (l_document_id l) (Some k))
                      (processing_logs w)).
    + eexists. eexists. split; [ reflexivity | ].
      cbn [documents patients processing_logs with_patients with_faults].
      split; [ intro p; apply remaining_patients | ].
      split; [ reflexivity | ]. split; reflexivity.
    + eexists. eexists. split; [ reflexivity | ].
      cbn [documents patients processing_logs with_documents with_patients
           with_faults].
      split; [ intro p; apply remaining_patients | ].
      split; [ reflexivity | ].
      split; [ | split ].
      * f_equal. rewrite find_filter_some, Fd. reflexivity.
      * rewrite find_after_delete, Z.eqb_refl. reflexivity.
      * intros j N. rewrite find_after_delete.
        destruct (Z.eqb_spec j k); [ lia | reflexivity ].
  - eexists. eexists. split; [ reflexivity | ].
    cbn [documents patients processing_logs with_documents with_patients
         with_faults].
    split; [ intro p; apply remaining_patients | ].
    split; [ reflexivity | ].
    split.
    + f_equal. rewrite find_filter_some, Fd. reflexivity.
    + intro j. rewrite find_after_delete.
      destruct (Z.eqb_spec j k) as [ -> | ]; [ | reflexivity ].
      symmetry. exact Fd.
Qed.

Lemma delete_removes_document_and_patients_example :
  (exists w',
      delete (Some 1%Z) Examples.unlogged_world = (w', Ok true)
      /\ find_document w' 1 = None
      /\ patients w' = [])
  /\ (exists w',
         delete (Some 1%Z) Examples.stored_world
         = (w', Raise foreign_key_violation)
         /\ doc_status w' 1 = Some "needs_review"
         /\ patients w' = []
         /\ List.length (patients Examples.stored_world) = 1%nat).
Proof.
  split.
  - destruct (delete_removes_document_and_patients
                1 Examples.unlogged_world eq_refl eq_refl)
      as (w' & out & R & _ & _ & H).
    assert (find_document Examples.unlogged_world 1 <> None) as Fd
      by (vm_compute; discriminate).
    destruct (find_document Examples.unlogged_world 1); [ | congruence ].
    cbn in H. destruct H as (-> & D & _).
    exists w'. split; [ exact R | ]. split; [ exact D | ].
    vm_compute in R. inversion R. reflexivity.
  - destruct (delete_removes_document_and_patients
                1 Examples.stored_world eq_refl eq_refl)
      as (w' & out & R & _ & _ & H).
    assert (find_document Examples.stored_world 1 <> None) as Fd
      by (vm_compute; discriminate).
    destruct (find_document Examples.stored_world 1); [ | congruence ].
    cbn in H. destruct H as (-> & D).
    exists w'. split; [ exact R | ].
    unfold doc_status, find_document. rewrite D.
    split; [ reflexivity | ].
    vm_compute in R. inversion R. split; reflexivity.
Defined.

(** X11. [DocumentRepository.delete] is not atomic: its two statements are
    committed one by one.  When the store carries out the deletion of the
    patient rows and then refuses the deletion of the document, the call
    raises, the document is still in the table, unchanged, and its patient
    rows are gone. *)
Theorem delete_is_not_atomic (k : Z) (msg : string) (w : World) :
  hd None (db_faults w) = None ->
  hd None (tl (db_faults w)) = Some msg ->
  exists w',
    delete (Some k) w = (w', Raise (DatabaseError msg))
    /\ documents w' = documents w
    /\ (forall p, In p (patients w')
                  <-> In p (patients w) /\ p_document_id p <> Some k)
    /\ forall d, d_id d = k -> linked_patients w' d = [].
Proof.
  intros F1 F2. rewrite delete_run, F1.
  cbn [delete_patients fst db_faults with_patients pop_fault with_faults].
  rewrite F2. eexists. split; [ reflexivity | ].
  cbn [documents patients with_faults].
  pose proof (remaining_patients k (patients w)) as P.
  split; [ reflexivity | ]. split; [ exact P | ].
  intros d E.
  unfold linked_patients. cbn [patients]. apply filter_none.
  intros p I. apply P in I. destruct I as [_ N].
  destruct (p_document_id p) as [ j | ]; [ | reflexivity ].
  cbn [sql_eq_opt sql_eq]. apply Z.eqb_neq. congruence.
Qed.

Lemma delete_is_not_atomic_example :
  exists w',
    delete (Some 1%Z)
           (with_faults [None; Some "violates foreign key constraint"]
                        Examples.stored_world)
    = (w', Raise (DatabaseError "violates foreign key constraint"))
    /\ doc_status w' 1 = Some "needs_review"
    /\ patients w' = []
    /\ List.length (patients Examples.stored_world) = 1%nat.
Proof.
  destruct (delete_is_not_atomic
              1 "violates foreign key constraint"
              (with_faults [None; Some "violates foreign key constraint"]
                           Examples.stored_world) eq_refl eq_refl)
    as (w' & R & D & _).
  exists w'. split; [ exact R | ].
  vm_compute in R. inversion R. repeat split; reflexivity.
Defined.

End Deleting.

(** ** Batches *)

Section BatchResults.

Variable e : Collaborators.



(** What the loop appends on this code: [process_document] raises for
    every file, so every file gets the record of the [except] clause of
    the loop. *)
Lemma process_files_failures (files : list string) :
  forall (results : list ProcessingResult) (w : World),
  exists w' rs,
    process_files e files results w = (w', Ok (results ++ rs)%list)
    /\ List.length rs = List.length files
    /\ Forall (fun r =>
                 success r = false
                 /\ document_id r = Some 0%Z
                 /\ extracted_data r = None
                 /\ errors r = [str_exn (UnboundLocalError "document_id")]
                 /\ confidence_score r = 0) rs
    /\ documents w' = documents w
    /\ patients w' = patients w
    /\ processing_logs w' = processing_logs w.
Proof.
  induction files as [ | file files IH ]; intros results w.
  - exists w, []. rewrite app_nil_r. repeat split. constructor.
  - cbn [process_files]. unfold bind, try_except.
    rewrite (process_document_run e file w). cbn [ret].
    match goal with
    | |- context [process_files e files (results ++ [?r0])%list ?w1] =>
        destruct (IH (results ++ [r0])%list w1)
          as (w' & rs & R & L & F & D & P & G);
        exists w', (r0 :: rs)
    end.
    rewrite R, <- app_assoc.
    split; [ reflexivity | ].
    split; [ cbn [List.length]; rewrite L; reflexivity | ].
    split; [ constructor; [ repeat split | exact F ] | ].
    rewrite D, P, G. destruct (stat_size e file); repeat split.
Qed.

(** X13. On this code a batch processes nothing: for a folder that
    exists, [process_batch] returns one result per file it found and
    every one of them is the same failure, with the flag [success]
    unset, the id 0, no data, score 0 and as only error the text of the
    [UnboundLocalError] that left [process_document]; the three tables
    are as before. *)
Theorem process_batch_only_failures
        (folder : string) (entries : list string) (w : World) :
  scandir e folder = Some entries ->
  exists w' rs,
    process_batch e folder w = (w', Ok rs)
    /\ List.length rs = List.length (supported_files folder entries)
    /\ Forall (fun r =>
                 success r = false
                 /\ document_id r = Some 0%Z
                 /\ extracted_data r = None
                 /\ errors r = [str_exn (UnboundLocalError "document_id")]
                 /\ confidence_score r = 0) rs
    /\ documents w' = documents w
    /\ patients w' = patients w
    /\ processing_logs w' = processing_logs w.
Proof.
  intro S. unfold process_batch. rewrite S.
  destruct (process_files_failures (supported_files folder entries) [] w)
    as (w' & rs & R & H).
  exists w', rs. split; [ exact R | exact H ].
Qed.

End BatchResults.

Lemma process_batch_only_failures_example :
  exists w' r1 r2,
    process_batch Examples.env "in" Examples.stored_world
    = (w', Ok [r1; r2])
    /\ success r1 = false /\ success r2 = false
    /\ documents w' = documents Examples.stored_world.
Proof.
  destruct (process_batch_only_failures
              Examples.env "in" ["a.pdf"; "scan.Pdf"; "c.PNG"]
              Examples.stored_world eq_refl)
    as (w' & rs & R & L & F & D & _).
  destruct rs as [ | r1 [ | r2 [ | r3 rs ] ] ]; try discriminate L.
  exists w', r1, r2. split; [ exact R | ].
  inversion F as [ | ? ? (S1 & _) F' ]; subst.
  inversion F' as [ | ? ? (S2 & _) _ ]; subst.
  split; [ exact S1 | ]. split; [ exact S2 | exact D ].
Defined.

(** ** The review form *)

Section Review.

Import DocumentRepository Routes.


End Review.


(** ** The batch endpoint *)

Section BatchEndpoint.

Import Routes.

Variable e : Collaborators.

Lemma filter_length_le {A : Type} (f : A -> bool) (l : list A) :
  (List.length (filter f l) <= List.length l)%nat.
Proof.
  induction l as [ | a l IH ]; simpl; [ lia | ].
  destruct (f a); simpl; lia.
Qed.

(** X15. [POST /api/process-batch] answers 500 [Internal server error]
    when the folder does not exist, hiding the message of the
    [ValueError], and leaves the store as it was.  For a folder that exists
    it always answers with the flag [success] set, also when no document
    succeeded: the number of processed documents is the number of files
    found, the number of successful ones is the number of entries of
    [results] whose flag is set, and it is at most the number processed. *)
Theorem api_process_batch_counts (folder : string) (w : World) :
  match scandir e folder with
  | None =>
      api_process_batch e folder w
      = (w, HTTPException 500 "Internal server error")
  | Some entries =>
      exists w' good results,
        api_process_batch e folder w
        = (w',
           BatchJson true
                     (Z.of_nat (List.length (supported_files folder entries)))
                     good results)
        /\ List.length results = List.length (supported_files folder entries)
        /\ good = Z.of_nat (List.length (filter fst results))
        /\ (0 <= good <= Z.of_nat (List.length results))%Z
  end.
Proof.
  unfold api_process_batch.
  destruct (scandir e folder) as [ entries | ] eqn:S.
  - destruct (process_batch_total e folder entries w S) as (w' & rs & R & L).
    rewrite R. eexists. eexists. eexists.
    split; [ rewrite L; reflexivity | ].
    split; [ rewrite length_map; exact L | ].
    assert (List.length (filter fst (map (fun r => (success r, errors r)) rs))
            = List.length (filter success rs)) as C.
    { clear. induction rs as [ | r rs IH ]; simpl; [ reflexivity | ].
      destruct (success r); simpl; rewrite IH; reflexivity. }
    split; [ rewrite C; reflexivity | ].
    rewrite length_map. pose proof (filter_length_le success rs). lia.
  - unfold process_batch. rewrite S. reflexivity.
Qed.

End BatchEndpoint.

(** ** Validators of app/utils against the extractors *)

Section Validators.

Import Re Utils Utils.ValidationUtils.

(** The greedy repetition finds a match whenever the continuation accepts
    the position after some run of the class that is long enough. *)
Lemma rep_complete (p : ascii -> bool) (k : mstate -> option mstate)
      (t : string) :
  (forall st', rest st' = t -> k st' <> None) ->
  forall u st lo,
    rest st = u ++ t ->
    forall_str p u = true ->
    (lo <= String.length u)%nat ->
    rep p lo None (u ++ t) st k <> None.
Proof.
  intros K u. induction u as [ | c u IH ]; intros st lo R F L.
  - cbn [String.length] in L. assert (lo = 0%nat) as -> by lia.
    cbn [append] in *. destruct t as [ | c t ]; cbn [rep hi_allows Nat.eqb].
    + apply K. exact R.
    + destruct (p c); [ | apply K; exact R ].
      destruct (rep p (Nat.pred 0) (hi_pred None) t (advance c t st) k);
        [ discriminate | apply K; exact R ].
  - cbn [append rep hi_allows]. cbn [forall_str] in F.
    apply andb_true_iff in F. destruct F as [Pc F]. rewrite Pc.
    cbn [String.length] in L.
    specialize (IH (advance c (u ++ t) st) (Nat.pred lo) eq_refl F).
    cbn [hi_pred].
    destruct (rep p (Nat.pred lo) None (u ++ t) (advance c (u ++ t) st) k);
      [ discriminate | ].
    exfalso. apply IH; [ lia | reflexivity ].
Qed.

Lemma at_end_accepts (st : mstate) : rest st = EmptyString -> at_end st <> None.
Proof. unfold at_end. intros ->. discriminate. Qed.

Lemma filter_digits_of_phone (a b c : string) :
  forall_str isdecimal a = true ->
  forall_str isdecimal b = true ->
  forall_str isdecimal c = true ->
  filter_str isdecimal ("(" ++ a ++ ") " ++ b ++ "-" ++ c) = a ++ b ++ c.
Proof.
  intros A B C.
  rewrite !filter_str_app, (filter_str_all _ a A), (filter_str_all _ b B),
    (filter_str_all _ c C).
  reflexivity.
Qed.

(** X16. [ValidationUtils.is_valid_phone] accepts every phone number that
    [_extract_phone] produces: the formatted text holds exactly ten
    decimal digits. *)
Theorem extracted_phone_is_valid (text p : string) :
  _extract_phone text = Some p ->
  is_valid_phone p = true
  /\ String.length (filter_str isdecimal p) = 10%nat.
Proof.
  intro H.
  destruct (phone_match_shape text p H)
    as (a & b & c & _ & _ & _ & _ & Ep & _ & La & Lb & Lc & Da & Db & Dc
        & _).
  subst p.
  assert (String.length
            (filter_str isdecimal ("(" ++ a ++ ") " ++ b ++ "-" ++ c))
          = 10%nat) as L.
  { rewrite (filter_digits_of_phone a b c Da Db Dc), !length_app. lia. }
  split; [ | exact L ].
  unfold is_valid_phone. cbn [append truthy_str]. cbv zeta.
  cbn [append] in L. rewrite L. reflexivity.
Qed.

Lemma extracted_phone_is_valid_example :
  is_valid_phone "(555) 123-4567" = true
  /\ String.length (filter_str isdecimal "(555) 123-4567") = 10%nat.
Proof.
  apply (extracted_phone_is_valid "Call 555-123-4567").
  vm_compute. reflexivity.
Defined.

(** X17. On texts of code points below 256 the validator
    [is_valid_insurance_id] and the extractor [_extract_insurance_info]
    agree on the characters but not on the length: an identifier
    extracted from such a text is valid exactly when it has at least three
    characters, so identifiers of one or two characters are extracted and
    then rejected. *)
Theorem extracted_insurance_id_validity (text v : string) :
  _extract_insurance_info text = Some v ->
  is_valid_insurance_id v = Nat.leb 3 (String.length v).
Proof.
  intro H.
  destruct (insurance_match_shape text v H)
    as (_ & _ & _ & _ & _ & _ & _ & D & L).
  unfold is_valid_insurance_id.
  rewrite (truthy_length v L).
  assert (match_to_end insurance_id_format v = true) as M.
  { unfold match_to_end, insurance_id_format, Plus. cbn [run rest].
    pose proof (rep_complete
                  (fun c => (isupper_ascii c || islower_ascii c
                             || between 48 57 c || is_char "-" c)%bool)
                  at_end EmptyString at_end_accepts v
                  {| prev := None; rest := v; pos := 0; caps := [] |} 1%nat)
      as C.
    rewrite app_empty_r in C. specialize (C eq_refl D L).
    destruct (rep _ 1 None v _ at_end); [ reflexivity | congruence ]. }
  rewrite M. reflexivity.
Qed.

Lemma extracted_insurance_id_validity_example :
  _extract_insurance_info "policy: A1" = Some "A1"
  /\ is_valid_insurance_id "A1" = false.
Proof.
  split; [ reflexivity | ].
  apply (extracted_insurance_id_validity "policy: A1"). reflexivity.
Defined.

Lemma email_format_accepts (l d t : string) :
  forall_str (fun c => (alnum_ascii c || is_char "." c || is_char "_" c
                        || is_char "%" c || is_char "+" c
                        || is_char "-" c)%bool) l = true ->
  (1 <= String.length l)%nat ->
  forall_str (fun c => (alnum_ascii c || is_char "." c
                        || is_char "-" c)%bool) d = true ->
  (1 <= String.length d)%nat ->
  forall_str (fun c => (isupper_ascii c || is_char "|" c
                        || islower_ascii c)%bool) t = true ->
  (2 <= String.length t)%nat ->
  match_to_end email_format (l ++ "@" ++ d ++ "." ++ t) = true.
Proof.
  intros Fl Ll Fd Ld Ft Lt.
  unfold match_to_end.
  match goal with
  | |- match ?r with Some _ => true | None => false end = true =>
      assert (r <> None) as N; [ | destruct r; [ reflexivity | congruence ] ]
  end.
  unfold email_format, Plus, AtLeast. cbn [run rest].
  apply rep_complete; [ | reflexivity | exact Fl | exact Ll ].
  intros s1 R1. rewrite R1. cbn [append]. cbn [is_char Ascii.eqb Bool.eqb].
  cbn [rest advance].
  apply rep_complete; [ | reflexivity | exact Fd | exact Ld ].
  intros s2 R2. rewrite R2. cbn [append]. cbn [is_char Ascii.eqb Bool.eqb].
  cbn [rest advance].
  pose proof (rep_complete
                (fun c => (isupper_ascii c || is_char "|" c
                           || islower_ascii c)%bool)
                at_end EmptyString at_end_accepts t
                (advance "." t s2) 2%nat) as C.
  rewrite app_empty_r in C. apply C; [ reflexivity | exact Ft | exact Lt ].
Qed.

(** X18. [ValidationUtils.is_valid_email] accepts every address that
    [_extract_email] produces. *)
Theorem extracted_email_is_valid (text m : string) :
  _extract_email text = Some m -> is_valid_email m = true.
Proof.
  intro H. unfold is_valid_email.
  rewrite (extracted_email_truthy text m H).
  destruct (email_match_shape text m H)
    as (_ & l & d & t & _ & _ & E & Fl & Ll & Fd & Ld & Ft & Lt).
  subst m. apply email_format_accepts; assumption.
Qed.

Lemma extracted_email_is_valid_example :
  is_valid_email "j.roe@clinic.or|g" = true.
Proof.
  apply (extracted_email_is_valid "mail: j.roe@clinic.or|g now").
  vm_compute. reflexivity.
Defined.

End Validators.

(** ** Pagination *)

Section Pagination.

Import Utils.ResponseUtils.

(** X19. For a positive page size, the [pages] entry of
    [paginated_response] is the least number of pages that holds [total]
    items: that many pages are enough and one page less is not.  With page
    size 0 the function raises instead of answering. *)
Theorem paginated_response_pages (page_ per_page_ total_ : Z) :
  (0 < per_page_)%Z ->
  paginated_response page_ 0 total_ = None
  /\ exists pg,
      paginated_response page_ per_page_ total_ = Some pg
      /\ page pg = page_ /\ per_page pg = per_page_ /\ total pg = total_
      /\ (total_ <= pages pg * per_page_)%Z
      /\ ((pages pg - 1) * per_page_ < total_)%Z.
Proof.
  intro P. split; [ reflexivity | ].
  unfold paginated_response.
  destruct (Z.eqb_spec per_page_ 0) as [ E | _ ]; [ lia | ].
  eexists. split; [ reflexivity | ]. cbn [page per_page total pages].
  repeat split.
  - pose proof (Z.div_mod (total_ + per_page_ - 1) per_page_ ltac:(lia)) as D.
    pose proof (Z.mod_pos_bound (total_ + per_page_ - 1) per_page_ P) as B.
    nia.
  - pose proof (Z.div_mod (total_ + per_page_ - 1) per_page_ ltac:(lia)) as D.
    pose proof (Z.mod_pos_bound (total_ + per_page_ - 1) per_page_ P) as B.
    nia.
Qed.

Lemma paginated_response_pages_example :
  paginated_response 1 0 41 = None
  /\ exists pg,
      paginated_response 1 10 41 = Some pg
      /\ page pg = 1%Z /\ per_page pg = 10%Z /\ total pg = 41%Z
      /\ (41 <= pages pg * 10)%Z
      /\ ((pages pg - 1) * 10 < 41)%Z.
Proof.
  apply (paginated_response_pages 1 10 41). lia.
Defined.

End Pagination.

(** ** Cleaning texts and file names *)

Section Cleaning.

Import Utils Utils.FileUtils Utils.TextUtils.

Lemma lstrip_is (s : string) : lstrip s = lstrip_by isspace s.
Proof.
  induction s as [ | c s IH ]; [ reflexivity | ].
  cbn [lstrip lstrip_by]. rewrite IH. reflexivity.
Qed.

Lemma rstrip_is (s : string) : rstrip s = rstrip_by isspace s.
Proof.
  induction s as [ | c s IH ]; [ reflexivity | ].
  cbn [rstrip rstrip_by]. rewrite IH. reflexivity.
Qed.

Variable p : ascii -> bool.

Lemma no_run_weaken (b : bool) (s : string) :
  no_run p b s = true -> no_run p false s = true.
Proof.
  destruct s as [ | c s ]; [ reflexivity | ].
  cbn [no_run]. destruct (p c); [ | auto ].
  intro H. apply andb_true_iff in H. destruct H as [_ H]. exact H.
Qed.

Lemma no_run_tail (b : bool) (c : ascii) (s : string) :
  no_run p b (String c s) = true -> no_run p false s = true.
Proof.
  cbn [no_run]. destruct (p c).
  - intro H. apply andb_true_iff in H. destruct H as [_ H].
    exact (no_run_weaken true s H).
  - auto.
Qed.

Lemma sub_runs_no_run (repl : ascii) (s : string) :
  p repl = true ->
  forall b, no_run p b (sub_runs p repl b s) = true.
Proof.
  intro R. induction s as [ | c s IH ]; intro b; [ reflexivity | ].
  cbn [sub_runs]. destruct (p c) eqn:P.
  - destruct b; [ apply IH | ].
    cbn [no_run]. rewrite R. cbn [negb andb]. apply IH.
  - cbn [no_run]. rewrite P. apply IH.
Qed.

Lemma sub_runs_chars (repl : ascii) (s : string) :
  forall b,
    forall_str (fun c => (negb (p c) || Ascii.eqb c repl)%bool)
               (sub_runs p repl b s) = true.
Proof.
  induction s as [ | c s IH ]; intro b; [ reflexivity | ].
  cbn [sub_runs]. destruct (p c) eqn:P.
  - destruct b; [ apply IH | ].
    cbn [forall_str]. rewrite Ascii.eqb_refl, orb_true_r. apply IH.
  - cbn [forall_str]. rewrite P. apply IH.
Qed.

Lemma sub_runs_keeps_others (repl : ascii) (s : string) :
  p repl = true ->
  forall b,
    filter_str (fun c => negb (p c)) (sub_runs p repl b s)
    = filter_str (fun c => negb (p c)) s.
Proof.
  intro R. induction s as [ | c s IH ]; intro b; [ reflexivity | ].
  cbn [sub_runs filter_str]. destruct (p c) eqn:P; cbn [negb].
  - destruct b; [ apply IH | ].
    cbn [filter_str]. rewrite R. cbn [negb]. apply IH.
  - cbn [filter_str]. rewrite P. cbn [negb]. rewrite IH. reflexivity.
Qed.

Lemma sub_runs_fixed (repl : ascii) (s : string) :
  forall b,
    no_run p b s = true ->
    forall_str (fun c => (negb (p c) || Ascii.eqb c repl)%bool) s = true ->
    sub_runs p repl b s = s.
Proof.
  induction s as [ | c s IH ]; intros b N F; [ reflexivity | ].
  cbn [sub_runs no_run forall_str] in *.
  apply andb_true_iff in F. destruct F as [Fc F].
  destruct (p c) eqn:P.
  - apply andb_true_iff in N. destruct N as [Nb N].
    destruct b; [ discriminate | ].
    cbn [negb orb] in Fc. apply Ascii.eqb_eq in Fc. subst c.
    rewrite (IH true N F). reflexivity.
  - rewrite (IH false N F). reflexivity.
Qed.

(** Stripping keeps a part of the text. *)
Lemma lstrip_by_forall (q r : ascii -> bool) (s : string) :
  forall_str r s = true -> forall_str r (lstrip_by q s) = true.
Proof.
  induction s as [ | c s IH ]; [ reflexivity | ].
  intro F. cbn [lstrip_by]. destruct (q c); [ | exact F ].
  cbn [forall_str] in F. apply andb_true_iff in F. apply IH, F.
Qed.

Lemma rstrip_by_forall (q r : ascii -> bool) (s : string) :
  forall_str r s = true -> forall_str r (rstrip_by q s) = true.
Proof.
  induction s as [ | c s IH ]; [ reflexivity | ].
  intro F. cbn [forall_str] in F. apply andb_true_iff in F.
  destruct F as [Fc F]. specialize (IH F). cbn [rstrip_by].
  destruct (rstrip_by q s) as [ | d t ].
  - destruct (q c); [ reflexivity | ]. cbn [forall_str]. rewrite Fc.
    reflexivity.
  - cbn [forall_str] in *. rewrite Fc. exact IH.
Qed.

Lemma lstrip_by_no_run (q : ascii -> bool) (s : string) :
  forall b, no_run p b s = true -> no_run p false (lstrip_by q s) = true.
Proof.
  induction s as [ | c s IH ]; intros b N; [ reflexivity | ].
  cbn [lstrip_by]. destruct (q c).
  - exact (IH false (no_run_tail b c s N)).
  - exact (no_run_weaken b _ N).
Qed.

Lemma rstrip_by_no_run (q : ascii -> bool) (s : string) :
  forall b, no_run p b s = true -> no_run p b (rstrip_by q s) = true.
Proof.
  induction s as [ | c s IH ]; intros b N; [ reflexivity | ].
  cbn [rstrip_by]. cbn [no_run] in N.
  destruct (p c) eqn:P.
  - apply andb_true_iff in N. destruct N as [Nb N].
    specialize (IH true N).
    destruct (rstrip_by q s) as [ | d t ].
    + destruct (q c); [ reflexivity | ].
      cbn [no_run]. rewrite P, Nb. reflexivity.
    + cbn [no_run] in *. rewrite P, Nb. exact IH.
  - specialize (IH false N).
    destruct (rstrip_by q s) as [ | d t ].
    + destruct (q c); [ reflexivity | ]. cbn [no_run]. rewrite P.
      reflexivity.
    + cbn [no_run] in *. rewrite P. exact IH.
Qed.

Lemma lstrip_by_filter (s : string) :
  filter_str (fun c => negb (p c)) (lstrip_by p s)
  = filter_str (fun c => negb (p c)) s.
Proof.
  induction s as [ | c s IH ]; [ reflexivity | ].
  cbn [lstrip_by]. destruct (p c) eqn:P; [ | reflexivity ].
  cbn [filter_str]. rewrite P. exact IH.
Qed.

Lemma rstrip_by_filter (s : string) :
  filter_str (fun c => negb (p c)) (rstrip_by p s)
  = filter_str (fun c => negb (p c)) s.
Proof.
  induction s as [ | c s IH ]; [ reflexivity | ].
  cbn [rstrip_by]. cbn [filter_str]. rewrite <- IH.
  destruct (rstrip_by p s) as [ | d t ].
  - destruct (p c) eqn:P; cbn [filter_str negb]; [ reflexivity | ].
    rewrite P. reflexivity.
  - reflexivity.
Qed.

(** A stripped text is stripped. *)
Lemma lstrip_by_head (c : ascii) (s t : string) :
  lstrip_by p s = String c t -> p c = false.
Proof.
  induction s as [ | d s IH ]; [ discriminate | ].
  cbn [lstrip_by]. destruct (p d) eqn:P; [ exact IH | ].
  intro H. inversion H; subst. exact P.
Qed.

Lemma rstrip_by_twice (s : string) :
  rstrip_by p (rstrip_by p s) = rstrip_by p s.
Proof.
  induction s as [ | c s IH ]; [ reflexivity | ].
  cbn [rstrip_by].
  destruct (rstrip_by p s) as [ | d t ] eqn:E.
  - destruct (p c) eqn:P; [ reflexivity | ].
    cbn [rstrip_by]. rewrite P. reflexivity.
  - cbn [rstrip_by]. cbn [rstrip_by] in IH.
    destruct (match rstrip_by p t with
              | EmptyString =>
                  if p d then EmptyString else String d EmptyString
              | String a0 s0 => String d (String a0 s0)
              end) as [ | d' t' ]; [ discriminate | ].
    rewrite IH. reflexivity.
Qed.

Lemma rstrip_by_head (c : ascii) (s : string) :
  p c = false -> exists t, rstrip_by p (String c s) = String c t.
Proof.
  intro P. cbn [rstrip_by].
  destruct (rstrip_by p s); [ rewrite P | ]; eexists; reflexivity.
Qed.

Lemma strip_by_stripped (s : string) :
  lstrip_by p (rstrip_by p (lstrip_by p s)) = rstrip_by p (lstrip_by p s)
  /\ rstrip_by p (rstrip_by p (lstrip_by p s)) = rstrip_by p (lstrip_by p s).
Proof.
  split; [ | apply rstrip_by_twice ].
  destruct (lstrip_by p s) as [ | c t ] eqn:E; [ reflexivity | ].
  pose proof (lstrip_by_head c s t E) as P.
  destruct (rstrip_by_head c t P) as (t' & R). rewrite R.
  cbn [lstrip_by]. rewrite P. reflexivity.
Qed.

End Cleaning.

Section CleanedTexts.

Import Utils Utils.FileUtils Utils.TextUtils.

Lemma sub_runs_forall (p q : ascii -> bool) (repl : ascii) (s : string) :
  q repl = true ->
  forall_str q s = true ->
  forall b, forall_str q (sub_runs p repl b s) = true.
Proof.
  intros R. induction s as [ | c s IH ]; intros F b; [ reflexivity | ].
  cbn [forall_str] in F. apply andb_true_iff in F. destruct F as [Fc F].
  cbn [sub_runs]. destruct (p c).
  - destruct b; [ exact (IH F true) | ].
    cbn [forall_str]. rewrite R. exact (IH F true).
  - cbn [forall_str]. rewrite Fc. exact (IH F false).
Qed.

Lemma map_str_fixed (f : ascii -> ascii) (q : ascii -> bool) (s : string) :
  (forall c, q c = true -> f c = c) ->
  forall_str q s = true -> map_str f s = s.
Proof.
  intro H. induction s as [ | c s IH ]; [ reflexivity | ].
  cbn [forall_str map_str]. intro F. apply andb_true_iff in F.
  destruct F as [Fc F]. rewrite (H c Fc), (IH F). reflexivity.
Qed.

Lemma own_char_only (a : ascii) (s : string) :
  forall_str (fun c => (negb (is_char a c) || Ascii.eqb c a)%bool) s = true.
Proof.
  induction s as [ | c s IH ]; [ reflexivity | ].
  cbn [forall_str]. rewrite IH, andb_true_r. unfold is_char.
  rewrite (Ascii.eqb_sym a c). destruct (Ascii.eqb c a); reflexivity.
Qed.

(** X20. [TextUtils.clean_text] normalises white space: in its result
    every white-space character is a plain space, no two of them are
    neighbours, none stands at the start or at the end, and the other
    characters are those of the input in their order; cleaning a cleaned
    text changes nothing. *)
Theorem clean_text_normalises (text : string) :
  forall_str (fun c => (negb (isspace c) || Ascii.eqb c " ")%bool)
             (clean_text text) = true
  /\ no_run isspace false (clean_text text) = true
  /\ strip (clean_text text) = clean_text text
  /\ filter_str (fun c => negb (isspace c)) (clean_text text)
     = filter_str (fun c => negb (isspace c)) text
  /\ clean_text (clean_text text) = clean_text text.
Proof.
  assert (forall s,
             forall_str (fun c => (negb (isspace c) || Ascii.eqb c " ")%bool)
                        (strip (sub_runs isspace " " false s)) = true
             /\ no_run isspace false (strip (sub_runs isspace " " false s))
                = true
             /\ strip (strip (sub_runs isspace " " false s))
                = strip (sub_runs isspace " " false s)) as Shape.
  { intro s. unfold strip. rewrite !rstrip_is, !lstrip_is.
    split; [ | split ].
    - apply rstrip_by_forall, lstrip_by_forall, sub_runs_chars.
    - apply rstrip_by_no_run.
      apply (lstrip_by_no_run isspace isspace _ false).
      apply sub_runs_no_run. reflexivity.
    - destruct (strip_by_stripped isspace (sub_runs isspace " " false s))
        as [L R].
      rewrite L. exact R. }
  unfold clean_text. destruct text as [ | c text ]; [ repeat split | ].
  cbn [truthy_str].
  destruct (Shape (String c text)) as (F & N & S).
  set (r := strip (sub_runs isspace " " false (String c text))) in *.
  split; [ exact F | ]. split; [ exact N | ]. split; [ exact S | ].
  split.
  - unfold r, strip. rewrite rstrip_is, lstrip_is.
    rewrite rstrip_by_filter, lstrip_by_filter.
    apply sub_runs_keeps_others. reflexivity.
  - destruct r as [ | d r' ] eqn:Er; [ reflexivity | ].
    cbn [truthy_str]. rewrite (sub_runs_fixed isspace " " _ false N F).
    exact S.
Qed.

(** X21. [FileUtils.get_safe_filename] returns a name without any of the
    characters it replaces, without two neighbouring underscores and
    without an underscore at either end; on such a name it is the
    identity, so it is idempotent. *)
Theorem get_safe_filename_is_safe (filename : string) :
  forall_str (fun c => negb (invalid_char c)) (get_safe_filename filename)
  = true
  /\ no_run (is_char "_") false (get_safe_filename filename) = true
  /\ strip_char "_" (get_safe_filename filename) = get_safe_filename filename
  /\ get_safe_filename (get_safe_filename filename)
     = get_safe_filename filename.
Proof.
  unfold get_safe_filename. cbv zeta.
  set (m := map_str (fun c => if invalid_char c then "_"%char else c)
                    filename).
  assert (forall_str (fun c => negb (invalid_char c)) m = true) as Fm.
  { unfold m. clear. induction filename as [ | c s IH ]; [ reflexivity | ].
    cbn [map_str forall_str]. rewrite IH, andb_true_r.
    destruct (invalid_char c) eqn:I; [ reflexivity | rewrite I; reflexivity ]. }
  set (r := strip_char "_" (sub_runs (is_char "_") "_" false m)).
  assert (forall_str (fun c => negb (invalid_char c)) r = true) as F.
  { unfold r, strip_char.
    apply rstrip_by_forall, lstrip_by_forall, sub_runs_forall;
      [ reflexivity | exact Fm ]. }
  assert (no_run (is_char "_") false r = true) as N.
  { unfold r, strip_char. apply rstrip_by_no_run.
    apply (lstrip_by_no_run (is_char "_") (is_char "_") _ false).
    apply sub_runs_no_run. reflexivity. }
  assert (strip_char "_" r = r) as S.
  { unfold r, strip_char.
    destruct (strip_by_stripped (is_char "_")
                                (sub_runs (is_char "_") "_" false m))
      as [L R].
    rewrite L. exact R. }
  split; [ exact F | ]. split; [ exact N | ]. split; [ exact S | ].
  rewrite (map_str_fixed _ (fun c => negb (invalid_char c)) r); [ | | exact F ].
  - rewrite (sub_runs_fixed (is_char "_") "_" r false N (own_char_only "_" r)).
    exact S.
  - intros c I. destruct (invalid_char c); [ discriminate | reflexivity ].
Qed.

End CleanedTexts.

(** ** The files of a batch and [is_supported_format] *)

Section BatchFiles.

Import Utils Utils.FileUtils.

Lemma has_char_app (a : ascii) (s t : string) :
  Path.has_char a (s ++ t) = (Path.has_char a s || Path.has_char a t)%bool.
Proof.
  induction s as [ | c s IH ]; [ reflexivity | ].
  cbn [append Path.has_char]. rewrite IH. apply orb_assoc.
Qed.

Lemma name_of_entry (folder n : string) :
  Path.has_char "/" n = false ->
  Path.name (Path.joinpath folder n) = n.
Proof.
  intro N. unfold Path.joinpath.
  induction folder as [ | c f IH ].
  - cbn [append Path.name]. rewrite N. reflexivity.
  - cbn [append Path.name].
    rewrite has_char_app. cbn [append Path.has_char Ascii.eqb Bool.eqb].
    rewrite orb_true_r. exact IH.
Qed.

Lemma from_last_dot_none (b : string) :
  Path.has_char "." b = false -> Path.from_last_dot b = None.
Proof.
  induction b as [ | c b IH ]; [ reflexivity | ].
  cbn [Path.has_char Path.from_last_dot]. intro H.
  apply orb_false_iff in H. destruct H as [Hc H].
  rewrite (IH H), Hc. reflexivity.
Qed.

Lemma from_last_dot_app (stem b : string) :
  Path.has_char "." b = false ->
  Path.from_last_dot (stem ++ String "." b) = Some (String "." b).
Proof.
  intro H. induction stem as [ | c stem IH ].
  - cbn [append Path.from_last_dot]. rewrite (from_last_dot_none b H).
    reflexivity.
  - cbn [append Path.from_last_dot]. rewrite IH. reflexivity.
Qed.

Lemma substring_all (s : string) : substring 0 (String.length s) s = s.
Proof.
  induction s as [ | c s IH ]; [ reflexivity | ].
  cbn [String.length substring]. rewrite IH. reflexivity.
Qed.

Lemma substring_split (k : nat) (s : string) :
  (k <= String.length s)%nat ->
  s = substring 0 k s ++ substring k (String.length s - k) s.
Proof.
  revert k. induction s as [ | c s IH ]; intros k L.
  - destruct k; [ reflexivity | cbn in L; lia ].
  - destruct k as [ | k ].
    + rewrite Nat.sub_0_r, substring_all. reflexivity.
    + cbn [String.length] in L.
      cbn [substring append String.length Nat.sub].
      rewrite <- (IH k ltac:(lia)). reflexivity.
Qed.

Lemma endswith_split (n x : string) :
  endswith n x = true -> exists stem, n = stem ++ x.
Proof.
  unfold endswith. intro H. apply andb_true_iff in H. destruct H as [L E].
  apply Nat.leb_le in L. apply String.eqb_eq in E.
  exists (substring 0 (String.length n - String.length x) n).
  pose proof (substring_split (String.length n - String.length x) n
                              ltac:(lia)) as H.
  replace (String.length n - (String.length n - String.length x))%nat
    with (String.length x) in H by lia.
  rewrite E in H. exact H.
Qed.

Lemma suffix_of_entry (folder stem b : string) (c : ascii) :
  Path.has_char "." b = false ->
  b <> EmptyString ->
  Path.has_char "/" (String c stem ++ String "." b) = false ->
  Path.suffix (Path.joinpath folder (String c stem ++ String "." b))
  = String "." b.
Proof.
  intros D B N. unfold Path.suffix. rewrite (name_of_entry folder _ N).
  cbn [append]. rewrite (from_last_dot_app stem b D).
  destruct b as [ | d b ]; [ congruence | reflexivity ].
Qed.

(** X22. Every file that [process_batch] collects is an entry of the
    folder whose name ends in one of the ten patterns, an extension of
    the configuration as it is spelled there or in upper case.  Provided
    the name is more than the bare pattern, the file passes
    [FileUtils.is_supported_format], its suffix is that pattern, and
    [_get_mime_type] gives it a MIME type of its own; a file named
    exactly like one of the patterns (such as [.pdf]) is collected too,
    but has no suffix. *)
Theorem batch_files_are_supported
        (folder : string) (entries : list string) (f : string) :
  In f (supported_files folder entries) ->
  exists n x,
    In n entries /\ f = Path.joinpath folder n /\ endswith n x = true
    /\ (exists ext, In ext Config.supported_formats
                    /\ (x = ext \/ x = upper ext))
    /\ (Path.has_char "/" n = false ->
        n <> x ->
        is_supported_format f Config.supported_formats = true
        /\ Path.suffix f = x
        /\ _get_mime_type (Path.suffix f) <> "application/octet-stream").
Proof.
  intro I. apply supported_files_spec in I.
  destruct I as (n & ext & In_n & In_ext & Ef & E).
  assert (exists x b,
             endswith n x = true
             /\ (exists ext0, In ext0 Config.supported_formats
                              /\ (x = ext0 \/ x = upper ext0))
             /\ x = String "." b
             /\ Path.has_char "." b = false /\ b <> EmptyString
             /\ existsb (fun g => String.eqb g (lower x))
                        Config.supported_formats = true
             /\ _get_mime_type x <> "application/octet-stream")
    as (x & b & Ex & Pat & Xb & D & B & S & Mt).
  { unfold Config.supported_formats in In_ext. cbn [In] in In_ext.
    destruct In_ext as [<- | [<- | [<- | [<- | [<- | []]]]]];
      destruct E as [E | E];
      eexists; eexists; (split; [ exact E | ]);
      (split;
       [ first [ solve [ eexists; (split; [ | left; reflexivity ]);
                         simpl; auto 10 ]
               | solve [ eexists; (split; [ | right; reflexivity ]);
                         simpl; auto 10 ] ] | ]);
      (split; [ reflexivity | ]);
      (split; [ reflexivity | ]);
      (split; [ discriminate | ]);
      (split; [ reflexivity | vm_compute; discriminate ]). }
  exists n, x. split; [ exact In_n | ]. split; [ exact Ef | ].
  split; [ exact Ex | ]. split; [ exact Pat | ].
  intros Slash Bare.
  destruct (endswith_split n x Ex) as (stem & En).
  destruct stem as [ | c stem ]; [ cbn [append] in En; congruence | ].
  assert (Path.suffix f = x) as Sf.
  { rewrite Ef, En, Xb. apply suffix_of_entry; try assumption.
    rewrite <- Xb, <- En. exact Slash. }
  unfold is_supported_format. cbv zeta. rewrite Sf.
  split; [ exact S | ]. split; [ reflexivity | exact Mt ].
Qed.

Lemma batch_files_are_supported_example :
  exists n x,
    In n ["a.pdf"; "scan.Pdf"; "c.PNG"] /\ "in/c.PNG" = Path.joinpath "in" n
    /\ endswith n x = true
    /\ (exists ext, In ext Config.supported_formats
                    /\ (x = ext \/ x = upper ext))
    /\ (Path.has_char "/" n = false ->
        n <> x ->
        is_supported_format "in/c.PNG" Config.supported_formats = true
        /\ Path.suffix "in/c.PNG" = x
        /\ _get_mime_type (Path.suffix "in/c.PNG")
           <> "application/octet-stream").
Proof.
  apply (batch_files_are_supported "in" ["a.pdf"; "scan.Pdf"; "c.PNG"]).
  vm_compute. auto.
Defined.

End BatchFiles.

(** ** Valid dates *)

Section ValidDates.

Import Re Utils Utils.ValidationUtils.

Lemma at_end_sound (st x : mstate) :
  at_end st = Some x ->
  rest st = EmptyString \/ rest st = String (ascii_of_N 10) EmptyString.
Proof.
  unfold at_end. destruct (rest st) as [ | c [ | d t ] ]; [ auto | | discriminate ].
  destruct (N.eqb (code c) 10) eqn:E; [ | discriminate ].
  intros _. right. apply N.eqb_eq in E. unfold code in E.
  rewrite <- E, ascii_N_embedding. reflexivity.
Qed.

Lemma date_shape_sound (sep : ascii) (lo1 lo2 lo3 hi1 hi2 hi3 : nat)
      (st x : mstate) :
  run (Rep isdecimal lo1 (Some hi1) @@ Class (is_char sep)
       @@ Rep isdecimal lo2 (Some hi2) @@ Class (is_char sep)
       @@ Rep isdecimal lo3 (Some hi3))%re st at_end = Some x ->
  exists g1 g2 g3 tail,
    rest st = g1 ++ String sep (g2 ++ String sep (g3 ++ tail))
    /\ forall_str isdecimal g1 = true /\ forall_str isdecimal g2 = true
    /\ forall_str isdecimal g3 = true
    /\ (lo1 <= String.length g1 <= hi1)%nat
    /\ (lo2 <= String.length g2 <= hi2)%nat
    /\ (lo3 <= String.length g3 <= hi3)%nat
    /\ (tail = EmptyString \/ tail = String (ascii_of_N 10) EmptyString).
Proof.
  cbn [run]. intro R.
  apply rep_sound in R; [ | reflexivity ].
  destruct R as (g1 & s1 & E1 & D1 & L1 & H1 & _ & _ & R).
  destruct (rest s1) as [ | c1 r1 ] eqn:E2; [ discriminate | ].
  destruct (is_char sep c1) eqn:A1; [ | discriminate ].
  apply rep_sound in R; [ | reflexivity ].
  destruct R as (g2 & s2 & E3 & D2 & L2 & H2 & _ & _ & R).
  destruct (rest s2) as [ | c2 r2 ] eqn:E4; [ discriminate | ].
  destruct (is_char sep c2) eqn:A2; [ | discriminate ].
  apply rep_sound in R; [ | reflexivity ].
  destruct R as (g3 & s3 & E5 & D3 & L3 & H3 & _ & _ & R).
  apply at_end_sound in R.
  apply is_char_true in A1, A2. subst c1 c2.
  specialize (H1 _ eq_refl). specialize (H2 _ eq_refl).
  specialize (H3 _ eq_refl).
  cbn [rest advance] in *.
  exists g1, g2, g3, (rest s3).
  split; [ | auto 10 ].
  rewrite E1. rewrite ?E2. rewrite E3. rewrite ?E4. rewrite E5.
  reflexivity.
Qed.

(** X23. A text that [ValidationUtils.is_valid_date] accepts is made of
    three groups of decimal digits, of one to four, one or two and one to
    four digits, separated by two slashes or by two hyphens, and possibly
    followed by one line feed, which the [$] of the patterns lets
    through.  No date is checked: [99/99/9999] is accepted. *)
Theorem valid_date_shape (date_str : string) :
  is_valid_date date_str = true ->
  exists sep g1 g2 g3 tail,
    date_str = g1 ++ String sep (g2 ++ String sep (g3 ++ tail))
    /\ (sep = "/"%char \/ sep = "-"%char)
    /\ forall_str isdecimal g1 = true
    /\ forall_str isdecimal g2 = true
    /\ forall_str isdecimal g3 = true
    /\ (1 <= String.length g1 <= 4)%nat
    /\ (1 <= String.length g2 <= 2)%nat
    /\ (1 <= String.length g3 <= 4)%nat
    /\ (tail = EmptyString \/ tail = String (ascii_of_N 10) EmptyString).
Proof.
  unfold is_valid_date. destruct (truthy_str date_str); [ | discriminate ].
  unfold date_formats, Exactly. cbn [existsb]. rewrite orb_false_r.
  intro H.
  apply orb_true_iff in H. destruct H as [ H | H ];
    [ | apply orb_true_iff in H; destruct H as [ H | H ] ];
    unfold match_to_end in H;
    match type of H with
    | match ?r with Some _ => true | None => false end = true =>
        destruct r as [ x | ] eqn:R; [ | discriminate ]
    end;
    apply date_shape_sound in R;
    destruct R as (g1 & g2 & g3 & tail & E & D1 & D2 & D3 & L1 & L2 & L3 & T);
    cbn [rest] in E;
    eexists; exists g1, g2, g3, tail;
    (split; [ exact E | ]);
    (split; [ first [ left; reflexivity | right; reflexivity ] | ]);
    repeat (split; [ first [ assumption | lia ] | ]); exact T.
Qed.

Lemma valid_date_shape_example :
  is_valid_date
    (String "9" (String "9" (String "/" (String "9" (String "9" (String "/"
       (String "9" (String "9" (String "9" (String "9"
          (String (ascii_of_N 10) EmptyString))))))))))) = true
  /\ exists sep g1 g2 g3 tail,
      String "9" (String "9" (String "/" (String "9" (String "9" (String "/"
        (String "9" (String "9" (String "9" (String "9"
           (String (ascii_of_N 10) EmptyString))))))))))
      = g1 ++ String sep (g2 ++ String sep (g3 ++ tail))
      /\ (sep = "/"%char \/ sep = "-"%char)
      /\ forall_str isdecimal g1 = true
      /\ forall_str isdecimal g2 = true
      /\ forall_str isdecimal g3 = true
      /\ (1 <= String.length g1 <= 4)%nat
      /\ (1 <= String.length g2 <= 2)%nat
      /\ (1 <= String.length g3 <= 4)%nat
      /\ (tail = EmptyString \/ tail = String (ascii_of_N 10) EmptyString).
Proof.
  split; [ vm_compute; reflexivity | ].
  apply valid_date_shape. vm_compute. reflexivity.
Defined.

End ValidDates.
